(** * The SQL safety gate of the NL2SQL application

    Shallow embedding of the text-level guards that stand between the
    language model's output and the SQLite executor:

    - [enforce_read_only] and [extract_sql] of
      [app_streamlit_upload_db_ui.py], with their callers
      [generate_sql_cohere] and the Ask Questions page, and the
      post-processing of [suggest_queries];
    - [is_select_only] of [integration.py] (the [Sqlite.py] helpers), with
      the statement that [sample_rows] builds.

    A Python [str] is a list of code points, each a number of [N].  The
    character tables the source relies on through [re] and the [str]
    methods are those of CPython 3.11 (Unicode 14.0) and cover every code
    point: whitespace, the class [\w], the simple lower-case mapping, and
    the two properties that decide the final sigma in [str.lower].  What
    [re.IGNORECASE] takes for a letter and what [str.lower] maps to it are
    two notions and are kept apart: the first also takes the long s
    (U+017F) for S and the dotted and dotless I (U+0130, U+0131) for I.

    The regular expressions of the source are kept as data ([regex]) and
    run by a backtracking matcher with the priorities of [re]:
    alternatives left to right, greedy and lazy repetition, leftmost start
    for [search].

    The language model and the database are outside the application: the
    reply of [co.generate] and [fetch_all] are parameters. *)

From Stdlib Require Import List Ascii String Bool Arith NArith ZArith Lia.
From Stdlib Require Import DecimalString.
Import ListNotations.

Set Implicit Arguments.

(** ** Characters and strings *)

Definition str := list N.

Coercion N_of_ascii : ascii >-> N.

Definition str_of_string (s : string) : str :=
  map N_of_ascii (list_ascii_of_string s).

Coercion str_of_string : string >-> str.

Local Open Scope string_scope.
Local Open Scope list_scope.

Module Char.

(** Code points for which [str.isspace] holds; the class [\s] of a [str]
    pattern is the same set. *)
Definition space_points : list N :=
  [
  9; 10; 11; 12; 13; 28; 29; 30; 31; 32; 133; 160; 5760; 8192; 8193; 8194;
  8195; 8196; 8197; 8198; 8199; 8200; 8201; 8202; 8232; 8233; 8239; 8287;
  12288
  ]%N.

(** The class [\w] ([str.isalnum] or the underscore), as closed ranges. *)
Definition word_ranges : list (N * N) :=
  [
  (48, 57); (65, 90); (95, 95); (97, 122); (170, 170); (178, 179); (181, 181);
  (185, 186); (188, 190); (192, 214); (216, 246); (248, 705); (710, 721);
  (736, 740); (748, 748); (750, 750); (880, 884); (886, 887); (890, 893);
  (895, 895); (902, 902); (904, 906); (908, 908); (910, 929); (931, 1013);
  (1015, 1153); (1162, 1327); (1329, 1366); (1369, 1369); (1376, 1416); (1488,
  1514); (1519, 1522); (1568, 1610); (1632, 1641); (1646, 1647); (1649, 1747);
  (1749, 1749); (1765, 1766); (1774, 1788); (1791, 1791); (1808, 1808); (1810,
  1839); (1869, 1957); (1969, 1969); (1984, 2026); (2036, 2037); (2042, 2042);
  (2048, 2069); (2074, 2074); (2084, 2084); (2088, 2088); (2112, 2136); (2144,
  2154); (2160, 2183); (2185, 2190); (2208, 2249); (2308, 2361); (2365, 2365);
  (2384, 2384); (2392, 2401); (2406, 2415); (2417, 2432); (2437, 2444); (2447,
  2448); (2451, 2472); (2474, 2480); (2482, 2482); (2486, 2489); (2493, 2493);
  (2510, 2510); (2524, 2525); (2527, 2529); (2534, 2545); (2548, 2553); (2556,
  2556); (2565, 2570); (2575, 2576); (2579, 2600); (2602, 2608); (2610, 2611);
  (2613, 2614); (2616, 2617); (2649, 2652); (2654, 2654); (2662, 2671); (2674,
  2676); (2693, 2701); (2703, 2705); (2707, 2728); (2730, 2736); (2738, 2739);
  (2741, 2745); (2749, 2749); (2768, 2768); (2784, 2785); (2790, 2799); (2809,
  2809); (2821, 2828); (2831, 2832); (2835, 2856); (2858, 2864); (2866, 2867);
  (2869, 2873); (2877, 2877); (2908, 2909); (2911, 2913); (2918, 2927); (2929,
  2935); (2947, 2947); (2949, 2954); (2958, 2960); (2962, 2965); (2969, 2970);
  (2972, 2972); (2974, 2975); (2979, 2980); (2984, 2986); (2990, 3001); (3024,
  3024); (3046, 3058); (3077, 3084); (3086, 3088); (3090, 3112); (3114, 3129);
  (3133, 3133); (3160, 3162); (3165, 3165); (3168, 3169); (3174, 3183); (3192,
  3198); (3200, 3200); (3205, 3212); (3214, 3216); (3218, 3240); (3242, 3251);
  (3253, 3257); (3261, 3261); (3293, 3294); (3296, 3297); (3302, 3311); (3313,
  3314); (3332, 3340); (3342, 3344); (3346, 3386); (3389, 3389); (3406, 3406);
  (3412, 3414); (3416, 3425); (3430, 3448); (3450, 3455); (3461, 3478); (3482,
  3505); (3507, 3515); (3517, 3517); (3520, 3526); (3558, 3567); (3585, 3632);
  (3634, 3635); (3648, 3654); (3664, 3673); (3713, 3714); (3716, 3716); (3718,
  3722); (3724, 3747); (3749, 3749); (3751, 3760); (3762, 3763); (3773, 3773);
  (3776, 3780); (3782, 3782); (3792, 3801); (3804, 3807); (3840, 3840); (3872,
  3891); (3904, 3911); (3913, 3948); (3976, 3980); (4096, 4138); (4159, 4169);
  (4176, 4181); (4186, 4189); (4193, 4193); (4197, 4198); (4206, 4208); (4213,
  4225); (4238, 4238); (4240, 4249); (4256, 4293); (4295, 4295); (4301, 4301);
  (4304, 4346); (4348, 4680); (4682, 4685); (4688, 4694); (4696, 4696); (4698,
  4701); (4704, 4744); (4746, 4749); (4752, 4784); (4786, 4789); (4792, 4798);
  (4800, 4800); (4802, 4805); (4808, 4822); (4824, 4880); (4882, 4885); (4888,
  4954); (4969, 4988); (4992, 5007); (5024, 5109); (5112, 5117); (5121, 5740);
  (5743, 5759); (5761, 5786); (5792, 5866); (5870, 5880); (5888, 5905); (5919,
  5937); (5952, 5969); (5984, 5996); (5998, 6000); (6016, 6067); (6103, 6103);
  (6108, 6108); (6112, 6121); (6128, 6137); (6160, 6169); (6176, 6264); (6272,
  6276); (6279, 6312); (6314, 6314); (6320, 6389); (6400, 6430); (6470, 6509);
  (6512, 6516); (6528, 6571); (6576, 6601); (6608, 6618); (6656, 6678); (6688,
  6740); (6784, 6793); (6800, 6809); (6823, 6823); (6917, 6963); (6981, 6988);
  (6992, 7001); (7043, 7072); (7086, 7141); (7168, 7203); (7232, 7241); (7245,
  7293); (7296, 7304); (7312, 7354); (7357, 7359); (7401, 7404); (7406, 7411);
  (7413, 7414); (7418, 7418); (7424, 7615); (7680, 7957); (7960, 7965); (7968,
  8005); (8008, 8013); (8016, 8023); (8025, 8025); (8027, 8027); (8029, 8029);
  (8031, 8061); (8064, 8116); (8118, 8124); (8126, 8126); (8130, 8132); (8134,
  8140); (8144, 8147); (8150, 8155); (8160, 8172); (8178, 8180); (8182, 8188);
  (8304, 8305); (8308, 8313); (8319, 8329); (8336, 8348); (8450, 8450); (8455,
  8455); (8458, 8467); (8469, 8469); (8473, 8477); (8484, 8484); (8486, 8486);
  (8488, 8488); (8490, 8493); (8495, 8505); (8508, 8511); (8517, 8521); (8526,
  8526); (8528, 8585); (9312, 9371); (9450, 9471); (10102, 10131); (11264,
  11492); (11499, 11502); (11506, 11507); (11517, 11517); (11520, 11557);
  (11559, 11559); (11565, 11565); (11568, 11623); (11631, 11631); (11648,
  11670); (11680, 11686); (11688, 11694); (11696, 11702); (11704, 11710);
  (11712, 11718); (11720, 11726); (11728, 11734); (11736, 11742); (11823,
  11823); (12293, 12295); (12321, 12329); (12337, 12341); (12344, 12348);
  (12353, 12438); (12445, 12447); (12449, 12538); (12540, 12543); (12549,
  12591); (12593, 12686); (12690, 12693); (12704, 12735); (12784, 12799);
  (12832, 12841); (12872, 12879); (12881, 12895); (12928, 12937); (12977,
  12991); (13312, 19903); (19968, 42124); (42192, 42237); (42240, 42508);
  (42512, 42539); (42560, 42606); (42623, 42653); (42656, 42735); (42775,
  42783); (42786, 42888); (42891, 42954); (42960, 42961); (42963, 42963);
  (42965, 42969); (42994, 43009); (43011, 43013); (43015, 43018); (43020,
  43042); (43056, 43061); (43072, 43123); (43138, 43187); (43216, 43225);
  (43250, 43255); (43259, 43259); (43261, 43262); (43264, 43301); (43312,
  43334); (43360, 43388); (43396, 43442); (43471, 43481); (43488, 43492);
  (43494, 43518); (43520, 43560); (43584, 43586); (43588, 43595); (43600,
  43609); (43616, 43638); (43642, 43642); (43646, 43695); (43697, 43697);
  (43701, 43702); (43705, 43709); (43712, 43712); (43714, 43714); (43739,
  43741); (43744, 43754); (43762, 43764); (43777, 43782); (43785, 43790);
  (43793, 43798); (43808, 43814); (43816, 43822); (43824, 43866); (43868,
  43881); (43888, 44002); (44016, 44025); (44032, 55203); (55216, 55238);
  (55243, 55291); (63744, 64109); (64112, 64217); (64256, 64262); (64275,
  64279); (64285, 64285); (64287, 64296); (64298, 64310); (64312, 64316);
  (64318, 64318); (64320, 64321); (64323, 64324); (64326, 64433); (64467,
  64829); (64848, 64911); (64914, 64967); (65008, 65019); (65136, 65140);
  (65142, 65276); (65296, 65305); (65313, 65338); (65345, 65370); (65382,
  65470); (65474, 65479); (65482, 65487); (65490, 65495); (65498, 65500);
  (65536, 65547); (65549, 65574); (65576, 65594); (65596, 65597); (65599,
  65613); (65616, 65629); (65664, 65786); (65799, 65843); (65856, 65912);
  (65930, 65931); (66176, 66204); (66208, 66256); (66273, 66299); (66304,
  66339); (66349, 66378); (66384, 66421); (66432, 66461); (66464, 66499);
  (66504, 66511); (66513, 66517); (66560, 66717); (66720, 66729); (66736,
  66771); (66776, 66811); (66816, 66855); (66864, 66915); (66928, 66938);
  (66940, 66954); (66956, 66962); (66964, 66965); (66967, 66977); (66979,
  66993); (66995, 67001); (67003, 67004); (67072, 67382); (67392, 67413);
  (67424, 67431); (67456, 67461); (67463, 67504); (67506, 67514); (67584,
  67589); (67592, 67592); (67594, 67637); (67639, 67640); (67644, 67644);
  (67647, 67669); (67672, 67702); (67705, 67742); (67751, 67759); (67808,
  67826); (67828, 67829); (67835, 67867); (67872, 67897); (67968, 68023);
  (68028, 68047); (68050, 68096); (68112, 68115); (68117, 68119); (68121,
  68149); (68160, 68168); (68192, 68222); (68224, 68255); (68288, 68295);
  (68297, 68324); (68331, 68335); (68352, 68405); (68416, 68437); (68440,
  68466); (68472, 68497); (68521, 68527); (68608, 68680); (68736, 68786);
  (68800, 68850); (68858, 68899); (68912, 68921); (69216, 69246); (69248,
  69289); (69296, 69297); (69376, 69415); (69424, 69445); (69457, 69460);
  (69488, 69505); (69552, 69579); (69600, 69622); (69635, 69687); (69714,
  69743); (69745, 69746); (69749, 69749); (69763, 69807); (69840, 69864);
  (69872, 69881); (69891, 69926); (69942, 69951); (69956, 69956); (69959,
  69959); (69968, 70002); (70006, 70006); (70019, 70066); (70081, 70084);
  (70096, 70106); (70108, 70108); (70113, 70132); (70144, 70161); (70163,
  70187); (70272, 70278); (70280, 70280); (70282, 70285); (70287, 70301);
  (70303, 70312); (70320, 70366); (70384, 70393); (70405, 70412); (70415,
  70416); (70419, 70440); (70442, 70448); (70450, 70451); (70453, 70457);
  (70461, 70461); (70480, 70480); (70493, 70497); (70656, 70708); (70727,
  70730); (70736, 70745); (70751, 70753); (70784, 70831); (70852, 70853);
  (70855, 70855); (70864, 70873); (71040, 71086); (71128, 71131); (71168,
  71215); (71236, 71236); (71248, 71257); (71296, 71338); (71352, 71352);
  (71360, 71369); (71424, 71450); (71472, 71483); (71488, 71494); (71680,
  71723); (71840, 71922); (71935, 71942); (71945, 71945); (71948, 71955);
  (71957, 71958); (71960, 71983); (71999, 71999); (72001, 72001); (72016,
  72025); (72096, 72103); (72106, 72144); (72161, 72161); (72163, 72163);
  (72192, 72192); (72203, 72242); (72250, 72250); (72272, 72272); (72284,
  72329); (72349, 72349); (72368, 72440); (72704, 72712); (72714, 72750);
  (72768, 72768); (72784, 72812); (72818, 72847); (72960, 72966); (72968,
  72969); (72971, 73008); (73030, 73030); (73040, 73049); (73056, 73061);
  (73063, 73064); (73066, 73097); (73112, 73112); (73120, 73129); (73440,
  73458); (73648, 73648); (73664, 73684); (73728, 74649); (74752, 74862);
  (74880, 75075); (77712, 77808); (77824, 78894); (82944, 83526); (92160,
  92728); (92736, 92766); (92768, 92777); (92784, 92862); (92864, 92873);
  (92880, 92909); (92928, 92975); (92992, 92995); (93008, 93017); (93019,
  93025); (93027, 93047); (93053, 93071); (93760, 93846); (93952, 94026);
  (94032, 94032); (94099, 94111); (94176, 94177); (94179, 94179); (94208,
  100343); (100352, 101589); (101632, 101640); (110576, 110579); (110581,
  110587); (110589, 110590); (110592, 110882); (110928, 110930); (110948,
  110951); (110960, 111355); (113664, 113770); (113776, 113788); (113792,
  113800); (113808, 113817); (119520, 119539); (119648, 119672); (119808,
  119892); (119894, 119964); (119966, 119967); (119970, 119970); (119973,
  119974); (119977, 119980); (119982, 119993); (119995, 119995); (119997,
  120003); (120005, 120069); (120071, 120074); (120077, 120084); (120086,
  120092); (120094, 120121); (120123, 120126); (120128, 120132); (120134,
  120134); (120138, 120144); (120146, 120485); (120488, 120512); (120514,
  120538); (120540, 120570); (120572, 120596); (120598, 120628); (120630,
  120654); (120656, 120686); (120688, 120712); (120714, 120744); (120746,
  120770); (120772, 120779); (120782, 120831); (122624, 122654); (123136,
  123180); (123191, 123197); (123200, 123209); (123214, 123214); (123536,
  123565); (123584, 123627); (123632, 123641); (124896, 124902); (124904,
  124907); (124909, 124910); (124912, 124926); (124928, 125124); (125127,
  125135); (125184, 125251); (125259, 125259); (125264, 125273); (126065,
  126123); (126125, 126127); (126129, 126132); (126209, 126253); (126255,
  126269); (126464, 126467); (126469, 126495); (126497, 126498); (126500,
  126500); (126503, 126503); (126505, 126514); (126516, 126519); (126521,
  126521); (126523, 126523); (126530, 126530); (126535, 126535); (126537,
  126537); (126539, 126539); (126541, 126543); (126545, 126546); (126548,
  126548); (126551, 126551); (126553, 126553); (126555, 126555); (126557,
  126557); (126559, 126559); (126561, 126562); (126564, 126564); (126567,
  126570); (126572, 126578); (126580, 126583); (126585, 126588); (126590,
  126590); (126592, 126601); (126603, 126619); (126625, 126627); (126629,
  126633); (126635, 126651); (127232, 127244); (130032, 130041); (131072,
  173791); (173824, 177976); (177984, 178205); (178208, 183969); (183984,
  191456); (194560, 195101); (196608, 201546)
  ]%N.

(** The simple lower-case mapping ([Py_UNICODE_TOLOWER], which is also
    [_sre.unicode_tolower]): each code point it moves, with its image. *)
Definition lower_pairs : list (N * N) :=
  [
  (65, 97); (66, 98); (67, 99); (68, 100); (69, 101); (70, 102); (71, 103);
  (72, 104); (73, 105); (74, 106); (75, 107); (76, 108); (77, 109); (78, 110);
  (79, 111); (80, 112); (81, 113); (82, 114); (83, 115); (84, 116); (85, 117);
  (86, 118); (87, 119); (88, 120); (89, 121); (90, 122); (192, 224); (193,
  225); (194, 226); (195, 227); (196, 228); (197, 229); (198, 230); (199,
  231); (200, 232); (201, 233); (202, 234); (203, 235); (204, 236); (205,
  237); (206, 238); (207, 239); (208, 240); (209, 241); (210, 242); (211,
  243); (212, 244); (213, 245); (214, 246); (216, 248); (217, 249); (218,
  250); (219, 251); (220, 252); (221, 253); (222, 254); (256, 257); (258,
  259); (260, 261); (262, 263); (264, 265); (266, 267); (268, 269); (270,
  271); (272, 273); (274, 275); (276, 277); (278, 279); (280, 281); (282,
  283); (284, 285); (286, 287); (288, 289); (290, 291); (292, 293); (294,
  295); (296, 297); (298, 299); (300, 301); (302, 303); (304, 105); (306,
  307); (308, 309); (310, 311); (313, 314); (315, 316); (317, 318); (319,
  320); (321, 322); (323, 324); (325, 326); (327, 328); (330, 331); (332,
  333); (334, 335); (336, 337); (338, 339); (340, 341); (342, 343); (344,
  345); (346, 347); (348, 349); (350, 351); (352, 353); (354, 355); (356,
  357); (358, 359); (360, 361); (362, 363); (364, 365); (366, 367); (368,
  369); (370, 371); (372, 373); (374, 375); (376, 255); (377, 378); (379,
  380); (381, 382); (385, 595); (386, 387); (388, 389); (390, 596); (391,
  392); (393, 598); (394, 599); (395, 396); (398, 477); (399, 601); (400,
  603); (401, 402); (403, 608); (404, 611); (406, 617); (407, 616); (408,
  409); (412, 623); (413, 626); (415, 629); (416, 417); (418, 419); (420,
  421); (422, 640); (423, 424); (425, 643); (428, 429); (430, 648); (431,
  432); (433, 650); (434, 651); (435, 436); (437, 438); (439, 658); (440,
  441); (444, 445); (452, 454); (453, 454); (455, 457); (456, 457); (458,
  460); (459, 460); (461, 462); (463, 464); (465, 466); (467, 468); (469,
  470); (471, 472); (473, 474); (475, 476); (478, 479); (480, 481); (482,
  483); (484, 485); (486, 487); (488, 489); (490, 491); (492, 493); (494,
  495); (497, 499); (498, 499); (500, 501); (502, 405); (503, 447); (504,
  505); (506, 507); (508, 509); (510, 511); (512, 513); (514, 515); (516,
  517); (518, 519); (520, 521); (522, 523); (524, 525); (526, 527); (528,
  529); (530, 531); (532, 533); (534, 535); (536, 537); (538, 539); (540,
  541); (542, 543); (544, 414); (546, 547); (548, 549); (550, 551); (552,
  553); (554, 555); (556, 557); (558, 559); (560, 561); (562, 563); (570,
  11365); (571, 572); (573, 410); (574, 11366); (577, 578); (579, 384); (580,
  649); (581, 652); (582, 583); (584, 585); (586, 587); (588, 589); (590,
  591); (880, 881); (882, 883); (886, 887); (895, 1011); (902, 940); (904,
  941); (905, 942); (906, 943); (908, 972); (910, 973); (911, 974); (913,
  945); (914, 946); (915, 947); (916, 948); (917, 949); (918, 950); (919,
  951); (920, 952); (921, 953); (922, 954); (923, 955); (924, 956); (925,
  957); (926, 958); (927, 959); (928, 960); (929, 961); (931, 963); (932,
  964); (933, 965); (934, 966); (935, 967); (936, 968); (937, 969); (938,
  970); (939, 971); (975, 983); (984, 985); (986, 987); (988, 989); (990,
  991); (992, 993); (994, 995); (996, 997); (998, 999); (1000, 1001); (1002,
  1003); (1004, 1005); (1006, 1007); (1012, 952); (1015, 1016); (1017, 1010);
  (1018, 1019); (1021, 891); (1022, 892); (1023, 893); (1024, 1104); (1025,
  1105); (1026, 1106); (1027, 1107); (1028, 1108); (1029, 1109); (1030, 1110);
  (1031, 1111); (1032, 1112); (1033, 1113); (1034, 1114); (1035, 1115); (1036,
  1116); (1037, 1117); (1038, 1118); (1039, 1119); (1040, 1072); (1041, 1073);
  (1042, 1074); (1043, 1075); (1044, 1076); (1045, 1077); (1046, 1078); (1047,
  1079); (1048, 1080); (1049, 1081); (1050, 1082); (1051, 1083); (1052, 1084);
  (1053, 1085); (1054, 1086); (1055, 1087); (1056, 1088); (1057, 1089); (1058,
  1090); (1059, 1091); (1060, 1092); (1061, 1093); (1062, 1094); (1063, 1095);
  (1064, 1096); (1065, 1097); (1066, 1098); (1067, 1099); (1068, 1100); (1069,
  1101); (1070, 1102); (1071, 1103); (1120, 1121); (1122, 1123); (1124, 1125);
  (1126, 1127); (1128, 1129); (1130, 1131); (1132, 1133); (1134, 1135); (1136,
  1137); (1138, 1139); (1140, 1141); (1142, 1143); (1144, 1145); (1146, 1147);
  (1148, 1149); (1150, 1151); (1152, 1153); (1162, 1163); (1164, 1165); (1166,
  1167); (1168, 1169); (1170, 1171); (1172, 1173); (1174, 1175); (1176, 1177);
  (1178, 1179); (1180, 1181); (1182, 1183); (1184, 1185); (1186, 1187); (1188,
  1189); (1190, 1191); (1192, 1193); (1194, 1195); (1196, 1197); (1198, 1199);
  (1200, 1201); (1202, 1203); (1204, 1205); (1206, 1207); (1208, 1209); (1210,
  1211); (1212, 1213); (1214, 1215); (1216, 1231); (1217, 1218); (1219, 1220);
  (1221, 1222); (1223, 1224); (1225, 1226); (1227, 1228); (1229, 1230); (1232,
  1233); (1234, 1235); (1236, 1237); (1238, 1239); (1240, 1241); (1242, 1243);
  (1244, 1245); (1246, 1247); (1248, 1249); (1250, 1251); (1252, 1253); (1254,
  1255); (1256, 1257); (1258, 1259); (1260, 1261); (1262, 1263); (1264, 1265);
  (1266, 1267); (1268, 1269); (1270, 1271); (1272, 1273); (1274, 1275); (1276,
  1277); (1278, 1279); (1280, 1281); (1282, 1283); (1284, 1285); (1286, 1287);
  (1288, 1289); (1290, 1291); (1292, 1293); (1294, 1295); (1296, 1297); (1298,
  1299); (1300, 1301); (1302, 1303); (1304, 1305); (1306, 1307); (1308, 1309);
  (1310, 1311); (1312, 1313); (1314, 1315); (1316, 1317); (1318, 1319); (1320,
  1321); (1322, 1323); (1324, 1325); (1326, 1327); (1329, 1377); (1330, 1378);
  (1331, 1379); (1332, 1380); (1333, 1381); (1334, 1382); (1335, 1383); (1336,
  1384); (1337, 1385); (1338, 1386); (1339, 1387); (1340, 1388); (1341, 1389);
  (1342, 1390); (1343, 1391); (1344, 1392); (1345, 1393); (1346, 1394); (1347,
  1395); (1348, 1396); (1349, 1397); (1350, 1398); (1351, 1399); (1352, 1400);
  (1353, 1401); (1354, 1402); (1355, 1403); (1356, 1404); (1357, 1405); (1358,
  1406); (1359, 1407); (1360, 1408); (1361, 1409); (1362, 1410); (1363, 1411);
  (1364, 1412); (1365, 1413); (1366, 1414); (4256, 11520); (4257, 11521);
  (4258, 11522); (4259, 11523); (4260, 11524); (4261, 11525); (4262, 11526);
  (4263, 11527); (4264, 11528); (4265, 11529); (4266, 11530); (4267, 11531);
  (4268, 11532); (4269, 11533); (4270, 11534); (4271, 11535); (4272, 11536);
  (4273, 11537); (4274, 11538); (4275, 11539); (4276, 11540); (4277, 11541);
  (4278, 11542); (4279, 11543); (4280, 11544); (4281, 11545); (4282, 11546);
  (4283, 11547); (4284, 11548); (4285, 11549); (4286, 11550); (4287, 11551);
  (4288, 11552); (4289, 11553); (4290, 11554); (4291, 11555); (4292, 11556);
  (4293, 11557); (4295, 11559); (4301, 11565); (5024, 43888); (5025, 43889);
  (5026, 43890); (5027, 43891); (5028, 43892); (5029, 43893); (5030, 43894);
  (5031, 43895); (5032, 43896); (5033, 43897); (5034, 43898); (5035, 43899);
  (5036, 43900); (5037, 43901); (5038, 43902); (5039, 43903); (5040, 43904);
  (5041, 43905); (5042, 43906); (5043, 43907); (5044, 43908); (5045, 43909);
  (5046, 43910); (5047, 43911); (5048, 43912); (5049, 43913); (5050, 43914);
  (5051, 43915); (5052, 43916); (5053, 43917); (5054, 43918); (5055, 43919);
  (5056, 43920); (5057, 43921); (5058, 43922); (5059, 43923); (5060, 43924);
  (5061, 43925); (5062, 43926); (5063, 43927); (5064, 43928); (5065, 43929);
  (5066, 43930); (5067, 43931); (5068, 43932); (5069, 43933); (5070, 43934);
  (5071, 43935); (5072, 43936); (5073, 43937); (5074, 43938); (5075, 43939);
  (5076, 43940); (5077, 43941); (5078, 43942); (5079, 43943); (5080, 43944);
  (5081, 43945); (5082, 43946); (5083, 43947); (5084, 43948); (5085, 43949);
  (5086, 43950); (5087, 43951); (5088, 43952); (5089, 43953); (5090, 43954);
  (5091, 43955); (5092, 43956); (5093, 43957); (5094, 43958); (5095, 43959);
  (5096, 43960); (5097, 43961); (5098, 43962); (5099, 43963); (5100, 43964);
  (5101, 43965); (5102, 43966); (5103, 43967); (5104, 5112); (5105, 5113);
  (5106, 5114); (5107, 5115); (5108, 5116); (5109, 5117); (7312, 4304); (7313,
  4305); (7314, 4306); (7315, 4307); (7316, 4308); (7317, 4309); (7318, 4310);
  (7319, 4311); (7320, 4312); (7321, 4313); (7322, 4314); (7323, 4315); (7324,
  4316); (7325, 4317); (7326, 4318); (7327, 4319); (7328, 4320); (7329, 4321);
  (7330, 4322); (7331, 4323); (7332, 4324); (7333, 4325); (7334, 4326); (7335,
  4327); (7336, 4328); (7337, 4329); (7338, 4330); (7339, 4331); (7340, 4332);
  (7341, 4333); (7342, 4334); (7343, 4335); (7344, 4336); (7345, 4337); (7346,
  4338); (7347, 4339); (7348, 4340); (7349, 4341); (7350, 4342); (7351, 4343);
  (7352, 4344); (7353, 4345); (7354, 4346); (7357, 4349); (7358, 4350); (7359,
  4351); (7680, 7681); (7682, 7683); (7684, 7685); (7686, 7687); (7688, 7689);
  (7690, 7691); (7692, 7693); (7694, 7695); (7696, 7697); (7698, 7699); (7700,
  7701); (7702, 7703); (7704, 7705); (7706, 7707); (7708, 7709); (7710, 7711);
  (7712, 7713); (7714, 7715); (7716, 7717); (7718, 7719); (7720, 7721); (7722,
  7723); (7724, 7725); (7726, 7727); (7728, 7729); (7730, 7731); (7732, 7733);
  (7734, 7735); (7736, 7737); (7738, 7739); (7740, 7741); (7742, 7743); (7744,
  7745); (7746, 7747); (7748, 7749); (7750, 7751); (7752, 7753); (7754, 7755);
  (7756, 7757); (7758, 7759); (7760, 7761); (7762, 7763); (7764, 7765); (7766,
  7767); (7768, 7769); (7770, 7771); (7772, 7773); (7774, 7775); (7776, 7777);
  (7778, 7779); (7780, 7781); (7782, 7783); (7784, 7785); (7786, 7787); (7788,
  7789); (7790, 7791); (7792, 7793); (7794, 7795); (7796, 7797); (7798, 7799);
  (7800, 7801); (7802, 7803); (7804, 7805); (7806, 7807); (7808, 7809); (7810,
  7811); (7812, 7813); (7814, 7815); (7816, 7817); (7818, 7819); (7820, 7821);
  (7822, 7823); (7824, 7825); (7826, 7827); (7828, 7829); (7838, 223); (7840,
  7841); (7842, 7843); (7844, 7845); (7846, 7847); (7848, 7849); (7850, 7851);
  (7852, 7853); (7854, 7855); (7856, 7857); (7858, 7859); (7860, 7861); (7862,
  7863); (7864, 7865); (7866, 7867); (7868, 7869); (7870, 7871); (7872, 7873);
  (7874, 7875); (7876, 7877); (7878, 7879); (7880, 7881); (7882, 7883); (7884,
  7885); (7886, 7887); (7888, 7889); (7890, 7891); (7892, 7893); (7894, 7895);
  (7896, 7897); (7898, 7899); (7900, 7901); (7902, 7903); (7904, 7905); (7906,
  7907); (7908, 7909); (7910, 7911); (7912, 7913); (7914, 7915); (7916, 7917);
  (7918, 7919); (7920, 7921); (7922, 7923); (7924, 7925); (7926, 7927); (7928,
  7929); (7930, 7931); (7932, 7933); (7934, 7935); (7944, 7936); (7945, 7937);
  (7946, 7938); (7947, 7939); (7948, 7940); (7949, 7941); (7950, 7942); (7951,
  7943); (7960, 7952); (7961, 7953); (7962, 7954); (7963, 7955); (7964, 7956);
  (7965, 7957); (7976, 7968); (7977, 7969); (7978, 7970); (7979, 7971); (7980,
  7972); (7981, 7973); (7982, 7974); (7983, 7975); (7992, 7984); (7993, 7985);
  (7994, 7986); (7995, 7987); (7996, 7988); (7997, 7989); (7998, 7990); (7999,
  7991); (8008, 8000); (8009, 8001); (8010, 8002); (8011, 8003); (8012, 8004);
  (8013, 8005); (8025, 8017); (8027, 8019); (8029, 8021); (8031, 8023); (8040,
  8032); (8041, 8033); (8042, 8034); (8043, 8035); (8044, 8036); (8045, 8037);
  (8046, 8038); (8047, 8039); (8072, 8064); (8073, 8065); (8074, 8066); (8075,
  8067); (8076, 8068); (8077, 8069); (8078, 8070); (8079, 8071); (8088, 8080);
  (8089, 8081); (8090, 8082); (8091, 8083); (8092, 8084); (8093, 8085); (8094,
  8086); (8095, 8087); (8104, 8096); (8105, 8097); (8106, 8098); (8107, 8099);
  (8108, 8100); (8109, 8101); (8110, 8102); (8111, 8103); (8120, 8112); (8121,
  8113); (8122, 8048); (8123, 8049); (8124, 8115); (8136, 8050); (8137, 8051);
  (8138, 8052); (8139, 8053); (8140, 8131); (8152, 8144); (8153, 8145); (8154,
  8054); (8155, 8055); (8168, 8160); (8169, 8161); (8170, 8058); (8171, 8059);
  (8172, 8165); (8184, 8056); (8185, 8057); (8186, 8060); (8187, 8061); (8188,
  8179); (8486, 969); (8490, 107); (8491, 229); (8498, 8526); (8544, 8560);
  (8545, 8561); (8546, 8562); (8547, 8563); (8548, 8564); (8549, 8565); (8550,
  8566); (8551, 8567); (8552, 8568); (8553, 8569); (8554, 8570); (8555, 8571);
  (8556, 8572); (8557, 8573); (8558, 8574); (8559, 8575); (8579, 8580); (9398,
  9424); (9399, 9425); (9400, 9426); (9401, 9427); (9402, 9428); (9403, 9429);
  (9404, 9430); (9405, 9431); (9406, 9432); (9407, 9433); (9408, 9434); (9409,
  9435); (9410, 9436); (9411, 9437); (9412, 9438); (9413, 9439); (9414, 9440);
  (9415, 9441); (9416, 9442); (9417, 9443); (9418, 9444); (9419, 9445); (9420,
  9446); (9421, 9447); (9422, 9448); (9423, 9449); (11264, 11312); (11265,
  11313); (11266, 11314); (11267, 11315); (11268, 11316); (11269, 11317);
  (11270, 11318); (11271, 11319); (11272, 11320); (11273, 11321); (11274,
  11322); (11275, 11323); (11276, 11324); (11277, 11325); (11278, 11326);
  (11279, 11327); (11280, 11328); (11281, 11329); (11282, 11330); (11283,
  11331); (11284, 11332); (11285, 11333); (11286, 11334); (11287, 11335);
  (11288, 11336); (11289, 11337); (11290, 11338); (11291, 11339); (11292,
  11340); (11293, 11341); (11294, 11342); (11295, 11343); (11296, 11344);
  (11297, 11345); (11298, 11346); (11299, 11347); (11300, 11348); (11301,
  11349); (11302, 11350); (11303, 11351); (11304, 11352); (11305, 11353);
  (11306, 11354); (11307, 11355); (11308, 11356); (11309, 11357); (11310,
  11358); (11311, 11359); (11360, 11361); (11362, 619); (11363, 7549); (11364,
  637); (11367, 11368); (11369, 11370); (11371, 11372); (11373, 593); (11374,
  625); (11375, 592); (11376, 594); (11378, 11379); (11381, 11382); (11390,
  575); (11391, 576); (11392, 11393); (11394, 11395); (11396, 11397); (11398,
  11399); (11400, 11401); (11402, 11403); (11404, 11405); (11406, 11407);
  (11408, 11409); (11410, 11411); (11412, 11413); (11414, 11415); (11416,
  11417); (11418, 11419); (11420, 11421); (11422, 11423); (11424, 11425);
  (11426, 11427); (11428, 11429); (11430, 11431); (11432, 11433); (11434,
  11435); (11436, 11437); (11438, 11439); (11440, 11441); (11442, 11443);
  (11444, 11445); (11446, 11447); (11448, 11449); (11450, 11451); (11452,
  11453); (11454, 11455); (11456, 11457); (11458, 11459); (11460, 11461);
  (11462, 11463); (11464, 11465); (11466, 11467); (11468, 11469); (11470,
  11471); (11472, 11473); (11474, 11475); (11476, 11477); (11478, 11479);
  (11480, 11481); (11482, 11483); (11484, 11485); (11486, 11487); (11488,
  11489); (11490, 11491); (11499, 11500); (11501, 11502); (11506, 11507);
  (42560, 42561); (42562, 42563); (42564, 42565); (42566, 42567); (42568,
  42569); (42570, 42571); (42572, 42573); (42574, 42575); (42576, 42577);
  (42578, 42579); (42580, 42581); (42582, 42583); (42584, 42585); (42586,
  42587); (42588, 42589); (42590, 42591); (42592, 42593); (42594, 42595);
  (42596, 42597); (42598, 42599); (42600, 42601); (42602, 42603); (42604,
  42605); (42624, 42625); (42626, 42627); (42628, 42629); (42630, 42631);
  (42632, 42633); (42634, 42635); (42636, 42637); (42638, 42639); (42640,
  42641); (42642, 42643); (42644, 42645); (42646, 42647); (42648, 42649);
  (42650, 42651); (42786, 42787); (42788, 42789); (42790, 42791); (42792,
  42793); (42794, 42795); (42796, 42797); (42798, 42799); (42802, 42803);
  (42804, 42805); (42806, 42807); (42808, 42809); (42810, 42811); (42812,
  42813); (42814, 42815); (42816, 42817); (42818, 42819); (42820, 42821);
  (42822, 42823); (42824, 42825); (42826, 42827); (42828, 42829); (42830,
  42831); (42832, 42833); (42834, 42835); (42836, 42837); (42838, 42839);
  (42840, 42841); (42842, 42843); (42844, 42845); (42846, 42847); (42848,
  42849); (42850, 42851); (42852, 42853); (42854, 42855); (42856, 42857);
  (42858, 42859); (42860, 42861); (42862, 42863); (42873, 42874); (42875,
  42876); (42877, 7545); (42878, 42879); (42880, 42881); (42882, 42883);
  (42884, 42885); (42886, 42887); (42891, 42892); (42893, 613); (42896,
  42897); (42898, 42899); (42902, 42903); (42904, 42905); (42906, 42907);
  (42908, 42909); (42910, 42911); (42912, 42913); (42914, 42915); (42916,
  42917); (42918, 42919); (42920, 42921); (42922, 614); (42923, 604); (42924,
  609); (42925, 620); (42926, 618); (42928, 670); (42929, 647); (42930, 669);
  (42931, 43859); (42932, 42933); (42934, 42935); (42936, 42937); (42938,
  42939); (42940, 42941); (42942, 42943); (42944, 42945); (42946, 42947);
  (42948, 42900); (42949, 642); (42950, 7566); (42951, 42952); (42953, 42954);
  (42960, 42961); (42966, 42967); (42968, 42969); (42997, 42998); (65313,
  65345); (65314, 65346); (65315, 65347); (65316, 65348); (65317, 65349);
  (65318, 65350); (65319, 65351); (65320, 65352); (65321, 65353); (65322,
  65354); (65323, 65355); (65324, 65356); (65325, 65357); (65326, 65358);
  (65327, 65359); (65328, 65360); (65329, 65361); (65330, 65362); (65331,
  65363); (65332, 65364); (65333, 65365); (65334, 65366); (65335, 65367);
  (65336, 65368); (65337, 65369); (65338, 65370); (66560, 66600); (66561,
  66601); (66562, 66602); (66563, 66603); (66564, 66604); (66565, 66605);
  (66566, 66606); (66567, 66607); (66568, 66608); (66569, 66609); (66570,
  66610); (66571, 66611); (66572, 66612); (66573, 66613); (66574, 66614);
  (66575, 66615); (66576, 66616); (66577, 66617); (66578, 66618); (66579,
  66619); (66580, 66620); (66581, 66621); (66582, 66622); (66583, 66623);
  (66584, 66624); (66585, 66625); (66586, 66626); (66587, 66627); (66588,
  66628); (66589, 66629); (66590, 66630); (66591, 66631); (66592, 66632);
  (66593, 66633); (66594, 66634); (66595, 66635); (66596, 66636); (66597,
  66637); (66598, 66638); (66599, 66639); (66736, 66776); (66737, 66777);
  (66738, 66778); (66739, 66779); (66740, 66780); (66741, 66781); (66742,
  66782); (66743, 66783); (66744, 66784); (66745, 66785); (66746, 66786);
  (66747, 66787); (66748, 66788); (66749, 66789); (66750, 66790); (66751,
  66791); (66752, 66792); (66753, 66793); (66754, 66794); (66755, 66795);
  (66756, 66796); (66757, 66797); (66758, 66798); (66759, 66799); (66760,
  66800); (66761, 66801); (66762, 66802); (66763, 66803); (66764, 66804);
  (66765, 66805); (66766, 66806); (66767, 66807); (66768, 66808); (66769,
  66809); (66770, 66810); (66771, 66811); (66928, 66967); (66929, 66968);
  (66930, 66969); (66931, 66970); (66932, 66971); (66933, 66972); (66934,
  66973); (66935, 66974); (66936, 66975); (66937, 66976); (66938, 66977);
  (66940, 66979); (66941, 66980); (66942, 66981); (66943, 66982); (66944,
  66983); (66945, 66984); (66946, 66985); (66947, 66986); (66948, 66987);
  (66949, 66988); (66950, 66989); (66951, 66990); (66952, 66991); (66953,
  66992); (66954, 66993); (66956, 66995); (66957, 66996); (66958, 66997);
  (66959, 66998); (66960, 66999); (66961, 67000); (66962, 67001); (66964,
  67003); (66965, 67004); (68736, 68800); (68737, 68801); (68738, 68802);
  (68739, 68803); (68740, 68804); (68741, 68805); (68742, 68806); (68743,
  68807); (68744, 68808); (68745, 68809); (68746, 68810); (68747, 68811);
  (68748, 68812); (68749, 68813); (68750, 68814); (68751, 68815); (68752,
  68816); (68753, 68817); (68754, 68818); (68755, 68819); (68756, 68820);
  (68757, 68821); (68758, 68822); (68759, 68823); (68760, 68824); (68761,
  68825); (68762, 68826); (68763, 68827); (68764, 68828); (68765, 68829);
  (68766, 68830); (68767, 68831); (68768, 68832); (68769, 68833); (68770,
  68834); (68771, 68835); (68772, 68836); (68773, 68837); (68774, 68838);
  (68775, 68839); (68776, 68840); (68777, 68841); (68778, 68842); (68779,
  68843); (68780, 68844); (68781, 68845); (68782, 68846); (68783, 68847);
  (68784, 68848); (68785, 68849); (68786, 68850); (71840, 71872); (71841,
  71873); (71842, 71874); (71843, 71875); (71844, 71876); (71845, 71877);
  (71846, 71878); (71847, 71879); (71848, 71880); (71849, 71881); (71850,
  71882); (71851, 71883); (71852, 71884); (71853, 71885); (71854, 71886);
  (71855, 71887); (71856, 71888); (71857, 71889); (71858, 71890); (71859,
  71891); (71860, 71892); (71861, 71893); (71862, 71894); (71863, 71895);
  (71864, 71896); (71865, 71897); (71866, 71898); (71867, 71899); (71868,
  71900); (71869, 71901); (71870, 71902); (71871, 71903); (93760, 93792);
  (93761, 93793); (93762, 93794); (93763, 93795); (93764, 93796); (93765,
  93797); (93766, 93798); (93767, 93799); (93768, 93800); (93769, 93801);
  (93770, 93802); (93771, 93803); (93772, 93804); (93773, 93805); (93774,
  93806); (93775, 93807); (93776, 93808); (93777, 93809); (93778, 93810);
  (93779, 93811); (93780, 93812); (93781, 93813); (93782, 93814); (93783,
  93815); (93784, 93816); (93785, 93817); (93786, 93818); (93787, 93819);
  (93788, 93820); (93789, 93821); (93790, 93822); (93791, 93823); (125184,
  125218); (125185, 125219); (125186, 125220); (125187, 125221); (125188,
  125222); (125189, 125223); (125190, 125224); (125191, 125225); (125192,
  125226); (125193, 125227); (125194, 125228); (125195, 125229); (125196,
  125230); (125197, 125231); (125198, 125232); (125199, 125233); (125200,
  125234); (125201, 125235); (125202, 125236); (125203, 125237); (125204,
  125238); (125205, 125239); (125206, 125240); (125207, 125241); (125208,
  125242); (125209, 125243); (125210, 125244); (125211, 125245); (125212,
  125246); (125213, 125247); (125214, 125248); (125215, 125249); (125216,
  125250); (125217, 125251)
  ]%N.

(** Case-ignorable code points, as closed ranges. *)
Definition ignorable_ranges : list (N * N) :=
  [
  (39, 39); (46, 46); (58, 58); (94, 94); (96, 96); (168, 168); (173, 173);
  (175, 175); (180, 180); (183, 184); (688, 879); (884, 885); (890, 890);
  (900, 901); (903, 903); (1155, 1161); (1369, 1369); (1375, 1375); (1425,
  1469); (1471, 1471); (1473, 1474); (1476, 1477); (1479, 1479); (1524, 1524);
  (1536, 1541); (1552, 1562); (1564, 1564); (1600, 1600); (1611, 1631); (1648,
  1648); (1750, 1757); (1759, 1768); (1770, 1773); (1807, 1807); (1809, 1809);
  (1840, 1866); (1958, 1968); (2027, 2037); (2042, 2042); (2045, 2045); (2070,
  2093); (2137, 2139); (2184, 2184); (2192, 2193); (2200, 2207); (2249, 2306);
  (2362, 2362); (2364, 2364); (2369, 2376); (2381, 2381); (2385, 2391); (2402,
  2403); (2417, 2417); (2433, 2433); (2492, 2492); (2497, 2500); (2509, 2509);
  (2530, 2531); (2558, 2558); (2561, 2562); (2620, 2620); (2625, 2626); (2631,
  2632); (2635, 2637); (2641, 2641); (2672, 2673); (2677, 2677); (2689, 2690);
  (2748, 2748); (2753, 2757); (2759, 2760); (2765, 2765); (2786, 2787); (2810,
  2815); (2817, 2817); (2876, 2876); (2879, 2879); (2881, 2884); (2893, 2893);
  (2901, 2902); (2914, 2915); (2946, 2946); (3008, 3008); (3021, 3021); (3072,
  3072); (3076, 3076); (3132, 3132); (3134, 3136); (3142, 3144); (3146, 3149);
  (3157, 3158); (3170, 3171); (3201, 3201); (3260, 3260); (3263, 3263); (3270,
  3270); (3276, 3277); (3298, 3299); (3328, 3329); (3387, 3388); (3393, 3396);
  (3405, 3405); (3426, 3427); (3457, 3457); (3530, 3530); (3538, 3540); (3542,
  3542); (3633, 3633); (3636, 3642); (3654, 3662); (3761, 3761); (3764, 3772);
  (3782, 3782); (3784, 3789); (3864, 3865); (3893, 3893); (3895, 3895); (3897,
  3897); (3953, 3966); (3968, 3972); (3974, 3975); (3981, 3991); (3993, 4028);
  (4038, 4038); (4141, 4144); (4146, 4151); (4153, 4154); (4157, 4158); (4184,
  4185); (4190, 4192); (4209, 4212); (4226, 4226); (4229, 4230); (4237, 4237);
  (4253, 4253); (4348, 4348); (4957, 4959); (5906, 5908); (5938, 5939); (5970,
  5971); (6002, 6003); (6068, 6069); (6071, 6077); (6086, 6086); (6089, 6099);
  (6103, 6103); (6109, 6109); (6155, 6159); (6211, 6211); (6277, 6278); (6313,
  6313); (6432, 6434); (6439, 6440); (6450, 6450); (6457, 6459); (6679, 6680);
  (6683, 6683); (6742, 6742); (6744, 6750); (6752, 6752); (6754, 6754); (6757,
  6764); (6771, 6780); (6783, 6783); (6823, 6823); (6832, 6862); (6912, 6915);
  (6964, 6964); (6966, 6970); (6972, 6972); (6978, 6978); (7019, 7027); (7040,
  7041); (7074, 7077); (7080, 7081); (7083, 7085); (7142, 7142); (7144, 7145);
  (7149, 7149); (7151, 7153); (7212, 7219); (7222, 7223); (7288, 7293); (7376,
  7378); (7380, 7392); (7394, 7400); (7405, 7405); (7412, 7412); (7416, 7417);
  (7468, 7530); (7544, 7544); (7579, 7679); (8125, 8125); (8127, 8129); (8141,
  8143); (8157, 8159); (8173, 8175); (8189, 8190); (8203, 8207); (8216, 8217);
  (8228, 8228); (8231, 8231); (8234, 8238); (8288, 8292); (8294, 8303); (8305,
  8305); (8319, 8319); (8336, 8348); (8400, 8432); (11388, 11389); (11503,
  11505); (11631, 11631); (11647, 11647); (11744, 11775); (11823, 11823);
  (12293, 12293); (12330, 12333); (12337, 12341); (12347, 12347); (12441,
  12446); (12540, 12542); (40981, 40981); (42232, 42237); (42508, 42508);
  (42607, 42610); (42612, 42621); (42623, 42623); (42652, 42655); (42736,
  42737); (42752, 42785); (42864, 42864); (42888, 42890); (42994, 42996);
  (43000, 43001); (43010, 43010); (43014, 43014); (43019, 43019); (43045,
  43046); (43052, 43052); (43204, 43205); (43232, 43249); (43263, 43263);
  (43302, 43309); (43335, 43345); (43392, 43394); (43443, 43443); (43446,
  43449); (43452, 43453); (43471, 43471); (43493, 43494); (43561, 43566);
  (43569, 43570); (43573, 43574); (43587, 43587); (43596, 43596); (43632,
  43632); (43644, 43644); (43696, 43696); (43698, 43700); (43703, 43704);
  (43710, 43711); (43713, 43713); (43741, 43741); (43756, 43757); (43763,
  43764); (43766, 43766); (43867, 43871); (43881, 43883); (44005, 44005);
  (44008, 44008); (44013, 44013); (64286, 64286); (64434, 64450); (65024,
  65039); (65043, 65043); (65056, 65071); (65106, 65106); (65109, 65109);
  (65279, 65279); (65287, 65287); (65294, 65294); (65306, 65306); (65342,
  65342); (65344, 65344); (65392, 65392); (65438, 65439); (65507, 65507);
  (65529, 65531); (66045, 66045); (66272, 66272); (66422, 66426); (67456,
  67461); (67463, 67504); (67506, 67514); (68097, 68099); (68101, 68102);
  (68108, 68111); (68152, 68154); (68159, 68159); (68325, 68326); (68900,
  68903); (69291, 69292); (69446, 69456); (69506, 69509); (69633, 69633);
  (69688, 69702); (69744, 69744); (69747, 69748); (69759, 69761); (69811,
  69814); (69817, 69818); (69821, 69821); (69826, 69826); (69837, 69837);
  (69888, 69890); (69927, 69931); (69933, 69940); (70003, 70003); (70016,
  70017); (70070, 70078); (70089, 70092); (70095, 70095); (70191, 70193);
  (70196, 70196); (70198, 70199); (70206, 70206); (70367, 70367); (70371,
  70378); (70400, 70401); (70459, 70460); (70464, 70464); (70502, 70508);
  (70512, 70516); (70712, 70719); (70722, 70724); (70726, 70726); (70750,
  70750); (70835, 70840); (70842, 70842); (70847, 70848); (70850, 70851);
  (71090, 71093); (71100, 71101); (71103, 71104); (71132, 71133); (71219,
  71226); (71229, 71229); (71231, 71232); (71339, 71339); (71341, 71341);
  (71344, 71349); (71351, 71351); (71453, 71455); (71458, 71461); (71463,
  71467); (71727, 71735); (71737, 71738); (71995, 71996); (71998, 71998);
  (72003, 72003); (72148, 72151); (72154, 72155); (72160, 72160); (72193,
  72202); (72243, 72248); (72251, 72254); (72263, 72263); (72273, 72278);
  (72281, 72283); (72330, 72342); (72344, 72345); (72752, 72758); (72760,
  72765); (72767, 72767); (72850, 72871); (72874, 72880); (72882, 72883);
  (72885, 72886); (73009, 73014); (73018, 73018); (73020, 73021); (73023,
  73029); (73031, 73031); (73104, 73105); (73109, 73109); (73111, 73111);
  (73459, 73460); (78896, 78904); (92912, 92916); (92976, 92982); (92992,
  92995); (94031, 94031); (94095, 94111); (94176, 94177); (94179, 94180);
  (110576, 110579); (110581, 110587); (110589, 110590); (113821, 113822);
  (113824, 113827); (118528, 118573); (118576, 118598); (119143, 119145);
  (119155, 119170); (119173, 119179); (119210, 119213); (119362, 119364);
  (121344, 121398); (121403, 121452); (121461, 121461); (121476, 121476);
  (121499, 121503); (121505, 121519); (122880, 122886); (122888, 122904);
  (122907, 122913); (122915, 122916); (122918, 122922); (123184, 123197);
  (123566, 123566); (123628, 123631); (125136, 125142); (125252, 125259);
  (127995, 127999); (917505, 917505); (917536, 917631); (917760, 917999)
  ]%N.

(** Cased code points that are not case-ignorable, as closed ranges. *)
Definition cased_ranges : list (N * N) :=
  [
  (65, 90); (97, 122); (170, 170); (181, 181); (186, 186); (192, 214); (216,
  246); (248, 442); (444, 447); (452, 659); (661, 687); (880, 883); (886,
  887); (891, 893); (895, 895); (902, 902); (904, 906); (908, 908); (910,
  929); (931, 1013); (1015, 1153); (1162, 1327); (1329, 1366); (1376, 1416);
  (4256, 4293); (4295, 4295); (4301, 4301); (4304, 4346); (4349, 4351); (5024,
  5109); (5112, 5117); (7296, 7304); (7312, 7354); (7357, 7359); (7424, 7467);
  (7531, 7543); (7545, 7578); (7680, 7957); (7960, 7965); (7968, 8005); (8008,
  8013); (8016, 8023); (8025, 8025); (8027, 8027); (8029, 8029); (8031, 8061);
  (8064, 8116); (8118, 8124); (8126, 8126); (8130, 8132); (8134, 8140); (8144,
  8147); (8150, 8155); (8160, 8172); (8178, 8180); (8182, 8188); (8450, 8450);
  (8455, 8455); (8458, 8467); (8469, 8469); (8473, 8477); (8484, 8484); (8486,
  8486); (8488, 8488); (8490, 8493); (8495, 8500); (8505, 8505); (8508, 8511);
  (8517, 8521); (8526, 8526); (8544, 8575); (8579, 8580); (9398, 9449);
  (11264, 11387); (11390, 11492); (11499, 11502); (11506, 11507); (11520,
  11557); (11559, 11559); (11565, 11565); (42560, 42605); (42624, 42651);
  (42786, 42863); (42865, 42887); (42891, 42894); (42896, 42954); (42960,
  42961); (42963, 42963); (42965, 42969); (42997, 42998); (43002, 43002);
  (43824, 43866); (43872, 43880); (43888, 43967); (64256, 64262); (64275,
  64279); (65313, 65338); (65345, 65370); (66560, 66639); (66736, 66771);
  (66776, 66811); (66928, 66938); (66940, 66954); (66956, 66962); (66964,
  66965); (66967, 66977); (66979, 66993); (66995, 67001); (67003, 67004);
  (68736, 68786); (68800, 68850); (71840, 71903); (93760, 93823); (119808,
  119892); (119894, 119964); (119966, 119967); (119970, 119970); (119973,
  119974); (119977, 119980); (119982, 119993); (119995, 119995); (119997,
  120003); (120005, 120069); (120071, 120074); (120077, 120084); (120086,
  120092); (120094, 120121); (120123, 120126); (120128, 120132); (120134,
  120134); (120138, 120144); (120146, 120485); (120488, 120512); (120514,
  120538); (120540, 120570); (120572, 120596); (120598, 120628); (120630,
  120654); (120656, 120686); (120688, 120712); (120714, 120744); (120746,
  120770); (120772, 120779); (122624, 122633); (122635, 122654); (125184,
  125251); (127280, 127305); (127312, 127337); (127344, 127369)
  ]%N.

Definition in_ranges (rs : list (N * N)) (c : N) : bool :=
  existsb (fun r => ((fst r <=? c) && (c <=? snd r))%N) rs.

(** [str.isspace] on one character; also [\s]. *)
Definition isspace (c : N) : bool := existsb (N.eqb c) space_points.

(** The class [\w], on which [\b] is defined. *)
Definition isword (c : N) : bool := in_ranges word_ranges c.

Fixpoint assoc (c : N) (t : list (N * N)) : option N :=
  match t with
  | [] => None
  | (a, b) :: t' => if N.eqb c a then Some b else assoc c t'
  end.

(** The simple lower-case mapping. *)
Definition tolower (c : N) : N :=
  match assoc c lower_pairs with
  | Some d => d
  | None => c
  end.

Definition ignorable (c : N) : bool := in_ranges ignorable_ranges c.

Definition cased (c : N) : bool := in_ranges cased_ranges c.

(** [_sre.unicode_iscased] on a character of a pattern; the patterns of the
    source are written in ASCII, where the cased characters are the
    letters. *)
Definition iscased (c : ascii) : bool :=
  ((65 <=? N_of_ascii c) && (N_of_ascii c <=? 90)
   || (97 <=? N_of_ascii c) && (N_of_ascii c <=? 122))%N.

(** The extra cases of [re] for a lower-case letter of ASCII
    ([re._casefix]): the dotless i for [i], the long s for [s]. *)
Definition fixes (lo : N) : list N :=
  if N.eqb lo 105 then [305%N]
  else if N.eqb lo 115 then [383%N]
  else [].

Definition newline : N := 10%N.

Definition capital_sigma : N := 931%N.
Definition small_sigma : N := 963%N.
Definition final_sigma : N := 962%N.
Definition capital_i_dot : N := 304%N.
Definition combining_dot : N := 775%N.

End Char.

Module Str.

(** The final-sigma test of [str.lower]: before the sigma, skipping the
    case-ignorable characters, stands a cased one; after it, skipping them
    again, stands none.  [pre] holds the characters before, nearest
    first. *)
Fixpoint cased_before (pre : str) : bool :=
  match pre with
  | [] => false
  | c :: pre' => if Char.ignorable c then cased_before pre' else Char.cased c
  end.

Fixpoint uncased_after (rest : str) : bool :=
  match rest with
  | [] => true
  | c :: rest' =>
      if Char.ignorable c then uncased_after rest' else negb (Char.cased c)
  end.

(** What [str.lower] puts for one character in its place. *)
Definition lower_piece (pre : str) (c : N) (rest : str) : str :=
  if N.eqb c Char.capital_sigma then
    [if cased_before pre && uncased_after rest
     then Char.final_sigma else Char.small_sigma]
  else if N.eqb c Char.capital_i_dot then [105%N; Char.combining_dot]
  else [Char.tolower c].

Fixpoint lower_from (pre rest : str) : str :=
  match rest with
  | [] => []
  | c :: rest' => lower_piece pre c rest' ++ lower_from (c :: pre) rest'
  end.

(** [s.lower()] *)
Definition lower (s : str) : str := lower_from [] s.

Fixpoint lstrip_of (p : N -> bool) (s : str) : str :=
  match s with
  | c :: s' => if p c then lstrip_of p s' else s
  | [] => []
  end.

Definition rstrip_of (p : N -> bool) (s : str) : str :=
  rev (lstrip_of p (rev s)).

(** [s.rstrip()] *)
Definition rstrip (s : str) : str := rstrip_of Char.isspace s.

(** [s.rstrip(chars)]: every trailing character that occurs in [chars]
    is removed. *)
Definition rstrip_chars (chars s : str) : str :=
  rstrip_of (fun c => existsb (N.eqb c) chars) s.

(** [s.strip()] *)
Definition strip (s : str) : str := rstrip (lstrip_of Char.isspace s).

(** [s.count(c)] for a needle of one character. *)
Fixpoint count (c : N) (s : str) : nat :=
  match s with
  | x :: s' => (if N.eqb x c then 1 else 0) + count c s'
  | [] => 0
  end.

(** [s.startswith(p)] *)
Fixpoint startswith (p s : str) : bool :=
  match p, s with
  | [], _ => true
  | a :: p', x :: s' => N.eqb x a && startswith p' s'
  | _ :: _, [] => false
  end.

(** [c in s] for a needle of one character. *)
Definition contains (c : N) (s : str) : bool :=
  existsb (N.eqb c) s.

(** [s[n:]] *)
Definition slice_from (n : nat) (s : str) : str := skipn n s.

(** [s.split(sep)] for a separator of one character: the pieces between
    the separators, in order; a text without separator is one piece. *)
Fixpoint split (sep : N) (s : str) : list str :=
  match s with
  | [] => [[]]
  | c :: s' =>
      if N.eqb c sep then [] :: split sep s'
      else
        match split sep s' with
        | piece :: pieces => (c :: piece) :: pieces
        | [] => [[c]]
        end
  end.

(** Truth value of a string: it is not empty. *)
Definition truthy (s : str) : bool :=
  match s with [] => false | _ :: _ => true end.

End Str.

(** ** Regular expressions, as far as the source uses them *)

Module Re.

Record flags := { IGNORECASE : bool; DOTALL : bool }.

Definition I := {| IGNORECASE := true; DOTALL := false |}.
Definition I_S := {| IGNORECASE := true; DOTALL := true |}.

(** One-character items. *)
Inductive atom :=
| Lit (c : ascii)   (* a literal character, escaped or not *)
| Dot               (* [.] *)
| Space.            (* [\s] *)

Inductive regex :=
| Eps                       (* the empty pattern *)
| Atom (a : atom)
| Bound                     (* [\b] *)
| Bol                       (* [^] *)
| Seq (r1 r2 : regex)
| Alt (r1 r2 : regex)       (* [r1|r2] *)
| Star (a : atom)           (* [a*], greedy *)
| StarLazy (a : atom)       (* [a*?] *)
| Group (r : regex).        (* [(r)], the capturing group 1 *)

(** A run of literal characters. *)
Fixpoint lits (s : string) : regex :=
  match s with
  | EmptyString => Eps
  | String c s' => Seq (Atom (Lit c)) (lits s')
  end.

(** [r|r1|...|rn] *)
Fixpoint alts (r : regex) (rs : list regex) : regex :=
  match rs with
  | [] => r
  | r' :: rs' => Alt r (alts r' rs')
  end.

(** A literal under [re.IGNORECASE]: a character that is not cased is
    compared as it is; for a cased one the subject's character is put
    through the simple lower-case mapping and looked up among the
    pattern's lower-case letter and its extra cases. *)
Definition lit_ok (ignorecase : bool) (c : ascii) (x : N) : bool :=
  if ignorecase && Char.iscased c then
    let lo := Char.tolower c in
    existsb (N.eqb (Char.tolower x)) (lo :: Char.fixes lo)
  else N.eqb x c.

Definition atom_ok (fl : flags) (a : atom) (x : N) : bool :=
  match a with
  | Lit c => lit_ok (IGNORECASE fl) c x
  | Dot => DOTALL fl || negb (N.eqb x Char.newline)
  | Space => Char.isspace x
  end.

(** A position in the subject: the characters before it, nearest first,
    and the characters from it on. *)
Definition word_before (pre : str) : bool :=
  match pre with x :: _ => Char.isword x | [] => false end.

Definition word_after (rest : str) : bool :=
  match rest with x :: _ => Char.isword x | [] => false end.

(** [\b] holds where exactly one side is a word character. *)
Definition at_boundary (pre rest : str) : bool :=
  xorb (word_before pre) (word_after rest).

(** A match in progress records the text of group 1, if it took part. *)
Definition groups := option str.

Definition cont := str -> str -> groups -> option groups.

Fixpoint star_greedy (fl : flags) (a : atom) (k : cont)
         (pre rest : str) (g : groups) : option groups :=
  match rest with
  | x :: rest' =>
      if atom_ok fl a x then
        match star_greedy fl a k (x :: pre) rest' g with
        | Some m => Some m
        | None => k pre rest g
        end
      else k pre rest g
  | [] => k pre rest g
  end.

Fixpoint star_lazy (fl : flags) (a : atom) (k : cont)
         (pre rest : str) (g : groups) : option groups :=
  match k pre rest g with
  | Some m => Some m
  | None =>
      match rest with
      | x :: rest' =>
          if atom_ok fl a x then star_lazy fl a k (x :: pre) rest' g
          else None
      | [] => None
      end
  end.

(** The characters consumed between two positions of one subject. *)
Definition consumed (pre pre' : str) : str :=
  rev (firstn (List.length pre' - List.length pre) pre').

Fixpoint run (fl : flags) (r : regex) (k : cont)
         (pre rest : str) (g : groups) : option groups :=
  match r with
  | Eps => k pre rest g
  | Atom a =>
      match rest with
      | x :: rest' => if atom_ok fl a x then k (x :: pre) rest' g else None
      | [] => None
      end
  | Bound => if at_boundary pre rest then k pre rest g else None
  | Bol => match pre with [] => k pre rest g | _ :: _ => None end
  | Seq r1 r2 => run fl r1 (run fl r2 k) pre rest g
  | Alt r1 r2 =>
      match run fl r1 k pre rest g with
      | Some m => Some m
      | None => run fl r2 k pre rest g
      end
  | Star a => star_greedy fl a k pre rest g
  | StarLazy a => star_lazy fl a k pre rest g
  | Group r1 =>
      run fl r1 (fun pre' rest' _ => k pre' rest' (Some (consumed pre pre')))
          pre rest g
  end.

Definition accept : cont := fun _ _ g => Some g.

(** [re.match(r, s, fl)]: a match that starts at the first character. *)
Definition rmatch (fl : flags) (r : regex) (s : str) : option groups :=
  run fl r accept [] s None.

Fixpoint search_from (fl : flags) (r : regex) (pre rest : str)
  : option groups :=
  match run fl r accept pre rest None with
  | Some m => Some m
  | None =>
      match rest with
      | x :: rest' => search_from fl r (x :: pre) rest'
      | [] => None
      end
  end.

(** [re.search(r, s, fl)]: the match with the leftmost start. *)
Definition search (fl : flags) (r : regex) (s : str) : option groups :=
  search_from fl r [] s.

(** Truth value of a match object or [None]. *)
Definition found (m : option groups) : bool :=
  match m with Some _ => true | None => false end.

End Re.

(** ** Outcomes of Python calls *)

Inductive exn :=
| ValueError (msg : str)
| AttributeError.

Inductive outcome (A : Type) :=
| Return (a : A)
| Raise (e : exn).

Arguments Return {A} a.
Arguments Raise {A} e.

(** ** app_streamlit_upload_db_ui.py: SQL safety *)

Import Re.

(** The keywords of [FORBIDDEN], as the pattern writes them. *)
Definition FORBIDDEN_KEYWORDS : list string :=
  [ "INSERT"; "UPDATE"; "DELETE"; "ALTER"; "DROP"; "TRUNCATE"; "VACUUM";
    "CREATE"; "GRANT"; "REVOKE"; "COPY" ].

Definition FORBIDDEN_WORDS : list str := map str_of_string FORBIDDEN_KEYWORDS.

(** [\b(INSERT|UPDATE|DELETE|ALTER|DROP|TRUNCATE|VACUUM|CREATE|GRANT|REVOKE|COPY|;|\$\$)\b] *)
Definition FORBIDDEN_RE : regex :=
  Seq Bound
    (Seq (Group (alts (lits "INSERT")
                   [ lits "UPDATE"; lits "DELETE"; lits "ALTER"; lits "DROP";
                     lits "TRUNCATE"; lits "VACUUM"; lits "CREATE";
                     lits "GRANT"; lits "REVOKE"; lits "COPY";
                     lits ";"; lits "$$" ]))
         Bound).

(** [^\s*SELECT\b] *)
Definition SELECT_RE : regex :=
  Seq Bol (Seq (Star Space) (Seq (lits "SELECT") Bound)).

(** [\bLIMIT\b] *)
Definition LIMIT_RE : regex :=
  Seq Bound (Seq (lits "LIMIT") Bound).

(** [```sql\s*(.*?)```] *)
Definition FENCE_RE : regex :=
  Seq (lits "```sql")
    (Seq (Star Space) (Seq (Group (StarLazy Dot)) (lits "```"))).

Definition msg_forbidden : str := "Forbidden keywords detected in SQL".
Definition msg_multiple : str :=
  "Multiple statements detected; only SELECT allowed".
Definition msg_only_select : str := "Only SELECT queries allowed".

Definition enforce_read_only (sql : str) : outcome str :=
  if found (search I FORBIDDEN_RE sql) then
    Raise (ValueError msg_forbidden)
  else if Nat.ltb 1 (Str.count ";"%char sql) then
    Raise (ValueError msg_multiple)
  else if negb (found (rmatch I SELECT_RE sql)) then
    Raise (ValueError msg_only_select)
  else if negb (found (search I LIMIT_RE sql)) then
    Return (Str.rstrip_chars ";" (Str.rstrip sql) ++ (" LIMIT 100" : str))
  else
    Return sql.

Definition extract_sql (text : str) : outcome str :=
  match search I_S FENCE_RE text with
  | Some (Some g1) => Return (Str.strip g1)
  | Some None => Raise AttributeError
  | None => Return (Str.strip text)
  end.

(** ** integration.py: the light guardrail of the SQLite helpers *)

Definition is_select_only (query : str) : bool :=
  let q := Str.lower (Str.strip query) in
  Str.startswith "select" q && negb (Str.contains ";"%char (Str.slice_from 6 q)).

Definition nl : str := [Char.newline].

(** ** The vocabulary of the specification *)

(** Equality up to case, as [str.lower] decides it. *)
Definition ci_eq (w x : str) : Prop := Str.lower x = Str.lower w.

(** [x] is [w] in the case folding of [re.IGNORECASE]: character by
    character, what a literal of the pattern accepts. *)
Definition re_ci (w : string) (x : str) : Prop :=
  Forall2 (fun c y => lit_ok true c y = true) (list_ascii_of_string w) x.

(** No word character stands at the end of [pre]. *)
Definition ends_clean (pre : str) : Prop :=
  forall p c, pre = p ++ [c] -> Char.isword c = false.

(** No word character stands at the head of [post]. *)
Definition starts_clean (post : str) : Prop :=
  forall c q, post = c :: q -> Char.isword c = false.

(** [w] occurs in [s] as a whole word, in any case. *)
Definition whole_word (w s : str) : Prop :=
  exists pre x post,
    s = pre ++ x ++ post /\ ci_eq w x /\ ends_clean pre /\ starts_clean post.

(** [w] occurs in [s] as a whole word, in the case folding of
    [re.IGNORECASE]. *)
Definition re_whole_word (w : string) (s : str) : Prop :=
  exists pre x post,
    s = pre ++ x ++ post /\ re_ci w x /\ ends_clean pre /\ starts_clean post.

(** [sep] occurs in [s] glued between two word characters. *)
Definition glued (sep s : str) : Prop :=
  exists pre a b post,
    s = pre ++ [a] ++ sep ++ [b] ++ post
    /\ Char.isword a = true /\ Char.isword b = true.

Definition all_space (ws : str) : Prop :=
  Forall (fun c => Char.isspace c = true) ws.

(** [s] begins, after leading whitespace, with the word SELECT. *)
Definition begins_with_select (s : str) : Prop :=
  exists ws x rest,
    s = ws ++ x ++ rest /\ all_space ws /\ ci_eq "SELECT" x
    /\ starts_clean rest.

(** The same, in the case folding of [re.IGNORECASE]. *)
Definition re_begins_with_select (s : str) : Prop :=
  exists ws x rest,
    s = ws ++ x ++ rest /\ all_space ws /\ re_ci "SELECT" x
    /\ starts_clean rest.

(** The text with one trailing [;] taken off, if there is one. *)
Definition chop_terminator (s : str) : str :=
  match rev s with
  | c :: r => if N.eqb c ";"%char then rev r else s
  | [] => s
  end.

(** [s] starts with the six characters of the opening mark [```sql], in
    any case [re.IGNORECASE] takes, whatever follows them, and a closing
    mark [```] comes later: what [FENCE_RE] matches at the head of [s]. *)
Definition marks_at (s : str) : Prop :=
  exists tag body post,
    s = tag ++ body ++ ("```" : str) ++ post /\ re_ci "```sql" tag.

Definition has_marks (text : str) : Prop :=
  exists pre s, text = pre ++ s /\ marks_at s.

(** The closing mark is the nearest one: no [```] starts at a character
    of [body]. *)
Definition nearest_close (body post : str) : Prop :=
  forall a b, body = a ++ b -> b <> [] ->
    Str.startswith "```" (b ++ ("```" : str) ++ post) = false.

(** [pre ++ tag ++ body ++ "```" ++ post] cuts [text] at its first pair of
    marks: no opening mark with a closing one after it starts inside
    [pre], and the closing mark is the first one after the tag. *)
Definition first_marks (text pre tag body post : str) : Prop :=
  text = pre ++ tag ++ body ++ ("```" : str) ++ post
  /\ re_ci "```sql" tag
  /\ (forall a b, pre = a ++ b -> b <> [] ->
        ~ marks_at (b ++ tag ++ body ++ ("```" : str) ++ post))
  /\ nearest_close body post.

(** What a regular expression can consume between two positions of the
    subject, without the priorities of the matcher. *)
Fixpoint den (fl : flags) (r : regex) (pre rest pre' rest' : str) : Prop :=
  match r with
  | Eps => pre' = pre /\ rest' = rest
  | Atom a =>
      exists x, rest = x :: rest' /\ pre' = x :: pre /\ atom_ok fl a x = true
  | Bound => at_boundary pre rest = true /\ pre' = pre /\ rest' = rest
  | Bol => pre = [] /\ pre' = pre /\ rest' = rest
  | Seq r1 r2 =>
      exists pm rm, den fl r1 pre rest pm rm /\ den fl r2 pm rm pre' rest'
  | Alt r1 r2 => den fl r1 pre rest pre' rest' \/ den fl r2 pre rest pre' rest'
  | Star a | StarLazy a =>
      exists xs,
        forallb (atom_ok fl a) xs = true /\ rest = xs ++ rest'
        /\ pre' = rev xs ++ pre
  | Group r1 => den fl r1 pre rest pre' rest'
  end.

(** The alternatives of [FORBIDDEN_RE]. *)
Definition FORBIDDEN_ALTS : list string :=
  FORBIDDEN_KEYWORDS ++ [ ";"; "$$" ].

(** Some alternative of [ws] stands in [s] between two [\b]. *)
Definition hit (ws : list string) (s : str) : Prop :=
  exists a x b w,
    s = a ++ x ++ b /\ In w ws /\ re_ci w x
    /\ at_boundary (rev a) (x ++ b) = true
    /\ at_boundary (rev x ++ rev a) b = true.

(** [s] starts with [w], in the case folding of [re.IGNORECASE]. *)
Fixpoint ci_prefixb (w : string) (s : str) : bool :=
  match w, s with
  | EmptyString, _ => true
  | String c w', y :: s' => lit_ok true c y && ci_prefixb w' s'
  | String _ _, [] => false
  end.

(** [w] occurs somewhere in [s], in that folding. *)
Fixpoint occurs_ci (w : string) (s : str) : bool :=
  ci_prefixb w s
  || match s with [] => false | _ :: s' => occurs_ci w s' end.

(** An alternative that the appended row limit cannot complete: it is not
    empty, accepts no blank and does not occur in the appended text. *)
Definition clear_of_limit (w : string) : bool :=
  match w with EmptyString => false | String _ _ => true end
  && negb (occurs_ci w " LIMIT 100")
  && forallb (fun c => negb (lit_ok true c " "%char))
       (list_ascii_of_string w).

(** Texts that begin and end with a word character. *)
Definition wordy (w : str) : Prop :=
  word_after w = true /\ word_before (rev w) = true.

(** Patterns that begin and end with a letter. *)
Definition wordy_pattern (w : string) : bool :=
  match list_ascii_of_string w with
  | [] => false
  | c :: _ => Char.iscased c
  end
  && match rev (list_ascii_of_string w) with
     | [] => false
     | c :: _ => Char.iscased c
     end.

(** [\bw\b] *)
Definition word_re (w : string) : regex := Seq Bound (Seq (lits w) Bound).

(** No closing mark starts at a character of [body]; decides
    [nearest_close]. *)
Fixpoint no_close_in (body post : str) : bool :=
  match body with
  | [] => true
  | _ :: body' =>
      negb (Str.startswith "```" (body ++ ("```" : str) ++ post))
      && no_close_in body' post
  end.

(** No pair of marks starts at a character of [pre]. *)
Fixpoint no_marks_in (pre rest : str) : bool :=
  match pre with
  | [] => true
  | _ :: pre' =>
      negb (found (run I_S FENCE_RE accept [] (pre ++ rest) None))
      && no_marks_in pre' rest
  end.

(** [(.*?)```], the part of [FENCE_RE] after the leading whitespace. *)
Definition CLOSE_RE : regex := Seq (Group (StarLazy Dot)) (lits "```").

(** The model output [```sql\nSELECT 1\n```]. *)
Definition fenced_select_1 : str :=
  ("```sql" : str) ++ nl ++ ("SELECT 1" : str) ++ nl ++ ("```" : str).

(** *** Deciding the vocabulary of [str.lower] *)

(** The lower-case form of a character that [str.lower] maps to one
    character whatever stands around it. *)
Definition plain_lower (c : N) : option N :=
  if N.eqb c Char.capital_sigma || N.eqb c Char.capital_i_dot then None
  else Some (Char.tolower c).

(** [s] starts with characters whose lower-case forms spell [l]. *)
Fixpoint lower_prefixb (l s : str) : bool :=
  match l, s with
  | [], _ => true
  | a :: l', c :: s' =>
      match plain_lower c with
      | Some d => N.eqb d a && lower_prefixb l' s'
      | None => false
      end
  | _ :: _, [] => false
  end.

(** Some occurrence of the lower-case spelling [l] stands as a whole
    word. *)
Fixpoint scan_word (l pre rest : str) : bool :=
  negb (word_before pre) && lower_prefixb l rest
  && negb (word_after (skipn (List.length l) rest))
  || match rest with
     | [] => false
     | c :: rest' => scan_word l (c :: pre) rest'
     end.

Definition whole_wordb (w s : str) : bool := scan_word (Str.lower w) [] s.

Definition begins_with_selectb (s : str) : bool :=
  let t := Str.lstrip_of Char.isspace s in
  lower_prefixb "select" t && negb (word_after (skipn 6 t)).

(** *** Identifiers of SQLite *)

(** The characters of an identifier of SQLite after its first one: the
    word characters and [$]. *)
Definition ident_char (c : N) : bool := Char.isword c || N.eqb c "$"%char.

Definition ident_before (pre : str) : bool :=
  match pre with c :: _ => ident_char c | [] => false end.

Definition ident_after (rest : str) : bool :=
  match rest with c :: _ => ident_char c | [] => false end.

(** Some occurrence of the lower-case spelling [l] stands on its own, with
    no character of an identifier right before or right after it. *)
Fixpoint scan_standalone (l pre rest : str) : bool :=
  negb (ident_before pre) && lower_prefixb l rest
  && negb (ident_after (skipn (List.length l) rest))
  || match rest with
     | [] => false
     | c :: rest' => scan_standalone l (c :: pre) rest'
     end.

(** [w] occurs in [s], in any case, elsewhere than inside a longer
    identifier. *)
Definition standalone_keyword (w s : str) : bool :=
  scan_standalone (Str.lower w) [] s.

(** The identifier [create$date]. *)
Definition dollar_identifier : str := "create$date".

(** [SELECT create$date FROM events] *)
Definition select_dollar_identifier : str :=
  ("SELECT " : str) ++ dollar_identifier ++ (" FROM events" : str).

(** *** The claim on extraction, in its own words *)

(** The text up to the first closing fence. *)
Fixpoint until_fence (s : str) : option str :=
  if Str.startswith "```" s then Some []
  else
    match s with
    | [] => None
    | c :: s' =>
        match until_fence s' with
        | Some body => Some (c :: body)
        | None => None
        end
    end.

(** A fenced code block tagged as SQL at the head of [s]: the fence, the
    tag [sql] in upper or lower case, the end of the tag (a whitespace
    character), the interior, and the closing fence. *)
Definition tagged_block_at (s : str) : option str :=
  if Str.startswith "```" s
     && lower_prefixb "sql" (skipn 3 s)
     && match skipn 6 s with c :: _ => Char.isspace c | [] => false end
  then until_fence (skipn 6 s)
  else None.

Fixpoint first_tagged_block (s : str) : option str :=
  match tagged_block_at s with
  | Some body => Some body
  | None =>
      match s with
      | [] => None
      | _ :: s' => first_tagged_block s'
      end
  end.

(** Extraction as the claim words it: the trimmed interior of a fenced
    block tagged as SQL if the text holds one, else the trimmed text. *)
Definition extract_as_claimed (text : str) : str :=
  match first_tagged_block text with
  | Some body => Str.strip body
  | None => Str.strip text
  end.

(** ** The callers of the gate and the other helpers *)

Definition bind {A B : Type} (m : outcome A) (f : A -> outcome B) : outcome B :=
  match m with
  | Return a => f a
  | Raise e => Raise e
  end.

(** [str(n)], the text an f-string puts for an [int]. *)
Definition str_of_int (n : Z) : str :=
  str_of_string (NilZero.string_of_int (Z.to_int n)).

Definition dq : str := [34%N].

Definition DEFAULT_MODEL : str := "command-xlarge".

Definition SYSTEM_RULES : str :=
  nl
  ++ ("You are a senior data analyst that writes safe, syntactically-correct SQLite SELECT queries." : str) ++ nl
  ++ ("- Use only SELECT queries." : str) ++ nl
  ++ ("- Do not use multiple statements; return exactly one SQL statement." : str) ++ nl
  ++ ("- Prefer correct table and column names based on the schema provided." : str) ++ nl
  ++ ("- If aggregation is requested, include GROUP BY as needed." : str) ++ nl
  ++ ("- Output SQL only, no prose." : str) ++ nl.

Section Cohere.

(** [co.generate(model=, prompt=, max_tokens=, temperature=)] followed by
    [.generations[0].text]: the reply of the language model, which the
    application does not control. *)
Variable co_generate : str -> str -> nat -> Decimal.decimal -> str.

Definition sql_prompt (question schema_text : str) : str :=
  SYSTEM_RULES ++ nl ++ nl ++ ("Schema:" : str) ++ nl ++ schema_text
  ++ nl ++ nl ++ ("User question:" : str) ++ nl
  ++ dq ++ dq ++ dq ++ question ++ dq ++ dq ++ dq ++ nl
  ++ ("Return only SQL." : str).

Definition generate_sql_cohere (question schema_text : str) : outcome str :=
  let response_text :=
    co_generate DEFAULT_MODEL (sql_prompt question schema_text) 300
      (Decimal.Decimal (Decimal.Pos (Decimal.D0 Decimal.Nil))
                       (Decimal.D2 Decimal.Nil)) in
  extract_sql response_text.

Definition suggest_prompt (schema_text : str) : str :=
  ("You are a helpful data analyst. Based on the following database schema, suggest 3 useful SELECT queries a user might want to run:" : str)
  ++ nl ++ ("Schema:" : str) ++ nl ++ schema_text ++ nl
  ++ ("Return only SQL queries without explanations." : str).

Definition suggest_queries (schema_text : str) : list str :=
  let response_text :=
    co_generate DEFAULT_MODEL (suggest_prompt schema_text) 200
      (Decimal.Decimal (Decimal.Pos (Decimal.D0 Decimal.Nil))
                       (Decimal.D3 Decimal.Nil)) in
  let suggested := Str.split Char.newline (Str.strip response_text) in
  filter (fun q => Str.truthy (Str.strip q)) suggested.

(** The Ask Questions page, up to the call of the executor:
    [sql = generate_sql_cohere(question, schema_text)] and then
    [sql = enforce_read_only(sql)]; what it returns goes to
    [pd.read_sql]. *)
Definition checked_sql (question schema_text : str) : outcome str :=
  bind (generate_sql_cohere question schema_text) enforce_read_only.

End Cohere.

Section Sqlite_helpers.

Variables Conn Row Param : Type.

(** [fetch_all(conn, sql, params)] runs on the database. *)
Variable fetch_all : Conn -> str -> list Param -> list Row.

(** The statement of [sample_rows]: [f"SELECT * FROM {table} LIMIT {limit};"] *)
Definition sample_rows_sql (table : str) (limit : Z) : str :=
  ("SELECT * FROM " : str) ++ table ++ (" LIMIT " : str)
  ++ str_of_int limit ++ (";" : str).

Definition sample_rows (c : Conn) (table : str) (limit : Z) : list Row :=
  fetch_all c (sample_rows_sql table limit) [].

End Sqlite_helpers.

(** The condition of the forbidden-keyword refusal. *)
Definition forbidden_rule (sql : str) : Prop :=
  (exists w, In w FORBIDDEN_KEYWORDS /\ re_whole_word w sql)
  \/ glued ";" sql \/ glued "$$" sql.

(** No whitespace at either end. *)
Definition trimmed (s : str) : Prop :=
  (forall c r, s = c :: r -> Char.isspace c = false)
  /\ (forall r c, s = r ++ [c] -> Char.isspace c = false).

(** Not empty and not made of whitespace only. *)
Definition not_blank (s : str) : Prop :=
  exists c, In c s /\ Char.isspace c = false.

(** *** Texts with look-alike letters *)

(** [SELECT 1 lımıt], with the dotless i (U+0131). *)
Definition select_1_dotless_limit : str :=
  ("SELECT 1 l" : str) ++ [305%N] ++ ("m" : str) ++ [305%N] ++ ("t" : str).

(** [SELECT 1 LİMİT], with the dotted capital I (U+0130). *)
Definition select_1_dotted_limit : str :=
  ("SELECT 1 L" : str) ++ [304%N] ++ ("M" : str) ++ [304%N] ++ ("T" : str).

(** [ſelect 1], with the long s (U+017F). *)
Definition long_s_select_1 : str := [383%N] ++ ("elect 1" : str).

(** [```sqlite\nSELECT 1\n```] *)
Definition fenced_sqlite : str :=
  ("```sqlite" : str) ++ nl ++ ("SELECT 1" : str) ++ nl ++ ("```" : str).

(** The lower-case letters a literal of a pattern can look for. *)
Definition letter_targets : list N :=
  [97; 98; 99; 100; 101; 102; 103; 104; 105; 106; 107; 108; 109; 110; 111;
   112; 113; 114; 115; 116; 117; 118; 119; 120; 121; 122; 305; 383]%N.

Unset Implicit Arguments.

(** ** Characters *)

Lemma assoc_in c t d : Char.assoc c t = Some d -> In (c, d) t.
Proof.
  induction t as [|[a b] t IH]; simpl; [discriminate|].
  destruct (N.eqb c a) eqn:E.
  - apply N.eqb_eq in E. intros [= <-]. left. now subst.
  - auto.
Qed.

(** A character is left alone by the lower-case mapping or stands in its
    table. *)
Lemma tolower_cases c :
  Char.tolower c = c \/ In (c, Char.tolower c) Char.lower_pairs.
Proof.
  unfold Char.tolower. destruct (Char.assoc c Char.lower_pairs) eqn:E; auto.
  right. now apply assoc_in.
Qed.

Lemma isspace_in c : Char.isspace c = true <-> In c Char.space_points.
Proof.
  unfold Char.isspace. rewrite existsb_exists. split.
  - intros (x & Hin & E). apply N.eqb_eq in E. now subst.
  - intros H. exists c. split; auto. apply N.eqb_refl.
Qed.

Lemma space_table_facts :
  forallb (fun c => negb (Char.isword c) && negb (Char.ignorable c)
                    && negb (Char.cased c)
                    && N.eqb (Char.tolower c) c
                    && negb (N.eqb c Char.capital_sigma)
                    && negb (N.eqb c Char.capital_i_dot)
                    && negb (N.eqb c ";"%char) && negb (N.eqb c 96))
    Char.space_points = true.
Proof. vm_compute. reflexivity. Qed.

Lemma space_facts c :
  Char.isspace c = true ->
  Char.isword c = false /\ Char.ignorable c = false /\ Char.cased c = false
  /\ Char.tolower c = c /\ c <> Char.capital_sigma
  /\ c <> Char.capital_i_dot /\ c <> ";"%char /\ c <> 96%N.
Proof.
  intros H. apply isspace_in in H.
  pose proof space_table_facts as T. rewrite forallb_forall in T.
  specialize (T c H).
  apply andb_true_iff in T as [T H8]. apply andb_true_iff in T as [T H7].
  apply andb_true_iff in T as [T H6]. apply andb_true_iff in T as [T H5].
  apply andb_true_iff in T as [T H4]. apply andb_true_iff in T as [T H3].
  apply andb_true_iff in T as [H1 H2].
  apply negb_true_iff in H1, H2, H3, H5, H6, H7, H8.
  apply N.eqb_eq in H4. apply N.eqb_neq in H5, H6, H7, H8.
  repeat split; assumption.
Qed.

Lemma space_not_word c : Char.isspace c = true -> Char.isword c = false.
Proof. intros H. now apply space_facts in H. Qed.

Ltac all_ascii c :=
  destruct c as [[] [] [] [] [] [] [] []]; vm_compute; try reflexivity;
  try discriminate; auto.

Lemma cased_targets c :
  Char.iscased c = true ->
  forallb (fun d => existsb (N.eqb d) letter_targets)
    (Char.tolower c :: Char.fixes (Char.tolower c)) = true.
Proof. all_ascii c. Qed.

Lemma targets_word_table :
  forallb Char.isword letter_targets
  && forallb (fun p => if existsb (N.eqb (snd p)) letter_targets
                       then Char.isword (fst p) else true)
       Char.lower_pairs = true.
Proof. vm_compute. reflexivity. Qed.

Lemma target_word y :
  In (Char.tolower y) letter_targets -> Char.isword y = true.
Proof.
  intros H. pose proof targets_word_table as T.
  apply andb_true_iff in T as [T1 T2]. rewrite forallb_forall in T1, T2.
  destruct (tolower_cases y) as [E|E].
  - rewrite E in H. now apply T1.
  - specialize (T2 _ E). cbn [fst snd] in T2.
    assert (X : existsb (N.eqb (Char.tolower y)) letter_targets = true).
    { apply existsb_exists. exists (Char.tolower y). split; auto.
      apply N.eqb_refl. }
    now rewrite X in T2.
Qed.

(** What a letter of a pattern accepts under [re.IGNORECASE] is a word
    character. *)
Lemma lit_ok_word c y :
  Char.iscased c = true -> lit_ok true c y = true -> Char.isword y = true.
Proof.
  intros Hc H. unfold lit_ok in H. rewrite Hc in H. simpl andb in H.
  cbv zeta in H. apply existsb_exists in H as (d & Hin & E).
  apply N.eqb_eq in E. apply target_word. rewrite E.
  pose proof (cased_targets c Hc) as T. rewrite forallb_forall in T.
  specialize (T d Hin). apply existsb_exists in T as (t & Ht & Et).
  apply N.eqb_eq in Et. now subst.
Qed.

(** A character that is not a letter is compared as it is. *)
Lemma lit_ok_plain c y :
  Char.iscased c = false -> lit_ok true c y = N.eqb y c.
Proof. intros H. unfold lit_ok. now rewrite H. Qed.

(** A letter accepts every character that the lower-case mapping sends to
    its own lower-case form. *)
Lemma lit_ok_tolower c y :
  Char.iscased c = true -> Char.tolower y = Char.tolower c ->
  lit_ok true c y = true.
Proof.
  intros Hc E. unfold lit_ok. rewrite Hc. simpl andb. cbv zeta.
  apply existsb_exists. exists (Char.tolower c). split; [now left|].
  rewrite E. apply N.eqb_refl.
Qed.

(** ** Lists of characters *)

Lemma app_eq_app_split (A : Type) (a b c d : list A) :
  a ++ b = c ++ d ->
  exists l, (a = c ++ l /\ d = l ++ b) \/ (c = a ++ l /\ b = l ++ d).
Proof.
  revert c; induction a as [|x a IH]; intros c H; simpl in *.
  - exists c; right; auto.
  - destruct c as [|y c]; simpl in *.
    + exists (x :: a); left; auto.
    + injection H as -> H. destruct (IH _ H) as [l [[-> ->]|[-> ->]]];
        exists l; [left|right]; auto.
Qed.

Lemma ends_clean_iff pre : ends_clean pre <-> word_before (rev pre) = false.
Proof.
  unfold ends_clean; split.
  - intros H. destruct (rev pre) as [|c r] eqn:E; [reflexivity|]; simpl.
    apply (H (rev r)). rewrite <- (rev_involutive pre), E. reflexivity.
  - intros H p c ->. rewrite rev_app_distr in H. exact H.
Qed.

Lemma starts_clean_iff post : starts_clean post <-> word_after post = false.
Proof.
  unfold starts_clean; split.
  - intros H. destruct post as [|c q]; [reflexivity|]. apply (H c q eq_refl).
  - intros H c q ->. exact H.
Qed.

(** ** The matcher against the denotation *)

Module ReFacts.

Lemma star_greedy_sound fl a k pre rest g m :
  star_greedy fl a k pre rest g = Some m ->
  exists xs rest',
    forallb (atom_ok fl a) xs = true /\ rest = xs ++ rest'
    /\ k (rev xs ++ pre) rest' g = Some m.
Proof.
  revert pre; induction rest as [|x rest IH]; intros pre H; simpl in H.
  - exists [], []; auto.
  - destruct (atom_ok fl a x) eqn:Hx.
    + destruct (star_greedy fl a k (x :: pre) rest g) eqn:Hr.
      * injection H as ->. destruct (IH _ Hr) as (xs & rest' & Hxs & -> & Hk).
        exists (x :: xs), rest'; simpl. rewrite Hx, Hxs, <- app_assoc.
        auto.
      * exists [], (x :: rest); auto.
    + exists [], (x :: rest); auto.
Qed.

Lemma star_lazy_sound fl a k pre rest g m :
  star_lazy fl a k pre rest g = Some m ->
  exists xs rest',
    forallb (atom_ok fl a) xs = true /\ rest = xs ++ rest'
    /\ k (rev xs ++ pre) rest' g = Some m.
Proof.
  revert pre; induction rest as [|x rest IH]; intros pre H; simpl in H.
  - destruct (k pre [] g) eqn:Hk; [|discriminate].
    exists [], []; simpl; rewrite Hk; auto.
  - destruct (k pre (x :: rest) g) eqn:Hk.
    + exists [], (x :: rest); simpl; rewrite Hk; auto.
    + destruct (atom_ok fl a x) eqn:Hx; [|discriminate].
      destruct (IH _ H) as (xs & rest' & Hxs & -> & Hk').
      exists (x :: xs), rest'; simpl. rewrite Hx, Hxs, <- app_assoc. auto.
Qed.

Lemma run_sound fl r : forall k pre rest g m,
  run fl r k pre rest g = Some m ->
  exists pre' rest' g',
    den fl r pre rest pre' rest' /\ k pre' rest' g' = Some m.
Proof.
  induction r as [| a | | | r1 IH1 r2 IH2 | r1 IH1 r2 IH2 | a | a | r1 IH1];
    intros k pre rest g m H; simpl in H.
  - exists pre, rest, g; simpl; auto.
  - destruct rest as [|x rest]; [discriminate|].
    destruct (atom_ok fl a x) eqn:Hx; [|discriminate].
    exists (x :: pre), rest, g; simpl; eauto.
  - destruct (at_boundary pre rest) eqn:Hb; [|discriminate].
    exists pre, rest, g; simpl; auto.
  - destruct pre; [|discriminate]. exists [], rest, g; simpl; auto.
  - destruct (IH1 _ _ _ _ _ H) as (pm & rm & gm & D1 & H2).
    destruct (IH2 _ _ _ _ _ H2) as (pe & re & ge & D2 & Hk).
    exists pe, re, ge; simpl; eauto.
  - destruct (run fl r1 k pre rest g) eqn:H1.
    + injection H as ->. destruct (IH1 _ _ _ _ _ H1) as (pe & re & ge & D & Hk).
      exists pe, re, ge; simpl; auto.
    + destruct (IH2 _ _ _ _ _ H) as (pe & re & ge & D & Hk).
      exists pe, re, ge; simpl; auto.
  - destruct (star_greedy_sound _ _ _ _ _ _ _ H) as (xs & rest' & Hxs & -> & Hk).
    exists (rev xs ++ pre), rest', g; simpl; eauto.
  - destruct (star_lazy_sound _ _ _ _ _ _ _ H) as (xs & rest' & Hxs & -> & Hk).
    exists (rev xs ++ pre), rest', g; simpl; eauto.
  - destruct (IH1 _ _ _ _ _ H) as (pe & re & ge & D & Hk).
    exists pe, re, (Some (consumed pre pe)); simpl; auto.
Qed.

Lemma star_greedy_complete fl a (k : cont) xs : forall pre rest' g,
  forallb (atom_ok fl a) xs = true ->
  (forall g', k (rev xs ++ pre) rest' g' <> None) ->
  star_greedy fl a k pre (xs ++ rest') g <> None.
Proof.
  induction xs as [|x xs IH]; intros pre rest' g Hxs Hk; simpl in *.
  - destruct rest' as [|y rest']; simpl; [apply Hk|].
    destruct (atom_ok fl a y); [|apply Hk].
    destruct (star_greedy fl a k (y :: pre) rest' g); [discriminate|apply Hk].
  - apply andb_true_iff in Hxs as [Hx Hxs]. rewrite Hx.
    specialize (IH (x :: pre) rest' g Hxs).
    rewrite <- app_assoc in Hk. specialize (IH Hk).
    destruct (star_greedy fl a k (x :: pre) (xs ++ rest') g);
      [discriminate|contradiction].
Qed.

Lemma star_lazy_complete fl a (k : cont) xs : forall pre rest' g,
  forallb (atom_ok fl a) xs = true ->
  (forall g', k (rev xs ++ pre) rest' g' <> None) ->
  star_lazy fl a k pre (xs ++ rest') g <> None.
Proof.
  induction xs as [|x xs IH]; intros pre rest' g Hxs Hk; simpl in *.
  - specialize (Hk g). destruct rest'; simpl;
      destruct (k pre _ g); try discriminate; contradiction.
  - apply andb_true_iff in Hxs as [Hx Hxs]. rewrite Hx.
    destruct (k pre (x :: xs ++ rest') g); [discriminate|].
    apply IH; auto. intros g'. rewrite <- app_assoc in Hk. apply Hk.
Qed.

Lemma run_complete fl r : forall (k : cont) pre rest pre' rest',
  den fl r pre rest pre' rest' ->
  (forall g', k pre' rest' g' <> None) ->
  forall g, run fl r k pre rest g <> None.
Proof.
  induction r as [| a | | | r1 IH1 r2 IH2 | r1 IH1 r2 IH2 | a | a | r1 IH1];
    intros k pre rest pre' rest' D Hk g; simpl in *.
  - destruct D as [-> ->]. apply Hk.
  - destruct D as (x & -> & -> & Hx). rewrite Hx. apply Hk.
  - destruct D as (Hb & -> & ->). rewrite Hb. apply Hk.
  - destruct D as (-> & -> & ->). apply Hk.
  - destruct D as (pm & rm & D1 & D2).
    apply (IH1 _ _ _ _ _ D1). intros g'. apply (IH2 _ _ _ _ _ D2 Hk).
  - destruct D as [D|D].
    + specialize (IH1 _ _ _ _ _ D Hk g).
      destruct (run fl r1 k pre rest g); [discriminate|contradiction].
    + destruct (run fl r1 k pre rest g); [discriminate|].
      apply (IH2 _ _ _ _ _ D Hk).
  - destruct D as (xs & Hxs & -> & ->). now apply star_greedy_complete.
  - destruct D as (xs & Hxs & -> & ->). now apply star_lazy_complete.
  - apply (IH1 _ _ _ _ _ D). intros _. apply Hk.
Qed.

Lemma accept_total pre rest g : accept pre rest g <> None.
Proof. discriminate. Qed.

(** [re.match] succeeds exactly when the pattern can consume a prefix. *)
Lemma rmatch_found fl r s :
  found (rmatch fl r s) = true <-> exists pre' rest', den fl r [] s pre' rest'.
Proof.
  unfold rmatch; split.
  - destruct (run fl r accept [] s None) eqn:H; [|discriminate]. intros _.
    destruct (run_sound _ _ _ _ _ _ _ H) as (p & q & _ & D & _). eauto.
  - intros (p & q & D).
    pose proof (run_complete _ _ accept _ _ _ _ D (accept_total p q) None) as H.
    destruct (run fl r accept [] s None); [reflexivity|contradiction].
Qed.

Lemma search_from_found fl r : forall rest pre,
  found (search_from fl r pre rest) = true <->
  exists a b pre' rest',
    rest = a ++ b /\ den fl r (rev a ++ pre) b pre' rest'.
Proof.
  induction rest as [|x rest IH]; intros pre; simpl.
  - destruct (run fl r accept pre [] None) eqn:H; simpl; split.
    + intros _. destruct (run_sound _ _ _ _ _ _ _ H) as (p & q & _ & D & _).
      exists [], [], p, q; auto.
    + reflexivity.
    + discriminate.
    + intros (a & b & p & q & E & D).
      symmetry in E; apply app_eq_nil in E as [-> ->]. simpl in D.
      pose proof (run_complete _ _ accept _ _ _ _ D (accept_total p q) None).
      congruence.
  - destruct (run fl r accept pre (x :: rest) None) eqn:H; simpl; split.
    + intros _. destruct (run_sound _ _ _ _ _ _ _ H) as (p & q & _ & D & _).
      exists [], (x :: rest), p, q; auto.
    + reflexivity.
    + intros Hf. apply IH in Hf as (a & b & p & q & -> & D).
      exists (x :: a), b, p, q; simpl. rewrite <- app_assoc. auto.
    + intros (a & b & p & q & E & D). destruct a as [|y a]; simpl in *.
      * subst b.
        pose proof (run_complete _ _ accept _ _ _ _ D (accept_total p q) None).
        congruence.
      * injection E as -> ->. apply IH. exists a, b, p, q.
        rewrite <- app_assoc in D. auto.
Qed.

(** [re.search] succeeds exactly when the pattern can consume some
    factor of the subject. *)
Lemma search_found fl r s :
  found (search fl r s) = true <->
  exists a b pre' rest', s = a ++ b /\ den fl r (rev a) b pre' rest'.
Proof.
  unfold search. rewrite search_from_found.
  split; intros (a & b & p & q & E & D); exists a, b, p, q; split; auto;
    now rewrite ?app_nil_r in *.
Qed.

End ReFacts.


(** ** What the patterns of the source accept *)

Lemma re_ci_nil x : re_ci "" x <-> x = [].
Proof.
  unfold re_ci; simpl. split; [intros H; now inversion H|intros ->; constructor].
Qed.

Lemma re_ci_cons c w y x :
  re_ci (String c w) (y :: x) <-> lit_ok true c y = true /\ re_ci w x.
Proof.
  unfold re_ci; simpl. split.
  - intros H. inversion H; subst. auto.
  - intros [H1 H2]. now constructor.
Qed.

Lemma re_ci_cons_inv c w x :
  re_ci (String c w) x ->
  exists y x', x = y :: x' /\ lit_ok true c y = true /\ re_ci w x'.
Proof.
  unfold re_ci; simpl. intros H. inversion H; subst. eauto.
Qed.

Lemma re_ci_length w x : re_ci w x -> List.length x = String.length w.
Proof.
  revert x; induction w as [|c w IH]; intros x H.
  - apply re_ci_nil in H. now subst.
  - apply re_ci_cons_inv in H as (y & x' & -> & _ & H). simpl. f_equal. auto.
Qed.

Lemma den_lits fl w : IGNORECASE fl = true -> forall pre rest pre' rest',
  den fl (lits w) pre rest pre' rest' <->
  exists x, rest = x ++ rest' /\ pre' = rev x ++ pre /\ re_ci w x.
Proof.
  intros Hfl.
  induction w as [|c w IH]; intros pre rest pre' rest'; simpl.
  - split.
    + intros [-> ->]. exists []. repeat split. now apply re_ci_nil.
    + intros (x & -> & -> & E). apply re_ci_nil in E. now subst.
  - rewrite Hfl. split.
    + intros (pm & rm & (y & -> & -> & Hy) & D).
      apply IH in D as (x & -> & -> & E).
      exists (y :: x); simpl. rewrite <- app_assoc. repeat split.
      now apply re_ci_cons.
    + intros (x & -> & -> & E).
      apply re_ci_cons_inv in E as (y & x' & -> & Hy & E).
      exists (y :: pre), (x' ++ rest'). split.
      * exists y. auto.
      * apply IH. exists x'. simpl. rewrite <- app_assoc. auto.
Qed.

Lemma den_alts fl rs : forall r pre rest pre' rest',
  den fl (alts r rs) pre rest pre' rest' <->
  exists r', In r' (r :: rs) /\ den fl r' pre rest pre' rest'.
Proof.
  induction rs as [|r1 rs IH]; intros r pre rest pre' rest'; simpl.
  - split; [intros D; exists r; auto | intros (r' & [<-|[]] & D); exact D].
  - rewrite IH. split.
    + intros [D|(r' & Hin & D)]; [exists r; auto | exists r'; auto].
    + intros (r' & [<-|Hin] & D); [left; exact D | right; exists r'; auto].
Qed.

Lemma den_word_alts fl w ws : IGNORECASE fl = true ->
  forall pre rest pre' rest',
  den fl (Seq Bound (Seq (Group (alts (lits w) (map lits ws))) Bound))
      pre rest pre' rest' <->
  exists w' x,
    In w' (w :: ws) /\ re_ci w' x /\ rest = x ++ rest'
    /\ pre' = rev x ++ pre
    /\ at_boundary pre rest = true /\ at_boundary pre' rest' = true.
Proof.
  intros Hfl pre rest pre' rest'. simpl. split.
  - intros (pm & rm & (Hb & -> & ->) & pe & re & D & (He & -> & ->)).
    apply den_alts in D as (r' & Hin & D).
    change (lits w :: map lits ws) with (map lits (w :: ws)) in Hin.
    apply in_map_iff in Hin as (w' & <- & Hin).
    apply (den_lits _ _ Hfl) in D as (x & -> & -> & E).
    exists w', x; auto 10.
  - intros (w' & x & Hin & E & -> & -> & Hb & He).
    exists pre, (x ++ rest'); split; [auto|].
    exists (rev x ++ pre), rest'; split; [|auto].
    apply den_alts. exists (lits w'). split.
    + change (lits w :: map lits ws) with (map lits (w :: ws)).
      now apply in_map.
    + apply (den_lits _ _ Hfl). exists x; auto.
Qed.

Lemma forbidden_search s :
  found (search I FORBIDDEN_RE s) = true <-> hit FORBIDDEN_ALTS s.
Proof.
  rewrite ReFacts.search_found. unfold hit.
  change FORBIDDEN_RE with
    (Seq Bound (Seq (Group (alts (lits "INSERT")
                              (map lits (tl FORBIDDEN_ALTS)))) Bound)).
  split.
  - intros (a & b & p & q & -> & D).
    apply den_word_alts in D as (w & x & Hin & E & -> & -> & Hb & He);
      [|reflexivity].
    exists a, x, q, w; auto 10.
  - intros (a & x & b & w & -> & Hin & E & Hb & He).
    exists a, (x ++ b), (rev x ++ rev a), b; split; [reflexivity|].
    apply den_word_alts; [reflexivity|]. exists w, x; auto 10.
Qed.

Lemma den_word_re fl w : IGNORECASE fl = true ->
  forall pre rest pre' rest',
  den fl (word_re w) pre rest pre' rest' <->
  exists x,
    re_ci w x /\ rest = x ++ rest' /\ pre' = rev x ++ pre
    /\ at_boundary pre rest = true /\ at_boundary pre' rest' = true.
Proof.
  intros Hfl pre rest pre' rest'. unfold word_re; simpl. split.
  - intros (pm & rm & (Hb & -> & ->) & pe & re & D & (He & -> & ->)).
    apply (den_lits _ _ Hfl) in D as (x & -> & -> & E). exists x; auto 10.
  - intros (x & E & -> & -> & Hb & He).
    exists pre, (x ++ rest'); split; [auto|].
    exists (rev x ++ pre), rest'; split; [|auto].
    apply (den_lits _ _ Hfl). exists x; auto.
Qed.

Lemma word_search w s :
  found (search I (word_re w) s) = true <-> hit [w] s.
Proof.
  rewrite ReFacts.search_found. unfold hit. split.
  - intros (a & b & p & q & -> & D).
    apply den_word_re in D as (x & E & -> & -> & Hb & He); [|reflexivity].
    exists a, x, q, w; simpl; auto 10.
  - intros (a & x & b & w' & -> & [<-|[]] & E & Hb & He).
    exists a, (x ++ b), (rev x ++ rev a), b; split; [reflexivity|].
    apply den_word_re; [reflexivity|]. exists x; auto 10.
Qed.

Lemma hit_mono ws ws' s : incl ws ws' -> hit ws s -> hit ws' s.
Proof.
  intros Hi (a & x & b & w & E & Hin & H). exists a, x, b, w; auto.
Qed.

Lemma hit_single ws s : hit ws s -> exists w, In w ws /\ hit [w] s.
Proof.
  intros (a & x & b & w & E & Hin & H). exists w; split; auto.
  exists a, x, b, w; simpl; auto.
Qed.

Lemma Forall2_rev_both (A B : Type) (R : A -> B -> Prop) l1 l2 :
  Forall2 R l1 l2 -> Forall2 R (rev l1) (rev l2).
Proof.
  induction 1; simpl; [constructor|].
  apply Forall2_app; auto.
Qed.

(** What a pattern of letters accepts begins and ends with a word
    character. *)
Lemma re_ci_wordy w x : wordy_pattern w = true -> re_ci w x -> wordy x.
Proof.
  unfold wordy_pattern, re_ci, wordy. intros Hw H.
  apply andb_true_iff in Hw as [H1 H2]. split.
  - destruct H as [|c y cs ys Hc _]; [discriminate|].
    simpl. now apply (lit_ok_word c).
  - apply Forall2_rev_both in H.
    destruct H as [|c y cs ys Hc _]; [discriminate|].
    simpl. now apply (lit_ok_word c).
Qed.

Lemma word_after_app x b : x <> [] -> word_after (x ++ b) = word_after x.
Proof. destruct x; [congruence|reflexivity]. Qed.

Lemma word_before_app x a : x <> [] -> word_before (x ++ a) = word_before x.
Proof. destruct x; [congruence|reflexivity]. Qed.

Lemma wordy_nonempty x : wordy x -> x <> [].
Proof. intros [H _] ->. discriminate. Qed.

Lemma rev_nonempty (A : Type) (x : list A) : x <> [] -> rev x <> [].
Proof.
  intros Hx E. apply (f_equal (@rev A)) in E. rewrite rev_involutive in E. auto.
Qed.

(** Around a word, [\b] asks for a non-word neighbour or an end of text. *)
Lemma wordy_boundaries x a b : wordy x ->
  (at_boundary (rev a) (x ++ b) = true /\
   at_boundary (rev x ++ rev a) b = true) <->
  (ends_clean a /\ starts_clean b).
Proof.
  intros Hx. pose proof (wordy_nonempty _ Hx) as Hne. destruct Hx as [H1 H2].
  unfold at_boundary. rewrite ends_clean_iff, starts_clean_iff.
  rewrite word_after_app, word_before_app, H1, H2; auto.
  - destruct (word_before (rev a)), (word_after b); simpl; intuition.
  - now apply rev_nonempty.
Qed.

Lemma hit_whole_word w s :
  wordy_pattern w = true -> hit [w] s <-> re_whole_word w s.
Proof.
  intros Hw. unfold hit, re_whole_word. split.
  - intros (a & x & b & w' & -> & [<-|[]] & E & Hb).
    apply wordy_boundaries in Hb; [|eapply re_ci_wordy; eauto].
    exists a, x, b; tauto.
  - intros (a & x & b & -> & E & Hc).
    apply (wordy_boundaries x) in Hc; [|eapply re_ci_wordy; eauto].
    exists a, x, b, w; simpl; tauto.
Qed.

(** The matcher decides whole-word occurrence in its own folding. *)
Lemma re_whole_word_search w s : wordy_pattern w = true ->
  re_whole_word w s <-> found (search I (word_re w) s) = true.
Proof. intros Hw. now rewrite word_search, hit_whole_word. Qed.

Lemma forbidden_keywords_wordy w :
  In w FORBIDDEN_KEYWORDS -> wordy_pattern w = true.
Proof.
  intros Hin. repeat (destruct Hin as [<-|Hin]; [reflexivity|]).
  destruct Hin.
Qed.

Lemma forallb_space ws :
  forallb (atom_ok I Space) ws = true <-> all_space ws.
Proof.
  unfold all_space. rewrite forallb_forall, Forall_forall. reflexivity.
Qed.

(** The matcher decides the leading SELECT in its own folding. *)
Lemma select_match s :
  found (rmatch I SELECT_RE s) = true <-> re_begins_with_select s.
Proof.
  rewrite ReFacts.rmatch_found. unfold re_begins_with_select, SELECT_RE.
  assert (Hsel : wordy_pattern "SELECT" = true) by reflexivity. split.
  - intros (p & q & D). simpl in D.
    destruct D as (p0 & q0 & (_ & -> & ->) & p1 & q1 & (ws & Hws & -> & ->)
                   & p2 & q2 & D & (Hb & -> & ->)).
    apply (den_lits I "SELECT" eq_refl) in D as (x & -> & -> & E).
    exists ws, x, q2. repeat split; auto.
    + now apply forallb_space.
    + apply starts_clean_iff. pose proof (re_ci_wordy _ _ Hsel E) as Hx.
      unfold at_boundary in Hb. rewrite word_before_app in Hb.
      * destruct Hx as [_ Hx]. rewrite Hx in Hb. now destruct (word_after q2).
      * apply rev_nonempty. now apply (wordy_nonempty _ Hx).
  - intros (ws & x & rest & -> & Hws & E & Hc).
    exists (rev x ++ rev ws ++ []), rest. simpl.
    exists [], (ws ++ x ++ rest); split; [auto|].
    exists (rev ws ++ []), (x ++ rest); split.
    { exists ws. split; [now apply forallb_space|auto]. }
    exists (rev x ++ rev ws ++ []), rest; split.
    { apply (den_lits I "SELECT" eq_refl). exists x; auto. }
    split; [|auto]. apply starts_clean_iff in Hc.
    pose proof (re_ci_wordy _ _ Hsel E) as Hx.
    unfold at_boundary. rewrite word_before_app, Hc.
    + destruct Hx as [_ ->]. reflexivity.
    + apply rev_nonempty. now apply (wordy_nonempty _ Hx).
Qed.

(** ** The lower-case form against the folding of the patterns *)

Lemma plain_lower_tolower y a : plain_lower y = Some a -> Char.tolower y = a.
Proof.
  unfold plain_lower.
  destruct (N.eqb y Char.capital_sigma || N.eqb y Char.capital_i_dot);
    [discriminate|]. now intros [= <-].
Qed.

Lemma plain_lower_piece pre c rest a :
  plain_lower c = Some a -> Str.lower_piece pre c rest = [a].
Proof.
  unfold plain_lower, Str.lower_piece.
  destruct (N.eqb c Char.capital_sigma); [discriminate|].
  destruct (N.eqb c Char.capital_i_dot); [discriminate|].
  simpl. now intros [= <-].
Qed.

(** A text whose lower-case form is written in ASCII holds neither the
    capital sigma nor the dotted capital I: character by character, its
    lower-case form is the simple one. *)
Lemma lower_from_ascii x : forall l pre,
  Forall (fun a => (a < 128)%N) l -> Str.lower_from pre x = l ->
  Forall2 (fun a y => plain_lower y = Some a) l x.
Proof.
  induction x as [|y x IH]; intros l pre Hl E; simpl in E.
  - subst. constructor.
  - unfold Str.lower_piece in E.
    destruct (N.eqb y Char.capital_sigma) eqn:E1.
    { exfalso. simpl in E. subst l. inversion Hl as [|? ? H _]; subst.
      destruct (Str.cased_before pre && Str.uncased_after x);
        vm_compute in H; discriminate. }
    destruct (N.eqb y Char.capital_i_dot) eqn:E2.
    { exfalso. simpl in E. subst l. inversion Hl as [|? ? _ Hl']; subst.
      inversion Hl' as [|? ? H _]; subst. vm_compute in H. discriminate. }
    simpl in E. subst l. inversion Hl as [|? ? _ Hl']; subst. constructor.
    + unfold plain_lower. now rewrite E1, E2.
    + now apply (IH _ (y :: pre)).
Qed.

Lemma plain_prefix l x :
  Forall2 (fun a y => plain_lower y = Some a) l x ->
  forall post,
    lower_prefixb l (x ++ post) = true
    /\ skipn (List.length l) (x ++ post) = post.
Proof.
  induction 1 as [|a y l x Hy _ IH]; intros post; simpl; [auto|].
  rewrite Hy, N.eqb_refl. simpl. apply IH.
Qed.

Lemma plain_lower_app l x :
  Forall2 (fun a y => plain_lower y = Some a) l x ->
  forall pre r,
    Str.lower_from pre (x ++ r) = l ++ Str.lower_from (rev x ++ pre) r.
Proof.
  induction 1 as [|a y l x Hy _ IH]; intros pre r; simpl; [reflexivity|].
  rewrite (plain_lower_piece _ _ _ _ Hy). simpl. f_equal.
  rewrite IH. now rewrite <- app_assoc.
Qed.

Lemma iscased_lower c :
  Char.iscased c = true ->
  plain_lower c = Some (Char.tolower c) /\ (Char.tolower c < 128)%N.
Proof. all_ascii c. Qed.

(** The lower-case form of a word of ASCII letters. *)
Lemma lower_letters cs : forallb Char.iscased cs = true -> forall pre,
  Str.lower_from pre (map N_of_ascii cs)
  = map Char.tolower (map N_of_ascii cs)
  /\ Forall (fun a => (a < 128)%N) (map Char.tolower (map N_of_ascii cs)).
Proof.
  induction cs as [|c cs IH]; intros H pre; simpl; [auto|].
  simpl in H. apply andb_true_iff in H as [Hc H].
  destruct (iscased_lower c Hc) as [P L].
  rewrite (plain_lower_piece _ _ _ _ P). simpl.
  destruct (IH H (N_of_ascii c :: pre)) as [E F]. rewrite E. auto.
Qed.

Lemma plain_re_ci cs : forallb Char.iscased cs = true -> forall x,
  Forall2 (fun a y => plain_lower y = Some a)
    (map Char.tolower (map N_of_ascii cs)) x ->
  Forall2 (fun c y => lit_ok true c y = true) cs x.
Proof.
  induction cs as [|c cs IH]; intros H x F; simpl in F.
  - inversion F. constructor.
  - simpl in H. apply andb_true_iff in H as [Hc H].
    inversion F as [|? y ? x' Hy F']; subst. constructor; auto.
    apply lit_ok_tolower; auto. now apply plain_lower_tolower.
Qed.

(** Letters that are equal up to case for [str.lower] are equal in the
    folding of [re.IGNORECASE]. *)
Lemma ci_eq_plain (w : string) x :
  forallb Char.iscased (list_ascii_of_string w) = true ->
  ci_eq w x ->
  Forall2 (fun a y => plain_lower y = Some a) (Str.lower w) x.
Proof.
  intros Hw E. unfold ci_eq in E.
  destruct (lower_letters _ Hw []) as [L F].
  unfold Str.lower, str_of_string in *. rewrite L in *.
  now apply (lower_from_ascii x _ []).
Qed.

Lemma ci_eq_re_ci (w : string) x :
  forallb Char.iscased (list_ascii_of_string w) = true ->
  ci_eq w x -> re_ci w x.
Proof.
  intros Hw E. apply (plain_re_ci _ Hw).
  pose proof (ci_eq_plain w x Hw E) as P.
  destruct (lower_letters _ Hw []) as [L _].
  unfold Str.lower, str_of_string in P. now rewrite L in P.
Qed.

Lemma whole_word_re (w : string) s :
  forallb Char.iscased (list_ascii_of_string w) = true ->
  whole_word w s -> re_whole_word w s.
Proof.
  intros Hw (pre & x & post & E & C & H). exists pre, x, post.
  split; auto. split; auto. now apply ci_eq_re_ci.
Qed.

Lemma begins_with_select_re s :
  begins_with_select s -> re_begins_with_select s.
Proof.
  intros (ws & x & rest & E & Hws & C & H). exists ws, x, rest.
  repeat split; auto. now apply (ci_eq_re_ci "SELECT").
Qed.

Lemma scan_word_intro l x post :
  lower_prefixb l (x ++ post) = true ->
  skipn (List.length l) (x ++ post) = post ->
  word_after post = false ->
  forall pre p0, word_before (rev pre ++ p0) = false ->
    scan_word l p0 (pre ++ x ++ post) = true.
Proof.
  intros H1 H2 H3. induction pre as [|c pre IH]; intros p0 Hb.
  - simpl in Hb. simpl app.
    destruct (x ++ post) eqn:Ex; simpl; rewrite Hb, H1, H2, H3; reflexivity.
  - simpl app. simpl. rewrite IH; [apply orb_true_r|].
    simpl in Hb. now rewrite <- app_assoc in Hb.
Qed.

(** [whole_wordb] finds every whole-word occurrence of a word of
    letters. *)
Lemma whole_wordb_complete (w : string) s :
  forallb Char.iscased (list_ascii_of_string w) = true ->
  whole_word w s -> whole_wordb w s = true.
Proof.
  intros Hw (pre & x & post & -> & C & Hp & Hq).
  pose proof (ci_eq_plain w x Hw C) as P.
  destruct (plain_prefix _ _ P post) as [P1 P2].
  unfold whole_wordb. apply scan_word_intro; auto.
  - now apply starts_clean_iff.
  - rewrite app_nil_r. now apply ends_clean_iff.
Qed.

Lemma lstrip_of_app p ws s :
  forallb p ws = true -> Str.lstrip_of p (ws ++ s) = Str.lstrip_of p s.
Proof.
  induction ws as [|c ws IH]; simpl; auto.
  intros H. apply andb_true_iff in H as [Hc H]. rewrite Hc. auto.
Qed.

Lemma all_space_forallb ws : all_space ws <-> forallb Char.isspace ws = true.
Proof. unfold all_space. now rewrite forallb_forall, Forall_forall. Qed.

Lemma begins_with_selectb_complete s :
  begins_with_select s -> begins_with_selectb s = true.
Proof.
  intros (ws & x & rest & -> & Hws & C & Hq).
  pose proof (ci_eq_plain "SELECT" x eq_refl C) as P.
  destruct (plain_prefix _ _ P rest) as [P1 P2].
  change (Str.lower ("SELECT" : str)) with ("select" : str) in P1, P2.
  pose proof (re_ci_wordy "SELECT" x eq_refl (ci_eq_re_ci "SELECT" x eq_refl C))
    as [Hx _].
  unfold begins_with_selectb. cbv zeta.
  rewrite lstrip_of_app by now apply all_space_forallb.
  destruct x as [|y x]; [discriminate|]. simpl in Hx.
  assert (Hy : Char.isspace y = false).
  { destruct (Char.isspace y) eqn:Ey; auto.
    apply space_not_word in Ey. congruence. }
  simpl app. cbn [Str.lstrip_of]. rewrite Hy.
  change (List.length ("select" : str)) with 6 in P2.
  simpl app in P1, P2. rewrite P1, P2.
  apply starts_clean_iff in Hq. now rewrite Hq.
Qed.

(** ** Stripping and counting *)

Lemma lstrip_of_split p s :
  exists t, s = t ++ Str.lstrip_of p s /\ forallb p t = true.
Proof.
  induction s as [|c s (t & E & Ht)]; simpl.
  - exists []; auto.
  - destruct (p c) eqn:Hc.
    + exists (c :: t); simpl. rewrite Hc, <- E. auto.
    + exists []; auto.
Qed.

Lemma rstrip_of_split p s :
  exists t, s = Str.rstrip_of p s ++ t /\ forallb p t = true.
Proof.
  unfold Str.rstrip_of. destruct (lstrip_of_split p (rev s)) as (t & E & Ht).
  exists (rev t). split.
  - rewrite <- rev_app_distr, <- E. now rewrite rev_involutive.
  - rewrite forallb_forall in *. intros c Hc. apply Ht. now apply in_rev.
Qed.

Lemma strip_app_space ws s : all_space ws -> Str.strip (ws ++ s) = Str.strip s.
Proof.
  intros H. unfold Str.strip. rewrite lstrip_of_app; auto.
  now apply all_space_forallb.
Qed.

Lemma count_app c a b : Str.count c (a ++ b) = Str.count c a + Str.count c b.
Proof. induction a; simpl; lia. Qed.

Lemma count_rev c s : Str.count c (rev s) = Str.count c s.
Proof.
  induction s as [|x s IH]; simpl; auto. rewrite count_app, IH. simpl. lia.
Qed.

Lemma in_semi c : existsb (N.eqb c) (";" : str) = true <-> c = ";"%char.
Proof.
  simpl. rewrite orb_false_r. apply N.eqb_eq.
Qed.

(** With at most one [;] in the text, [rstrip(";")] takes off the
    terminator and nothing else. *)
Lemma rstrip_semi_chop s :
  Str.count ";"%char s <= 1 -> Str.rstrip_chars ";" s = chop_terminator s.
Proof.
  unfold Str.rstrip_chars, Str.rstrip_of, chop_terminator. intros H.
  rewrite <- count_rev in H. destruct (rev s) as [|c r] eqn:E.
  - apply (f_equal (@rev N)) in E. now rewrite rev_involutive in E.
  - cbn [Str.lstrip_of]. cbn [Str.count] in H.
    change (existsb (N.eqb c) (";" : str)) with (N.eqb c ";"%char || false).
    rewrite orb_false_r. destruct (N.eqb c ";"%char) eqn:Hc.
    + f_equal. destruct r as [|d r]; auto. cbn [Str.lstrip_of].
      change (existsb (N.eqb d) (";" : str)) with (N.eqb d ";"%char || false).
      rewrite orb_false_r. cbn [Str.count] in H.
      destruct (N.eqb d ";"%char); [lia|reflexivity].
    + change (rev (c :: r)) with (rev (c :: r)). rewrite <- E.
      apply rev_involutive.
Qed.

(** What the gate cuts off before it appends the row limit holds no word
    character. *)
Lemma gate_tail sql :
  exists t,
    sql = Str.rstrip_chars ";" (Str.rstrip sql) ++ t
    /\ Forall (fun c => Char.isword c = false) t.
Proof.
  destruct (rstrip_of_split Char.isspace sql) as (t2 & E2 & H2).
  destruct (rstrip_of_split (fun c => existsb (N.eqb c) (";" : str))
              (Str.rstrip sql)) as (t1 & E1 & H1).
  exists (t1 ++ t2). split.
  - unfold Str.rstrip_chars. rewrite app_assoc, <- E1. exact E2.
  - apply Forall_app. rewrite forallb_forall in H1, H2. split;
      apply Forall_forall; intros c Hc.
    + apply H1, in_semi in Hc. now subst c.
    + now apply space_not_word, H2.
Qed.

Lemma count_rstrip_le sql :
  Str.count ";"%char (Str.rstrip_chars ";" (Str.rstrip sql))
  <= Str.count ";"%char sql.
Proof.
  destruct (gate_tail sql) as (t & E & _). rewrite E at 2.
  rewrite count_app. lia.
Qed.

Lemma count_rstrip_space_le sql :
  Str.count ";"%char (Str.rstrip sql) <= Str.count ";"%char sql.
Proof.
  destruct (rstrip_of_split Char.isspace sql) as (t & E & _).
  rewrite E at 2. rewrite count_app. unfold Str.rstrip. lia.
Qed.

(** ** The appended row limit and the checks of the gate *)

Lemma ci_prefixb_intro w : forall x b, re_ci w x -> ci_prefixb w (x ++ b) = true.
Proof.
  induction w as [|c w IH]; intros x b E; [reflexivity|].
  apply re_ci_cons_inv in E as (y & x' & -> & Hy & E).
  simpl. rewrite Hy. simpl. auto.
Qed.

Lemma occurs_ci_eq w s :
  occurs_ci w s =
  ci_prefixb w s || match s with [] => false | _ :: s' => occurs_ci w s' end.
Proof. destruct s; reflexivity. Qed.

Lemma occurs_ci_intro w x b l : re_ci w x -> occurs_ci w (l ++ x ++ b) = true.
Proof.
  intros E. induction l as [|c l IH].
  - simpl app. rewrite occurs_ci_eq, ci_prefixb_intro; auto.
  - simpl app. rewrite occurs_ci_eq, IH. apply orb_true_r.
Qed.

Lemma Forall2_in_right (A B : Type) (R : A -> B -> Prop) l x y :
  Forall2 R l x -> In y x -> exists c, In c l /\ R c y.
Proof.
  induction 1 as [|c z l x Hc _ IH]; intros Hin; [destruct Hin|].
  destruct Hin as [<-|Hin].
  - exists c. split; [now left|auto].
  - destruct (IH Hin) as (c' & H1 & H2). exists c'. split; [now right|auto].
Qed.

Lemma clear_of_limit_blank w x :
  clear_of_limit w = true -> re_ci w x -> ~ In (N_of_ascii " ") x.
Proof.
  unfold clear_of_limit. intros H E Hin.
  apply andb_true_iff in H as [_ H]. rewrite forallb_forall in H.
  destruct (Forall2_in_right _ _ _ _ _ _ E Hin) as (c & Hc & Hl).
  specialize (H c Hc). cbv beta in Hl. rewrite Hl in H. discriminate.
Qed.

Lemma nonword_head t :
  Forall (fun c => Char.isword c = false) t -> word_after t = false.
Proof. intros [|c t' Hc _]; auto. Qed.

(** A hit that lies before the appended text is a hit of the original. *)
Lemma hit_inside ws w a x l t :
  In w ws -> re_ci w x -> x <> [] ->
  at_boundary (rev a) (x ++ l ++ (" LIMIT 100" : str)) = true ->
  at_boundary (rev x ++ rev a) (l ++ (" LIMIT 100" : str)) = true ->
  Forall (fun c => Char.isword c = false) t ->
  hit ws ((a ++ x ++ l) ++ t).
Proof.
  intros Hin E Hx Hb He Ht. exists a, x, (l ++ t), w.
  repeat split; auto.
  - now rewrite <- !app_assoc.
  - unfold at_boundary in *. now rewrite word_after_app in * by assumption.
  - unfold at_boundary in *. destruct l as [|c l]; [|exact He].
    simpl app in *. now rewrite (nonword_head _ Ht).
Qed.

Lemma hit_before_limit ws p t :
  forallb clear_of_limit ws = true ->
  Forall (fun c => Char.isword c = false) t ->
  hit ws (p ++ (" LIMIT 100" : str)) -> hit ws (p ++ t).
Proof.
  intros Hsafe Ht (a & x & b & w & E & Hin & Hci & Hb & He).
  rewrite forallb_forall in Hsafe. specialize (Hsafe w Hin).
  assert (Hx : x <> []).
  { intros ->. apply re_ci_length in Hci. destruct w; [|discriminate].
    discriminate Hsafe. }
  symmetry in E.
  destruct (app_eq_app_split _ _ _ _ _ E) as [l [[Ha Hs]|[Hp Hxb]]].
  - exfalso. unfold clear_of_limit in Hsafe.
    apply andb_true_iff in Hsafe as [Hsafe _].
    apply andb_true_iff in Hsafe as [_ Hsafe].
    rewrite Hs, (occurs_ci_intro w x b l Hci) in Hsafe. discriminate.
  - destruct (app_eq_app_split _ _ _ _ _ Hxb) as [l' [[Hx' Hsuf]|[Hl Hb']]].
    + destruct l' as [|c l'].
      * rewrite app_nil_r in Hx'. simpl in Hsuf. subst l b p.
        pose proof (hit_inside ws w a x [] t Hin Hci Hx Hb He Ht) as G.
        now rewrite app_nil_r in G.
      * exfalso. injection Hsuf as <- _.
        apply (clear_of_limit_blank w x Hsafe Hci).
        subst x. apply in_or_app. right. now left.
    + subst l b p. eapply hit_inside; eauto.
Qed.

Lemma forbidden_alts_clear : forallb clear_of_limit FORBIDDEN_ALTS = true.
Proof. vm_compute. reflexivity. Qed.

(** Appending the row limit keeps the leading SELECT. *)
Lemma select_before_limit p t :
  Forall (fun c => Char.isword c = false) t ->
  re_begins_with_select (p ++ t) ->
  re_begins_with_select (p ++ (" LIMIT 100" : str)).
Proof.
  intros Ht (ws & x & rest & E & Hws & Hci & Hc).
  pose proof (re_ci_wordy "SELECT" x eq_refl Hci) as Hx.
  rewrite app_assoc in E. symmetry in E.
  destruct (app_eq_app_split _ _ _ _ _ E) as [l [[Ha Hs]|[Hp Hr]]].
  - (* the word ends at or after the end of [p] *)
    destruct (rev l) as [|c l0] eqn:El.
    + apply (f_equal (@rev N)) in El. rewrite rev_involutive in El.
      simpl in El. subst l. rewrite app_nil_r in Ha. subst p.
      exists ws, x, (" LIMIT 100" : str). rewrite <- app_assoc.
      repeat split; auto. intros c q [= <- _]. reflexivity.
    + exfalso. apply (f_equal (@rev N)) in El. rewrite rev_involutive in El.
      simpl in El. subst l t.
      apply Forall_app in Ht as [Ht _]. apply Forall_app in Ht as [_ Ht].
      inversion Ht as [|? ? Hcw _]; subst.
      destruct Hx as [_ Hx]. destruct (rev x) as [|d x0] eqn:Ex; [discriminate|].
      apply (f_equal (@rev N)) in Ex. rewrite rev_involutive in Ex.
      simpl in Ex, Hx. subst x. rewrite !app_assoc in Ha.
      apply app_inj_tail in Ha as [_ ->]. congruence.
  - subst p rest. exists ws, x, (l ++ (" LIMIT 100" : str)).
    rewrite <- !app_assoc. repeat split; auto.
    destruct l as [|d l].
    + intros c q [= <- _]. reflexivity.
    + intros c q [= <- _]. apply (Hc d (l ++ t)). reflexivity.
Qed.

(** A word of the pattern's own letters is accepted as it is written. *)
Lemma re_ci_self (w : string) :
  ci_prefixb w w = true -> re_ci w w.
Proof.
  unfold re_ci, str_of_string.
  induction (list_ascii_of_string w) as [|c cs IH] eqn:E in w |- *.
  - intros _. constructor.
  - destruct w as [|c' w']; [discriminate|]. simpl in E.
    injection E as -> E. simpl. intros H.
    apply andb_true_iff in H as [H1 H2]. constructor; auto.
    apply (IH w'); auto.
Qed.

(** The appended text carries LIMIT as a whole word. *)
Lemma limit_after_append p :
  re_whole_word "LIMIT" (p ++ (" LIMIT 100" : str)).
Proof.
  exists (p ++ (" " : str)), ("LIMIT" : str), (" 100" : str).
  repeat split.
  - now rewrite <- app_assoc.
  - now apply re_ci_self.
  - intros q c E. apply app_inj_tail in E as [_ <-]. reflexivity.
  - intros c q [= <- _]. reflexivity.
Qed.

(** ** The gate, check by check *)

Lemma gate_return sql out :
  enforce_read_only sql = Return out ->
  found (search I FORBIDDEN_RE sql) = false
  /\ Str.count ";"%char sql <= 1
  /\ found (rmatch I SELECT_RE sql) = true
  /\ (if found (search I LIMIT_RE sql) then out = sql
      else out = Str.rstrip_chars ";" (Str.rstrip sql) ++ (" LIMIT 100" : str)).
Proof.
  unfold enforce_read_only.
  destruct (found (search I FORBIDDEN_RE sql)); [discriminate|].
  destruct (Nat.ltb 1 (Str.count ";"%char sql)) eqn:Hc; [discriminate|].
  apply Nat.ltb_ge in Hc.
  destruct (found (rmatch I SELECT_RE sql)); [|discriminate].
  destruct (found (search I LIMIT_RE sql)); cbn [negb]; intros [= <-]; auto.
Qed.

Lemma gate_accepts sql :
  found (search I FORBIDDEN_RE sql) = false ->
  Str.count ";"%char sql <= 1 ->
  found (rmatch I SELECT_RE sql) = true ->
  found (search I LIMIT_RE sql) = true ->
  enforce_read_only sql = Return sql.
Proof.
  intros H1 H2 H3 H4. unfold enforce_read_only. rewrite H1, H3, H4.
  apply Nat.ltb_ge in H2. now rewrite H2.
Qed.

Lemma gate_forbidden sql :
  found (search I FORBIDDEN_RE sql) = true <->
  enforce_read_only sql = Raise (ValueError msg_forbidden).
Proof.
  unfold enforce_read_only.
  destruct (found (search I FORBIDDEN_RE sql)); [tauto|].
  split; [discriminate|].
  destruct (Nat.ltb 1 (Str.count ";"%char sql)); [discriminate|].
  destruct (found (rmatch I SELECT_RE sql)); [|discriminate].
  destruct (found (search I LIMIT_RE sql)); discriminate.
Qed.

Lemma not_found_false b : b <> true <-> b = false.
Proof. destruct b; split; congruence. Qed.

(** Every check of the gate holds again on what the gate returns. *)
Lemma gate_output_checks sql out :
  enforce_read_only sql = Return out ->
  found (search I FORBIDDEN_RE out) = false
  /\ Str.count ";"%char out <= 1
  /\ found (rmatch I SELECT_RE out) = true
  /\ found (search I LIMIT_RE out) = true.
Proof.
  intros H. apply gate_return in H as (Hf & Hc & Hs & Hl).
  destruct (found (search I LIMIT_RE sql)) eqn:El; subst out; [auto|].
  destruct (gate_tail sql) as (t & E & Ht).
  set (p := Str.rstrip_chars ";" (Str.rstrip sql)) in *.
  repeat split.
  - apply not_found_false. intros G. apply forbidden_search in G.
    apply (hit_before_limit _ p t forbidden_alts_clear Ht) in G.
    rewrite <- E in G. apply forbidden_search in G. congruence.
  - rewrite count_app. pose proof (count_rstrip_le sql) as H. fold p in H.
    change (Str.count ";"%char (" LIMIT 100" : str)) with 0. lia.
  - apply select_match. apply (select_before_limit p t Ht).
    rewrite <- E. now apply select_match.
  - change LIMIT_RE with (word_re "LIMIT").
    apply (re_whole_word_search "LIMIT" _ eq_refl), limit_after_append.
Qed.

Lemma rigid_semi x : re_ci ";" x -> x = (";" : str).
Proof.
  intros H. apply re_ci_cons_inv in H as (y & x' & -> & Hy & H).
  apply re_ci_nil in H. subst x'.
  rewrite lit_ok_plain in Hy by reflexivity. apply N.eqb_eq in Hy.
  now subst y.
Qed.

Lemma rigid_dollars x : re_ci "$$" x -> x = ("$$" : str).
Proof.
  intros H. apply re_ci_cons_inv in H as (y & x' & -> & Hy & H).
  apply re_ci_cons_inv in H as (z & x'' & -> & Hz & H).
  apply re_ci_nil in H. subst x''.
  rewrite lit_ok_plain in Hy, Hz by reflexivity.
  apply N.eqb_eq in Hy, Hz. now subst y z.
Qed.

(** A separator is hit by [\b...\b] only between two word characters. *)
Lemma hit_glued (sep : string) s :
  (forall x, re_ci sep x -> x = (sep : str)) ->
  word_after sep = false -> word_before (rev (sep : str)) = false ->
  (sep : str) <> [] ->
  hit [sep] s -> glued sep s.
Proof.
  intros Hr H1 H2 Hne (a & x & b & w & -> & [<-|[]] & E & Hb & He).
  apply Hr in E. subst x. unfold at_boundary in *.
  rewrite word_after_app, H1 in Hb by assumption.
  rewrite word_before_app, H2 in He by now apply rev_nonempty.
  destruct (rev a) as [|c r] eqn:Ea; [discriminate|].
  destruct b as [|d b]; [discriminate|]. simpl in Hb, He.
  apply (f_equal (@rev N)) in Ea. rewrite rev_involutive in Ea.
  simpl in Ea. subst a. exists (rev r), c, d, b.
  rewrite xorb_false_r in Hb. rewrite <- !app_assoc. auto.
Qed.

(** The forbidden pattern fires on a keyword standing as a whole word, or
    on a separator glued between two word characters, and on nothing
    else. *)
Lemma forbidden_hit_cases s :
  hit FORBIDDEN_ALTS s ->
  (exists w, In w FORBIDDEN_KEYWORDS /\ re_whole_word w s)
  \/ glued ";" s \/ glued "$$" s.
Proof.
  intros H. apply hit_single in H as (w & Hin & H).
  unfold FORBIDDEN_ALTS in Hin. apply in_app_or in Hin as [Hin|Hin].
  - left. exists w. split; auto.
    now apply hit_whole_word; [apply forbidden_keywords_wordy|].
  - right. destruct Hin as [<-|[<-|[]]]; [left|right];
      apply hit_glued; auto using rigid_semi, rigid_dollars; discriminate.
Qed.

Lemma keyword_hit w s :
  In w FORBIDDEN_KEYWORDS -> re_whole_word w s -> hit FORBIDDEN_ALTS s.
Proof.
  intros Hin H. apply (hit_whole_word _ _ (forbidden_keywords_wordy _ Hin)) in H.
  apply (hit_mono [w]); auto.
  intros w' [<-|[]]. unfold FORBIDDEN_ALTS. apply in_or_app. now left.
Qed.

Lemma forbidden_keywords_letters w :
  In w FORBIDDEN_KEYWORDS ->
  forallb Char.iscased (list_ascii_of_string w) = true.
Proof.
  intros Hin. repeat (destruct Hin as [<-|Hin]; [reflexivity|]).
  destruct Hin.
Qed.

(** More than one [;] is always refused, by the forbidden pattern or by
    the count. *)
Lemma many_separators_rejected sql :
  1 < Str.count ";"%char sql ->
  enforce_read_only sql = Raise (ValueError msg_forbidden)
  \/ enforce_read_only sql = Raise (ValueError msg_multiple).
Proof.
  intros H. unfold enforce_read_only.
  destruct (found (search I FORBIDDEN_RE sql)); [now left|right].
  apply Nat.ltb_lt in H. now rewrite H.
Qed.

(** ** The fence pattern *)

Lemma run_lits fl w k : IGNORECASE fl = true -> forall pre rest g,
  run fl (lits w) k pre rest g =
  if ci_prefixb w rest
  then k (rev (firstn (String.length w) rest) ++ pre)
         (skipn (String.length w) rest) g
  else None.
Proof.
  intros Hfl. induction w as [|c w IH]; intros pre rest g;
    cbn [lits run ci_prefixb String.length].
  - reflexivity.
  - destruct rest as [|y rest]; [reflexivity|].
    cbn [atom_ok firstn skipn]. rewrite Hfl.
    destruct (lit_ok true c y); [|reflexivity].
    cbn [andb rev]. rewrite IH, <- app_assoc. reflexivity.
Qed.

Lemma fence_prefix s : ci_prefixb "```" s = Str.startswith "```" s.
Proof.
  destruct s as [|a [|b [|c s]]]; cbn [ci_prefixb];
    rewrite ?lit_ok_plain by reflexivity; reflexivity.
Qed.

Lemma startswith_elim p : forall s,
  Str.startswith p s = true -> exists rest, s = p ++ rest.
Proof.
  induction p as [|a p IH]; intros s H; simpl in *.
  - exists s; reflexivity.
  - destruct s as [|x s]; [discriminate|].
    apply andb_true_iff in H as [Hx H]. apply N.eqb_eq in Hx. subst x.
    destruct (IH _ H) as (rest & ->). exists rest; reflexivity.
Qed.

Lemma startswith_intro p rest : Str.startswith p (p ++ rest) = true.
Proof. induction p; simpl; auto. now rewrite N.eqb_refl. Qed.

Lemma startswith_iff p s :
  Str.startswith p s = true <-> exists rest, s = p ++ rest.
Proof.
  split; [apply startswith_elim|]. intros (rest & ->). apply startswith_intro.
Qed.

Lemma consumed_app acc pre0 : consumed pre0 (rev acc ++ pre0) = acc.
Proof.
  unfold consumed. rewrite length_app, Nat.add_sub.
  rewrite <- (Nat.add_0_r (List.length (rev acc))), firstn_app_2.
  simpl. rewrite app_nil_r. apply rev_involutive.
Qed.

Lemma star_lazy_eq fl a k pre rest g :
  star_lazy fl a k pre rest g =
  match k pre rest g with
  | Some m => Some m
  | None =>
      match rest with
      | x :: rest' =>
          if atom_ok fl a x then star_lazy fl a k (x :: pre) rest' g else None
      | [] => None
      end
  end.
Proof. destruct rest; reflexivity. Qed.

(** The lazy repetition stops at the first closing mark and captures
    what it has consumed. *)
Lemma lazy_close_some pre0 g m : forall rest acc,
  star_lazy I_S Dot
    (fun pre' rest' _ =>
       run I_S (lits "```") accept pre' rest' (Some (consumed pre0 pre')))
    (rev acc ++ pre0) rest g = Some m ->
  exists body post,
    rest = body ++ ("```" : str) ++ post /\ m = Some (acc ++ body)
    /\ nearest_close body post.
Proof.
  induction rest as [|x rest IH]; intros acc H;
    rewrite star_lazy_eq in H; cbv beta in H;
    rewrite (run_lits I_S "```" accept eq_refl), fence_prefix in H.
  - discriminate H.
  - destruct (Str.startswith "```" (x :: rest)) eqn:Hp.
    + injection H as <-. apply startswith_elim in Hp as (post & ->).
      exists [], post. rewrite consumed_app, app_nil_r.
      repeat split. intros a b E. symmetry in E.
      apply app_eq_nil in E as [_ ->]. congruence.
    + change (x :: rev acc ++ pre0) with ((x :: rev acc) ++ pre0) in H.
      change (x :: rev acc) with ([x] ++ rev acc) in H.
      replace ([x] ++ rev acc) with (rev (acc ++ [x])) in H
        by (rewrite rev_app_distr; reflexivity).
      apply IH in H as (body & post & -> & -> & Hn).
      exists (x :: body), post. rewrite <- app_assoc. repeat split.
      intros a b E Hb. destruct a as [|y a]; simpl in E.
      * subst b. exact Hp.
      * injection E as _ E. now apply (Hn a b).
Qed.

Lemma close_run_some pre rest g m :
  run I_S CLOSE_RE accept pre rest g = Some m ->
  exists body post,
    rest = body ++ ("```" : str) ++ post /\ m = Some body
    /\ nearest_close body post.
Proof.
  intros H. apply (lazy_close_some pre g m rest []) in H. exact H.
Qed.

Lemma star_greedy_none fl a k pre rest g :
  star_greedy fl a k pre rest g = None -> k pre rest g = None.
Proof.
  destruct rest as [|x rest]; simpl; auto.
  destruct (atom_ok fl a x); auto.
  destruct (star_greedy fl a k (x :: pre) rest g); [discriminate|auto].
Qed.

Lemma space_not_tick ws rest :
  all_space ws -> ws <> [] -> Str.startswith "```" (ws ++ rest) = false.
Proof.
  intros H Hne. destruct ws as [|c ws]; [congruence|].
  inversion H as [|? ? Hc _]; subst.
  destruct (Str.startswith "```" ((c :: ws) ++ rest)) eqn:E; [|reflexivity].
  apply startswith_elim in E as (r & E). simpl in E. injection E as -> _.
  discriminate Hc.
Qed.

Lemma all_space_suffix a b : all_space (a ++ b) -> all_space b.
Proof. intros H. now apply Forall_app in H. Qed.

Lemma nearest_close_spaces ws body post :
  all_space ws -> nearest_close body post -> nearest_close (ws ++ body) post.
Proof.
  intros Hws Hn a b E Hb.
  destruct (app_eq_app_split _ _ _ _ _ E) as [l [[-> ->]|[-> ->]]].
  - destruct l as [|c l]; [now apply (Hn [] body)|].
    rewrite <- app_assoc. apply space_not_tick; [|discriminate].
    now apply all_space_suffix in Hws.
  - now apply (Hn l b).
Qed.

Lemma ci_prefixb_elim w : forall s,
  ci_prefixb w s = true ->
  exists x rest,
    s = x ++ rest /\ re_ci w x
    /\ firstn (String.length w) s = x /\ skipn (String.length w) s = rest.
Proof.
  induction w as [|c w IH]; intros s H; cbn [ci_prefixb] in H.
  - exists [], s. repeat split. now apply re_ci_nil.
  - destruct s as [|y s]; [discriminate|].
    apply andb_true_iff in H as [Hy H].
    destruct (IH _ H) as (x & rest & -> & E & F & S).
    exists (y :: x), rest; simpl. rewrite F, S. repeat split.
    now apply re_ci_cons.
Qed.

(** A match of the fence pattern at one position. *)
Lemma fence_run_some pre rest m :
  run I_S FENCE_RE accept pre rest None = Some m ->
  exists tag body post g1,
    rest = tag ++ body ++ ("```" : str) ++ post /\ re_ci "```sql" tag
    /\ m = Some g1 /\ Str.strip g1 = Str.strip body
    /\ nearest_close body post.
Proof.
  intros H.
  change FENCE_RE with (Seq (lits "```sql") (Seq (Star Space) CLOSE_RE)) in H.
  cbn [run] in H. rewrite (run_lits I_S "```sql" _ eq_refl) in H.
  destruct (ci_prefixb "```sql" rest) eqn:P; [|discriminate].
  apply ci_prefixb_elim in P as (tag & q1 & -> & E & F & S).
  rewrite F, S in H.
  apply ReFacts.star_greedy_sound in H as (ws & q2 & Hws & -> & H).
  apply close_run_some in H as (body & post & -> & -> & Hn).
  apply forallb_space in Hws.
  exists tag, (ws ++ body), post, body. rewrite <- app_assoc.
  repeat split; auto.
  - symmetry. now apply strip_app_space.
  - now apply nearest_close_spaces.
Qed.

Lemma all_dots xs : forallb (atom_ok I_S Dot) xs = true.
Proof. induction xs; simpl; auto. Qed.

Lemma fence_run_none pre rest :
  run I_S FENCE_RE accept pre rest None = None -> ~ marks_at rest.
Proof.
  intros H (tag & body & post & -> & E).
  refine (ReFacts.run_complete I_S FENCE_RE accept pre _
            (rev ("```" : str) ++ rev body ++ rev tag ++ pre) post _
            (ReFacts.accept_total _ _) None H).
  exists (rev tag ++ pre), (body ++ ("```" : str) ++ post). split.
  { apply (den_lits I_S "```sql" eq_refl). exists tag; auto. }
  exists (rev tag ++ pre), (body ++ ("```" : str) ++ post). split.
  { exists []; auto. }
  exists (rev body ++ rev tag ++ pre), (("```" : str) ++ post). split.
  { exists body. split; [apply all_dots|auto]. }
  apply (den_lits I_S "```" eq_refl). exists ("```" : str).
  split; [reflexivity|]. split; [reflexivity|]. now apply re_ci_self.
Qed.

(** [search] returns the match of the leftmost start. *)
Lemma search_from_some fl r m : forall rest pre,
  search_from fl r pre rest = Some m ->
  exists a b,
    rest = a ++ b /\ run fl r accept (rev a ++ pre) b None = Some m
    /\ forall a1 a2, a = a1 ++ a2 -> a2 <> [] ->
         run fl r accept (rev a1 ++ pre) (a2 ++ b) None = None.
Proof.
  induction rest as [|x rest IH]; intros pre H; simpl in H.
  - destruct (run fl r accept pre [] None) eqn:R; [|discriminate].
    injection H as ->. exists [], []. repeat split; auto.
    intros a1 a2 E. symmetry in E. apply app_eq_nil in E as [_ ->]. congruence.
  - destruct (run fl r accept pre (x :: rest) None) eqn:R.
    + injection H as ->. exists [], (x :: rest). repeat split; auto.
      intros a1 a2 E. symmetry in E. apply app_eq_nil in E as [_ ->].
      congruence.
    + apply IH in H as (a & b & -> & Hr & Hn). exists (x :: a), b.
      simpl. rewrite <- app_assoc. repeat split; auto.
      intros a1 a2 E Ha2. destruct a1 as [|y a1]; simpl in E.
      * subst a2. exact R.
      * injection E as <- ->. simpl. rewrite <- app_assoc.
        now apply Hn.
Qed.

Lemma search_from_none fl r : forall rest pre,
  search_from fl r pre rest = None ->
  forall a b, rest = a ++ b -> run fl r accept (rev a ++ pre) b None = None.
Proof.
  induction rest as [|x rest IH]; intros pre H a b E; simpl in H;
    destruct (run fl r accept pre _ None) eqn:R; try discriminate.
  - symmetry in E. apply app_eq_nil in E as [-> ->]. exact R.
  - destruct a as [|y a]; simpl in E.
    + subst b. exact R.
    + injection E as <- ->. simpl. rewrite <- app_assoc. now apply IH.
Qed.

(** The matcher decides whether the text holds a pair of marks. *)
Lemma has_marks_search text :
  has_marks text <-> found (search I_S FENCE_RE text) = true.
Proof.
  unfold search. split.
  - intros (pre & s & -> & Hf).
    destruct (search_from I_S FENCE_RE [] (pre ++ s)) eqn:S; [reflexivity|].
    exfalso. apply (fence_run_none (rev pre ++ []) s); auto.
    now apply (search_from_none _ _ _ _ S pre s).
  - destruct (search_from I_S FENCE_RE [] text) eqn:S; [intros _|discriminate].
    apply search_from_some in S as (a & b & -> & R & _).
    apply fence_run_some in R as (tag & body & post & g1 & -> & E & _).
    exists a, (tag ++ body ++ ("```" : str) ++ post). split; auto.
    exists tag, body, post; auto.
Qed.

(** ** The light guardrail *)

Lemma contains_in c s : Str.contains c s = true <-> In c s.
Proof.
  unfold Str.contains. rewrite existsb_exists. split.
  - intros (x & Hin & E). apply N.eqb_eq in E. now subst.
  - intros H. exists c. split; auto. apply N.eqb_refl.
Qed.

(** ** The claims *)

(** C1 (the code departs from the claim).  The claim asks the gate to
    refuse a text whose single [;] is not its last non-blank character,
    and names [SELECT 1; SELECT 2].  The gate accepts that text: the [;]
    alternative of the forbidden pattern only fires between two word
    characters, the count test only refuses two separators or more, and
    the row limit is appended to both statements. *)
Theorem single_separator_accepted :
  enforce_read_only "SELECT 1; SELECT 2"
  = Return ("SELECT 1; SELECT 2 LIMIT 100" : str).
Proof. vm_compute. reflexivity. Qed.

(** C2.  A text in which one of the eleven keywords stands as a whole
    word, in any case and at any place, is refused with the
    forbidden-keyword message. *)
Theorem forbidden_keyword_rejected sql w :
  In w FORBIDDEN_WORDS -> whole_word w sql ->
  enforce_read_only sql = Raise (ValueError msg_forbidden).
Proof.
  intros Hin H. apply in_map_iff in Hin as (k & <- & Hk).
  apply gate_forbidden, forbidden_search, (keyword_hit k); auto.
  apply whole_word_re; auto. now apply forbidden_keywords_letters.
Qed.

Lemma forbidden_keyword_rejected_witness :
  enforce_read_only "select * from t; DROP TABLE t"
  = Raise (ValueError msg_forbidden).
Proof.
  apply (forbidden_keyword_rejected "select * from t; DROP TABLE t" "DROP").
  - simpl. tauto.
  - exists ("select * from t; " : str), ("DROP" : str), (" TABLE t" : str).
    split; [reflexivity|]. split; [reflexivity|]. split.
    + intros p c E.
      change ("select * from t; " : str)
        with (("select * from t;" : str) ++ [N_of_ascii " "]) in E.
      apply app_inj_tail in E as [_ <-]. reflexivity.
    + intros c q [= <- _]. reflexivity.
Defined.

(** C3 (the claim as worded fails).  [SELECT 1 lımıt], written with the
    dotless i, does not hold LIMIT in any case of its letters, and yet the
    gate returns it unchanged, without a row limit. *)
Lemma accepted_statement_shape_counterexample :
  enforce_read_only select_1_dotless_limit = Return select_1_dotless_limit
  /\ ~ whole_word "LIMIT" select_1_dotless_limit
  /\ select_1_dotless_limit
     <> chop_terminator (Str.rstrip select_1_dotless_limit)
        ++ (" LIMIT 100" : str).
Proof.
  split; [vm_compute; reflexivity|]. split.
  - intros H. apply (whole_wordb_complete "LIMIT" _ eq_refl) in H.
    vm_compute in H. discriminate.
  - intros E. apply (f_equal (@List.length N)) in E. vm_compute in E.
    discriminate.
Qed.

(** C3, amended.  What the gate returns is the input itself when LIMIT
    stands in it as a whole word in the folding of [re.IGNORECASE], and
    otherwise the input without its trailing whitespace and without its
    terminator, followed by one blank and [LIMIT 100];
    [SELECT * FROM orders] becomes [SELECT * FROM orders LIMIT 100]. *)
Theorem accepted_statement_shape :
  (forall sql out,
     enforce_read_only sql = Return out ->
     (re_whole_word "LIMIT" sql /\ out = sql)
     \/ (~ re_whole_word "LIMIT" sql
         /\ out = chop_terminator (Str.rstrip sql) ++ (" LIMIT 100" : str)))
  /\ enforce_read_only "SELECT * FROM orders"
     = Return ("SELECT * FROM orders LIMIT 100" : str).
Proof.
  split; [|vm_compute; reflexivity].
  intros sql out H. apply gate_return in H as (_ & Hc & _ & Hl).
  change LIMIT_RE with (word_re "LIMIT") in Hl.
  destruct (found (search I (word_re "LIMIT") sql)) eqn:El.
  - left. split; auto. now apply (re_whole_word_search "LIMIT" _ eq_refl).
  - right. split.
    + intros Hw. apply (re_whole_word_search "LIMIT" _ eq_refl) in Hw.
      congruence.
    + rewrite Hl. f_equal. apply rstrip_semi_chop.
      pose proof (count_rstrip_space_le sql). lia.
Qed.

Lemma accepted_statement_shape_witness :
  (re_whole_word "LIMIT" ("SELECT 1 ;  " : str)
   /\ ("SELECT 1  LIMIT 100" : str) = ("SELECT 1 ;  " : str))
  \/ (~ re_whole_word "LIMIT" ("SELECT 1 ;  " : str)
      /\ ("SELECT 1  LIMIT 100" : str)
         = chop_terminator (Str.rstrip "SELECT 1 ;  ") ++ (" LIMIT 100" : str)).
Proof.
  apply (proj1 accepted_statement_shape "SELECT 1 ;  " "SELECT 1  LIMIT 100").
  vm_compute. reflexivity.
Defined.

(** C4.  The gate is idempotent on what it accepts: run on its own
    result, it accepts it and returns it unchanged. *)
Theorem gate_idempotent sql out :
  enforce_read_only sql = Return out -> enforce_read_only out = Return out.
Proof.
  intros H. apply gate_output_checks in H as (H1 & H2 & H3 & H4).
  now apply gate_accepts.
Qed.

Lemma gate_idempotent_witness :
  enforce_read_only "SELECT * FROM orders LIMIT 100"
  = Return ("SELECT * FROM orders LIMIT 100" : str).
Proof.
  apply (gate_idempotent "SELECT * FROM orders;").
  vm_compute. reflexivity.
Defined.

(** C5 (the claim as worded fails).  In [SELECT create$date FROM events]
    the keyword occurs only inside the identifier [create$date], and the
    gate refuses the text with the forbidden-keyword message: [$] is a
    character of identifiers and not of words. *)
Lemma keyword_inside_identifier_counterexample :
  enforce_read_only select_dollar_identifier
  = Raise (ValueError msg_forbidden)
  /\ forallb ident_char dollar_identifier = true
  /\ forallb (fun w => negb (standalone_keyword w select_dollar_identifier))
       FORBIDDEN_WORDS = true.
Proof. vm_compute. repeat split. Qed.

(** C5, amended.  The forbidden-keyword refusal binds on the boundaries of
    words, in the folding of [re.IGNORECASE]: it is raised only when a
    keyword stands with no word character on either side, or a separator
    is glued between two word characters; a keyword inside a longer run of
    word characters does not raise it, and
    [SELECT create_date FROM events] is accepted. *)
Theorem keyword_inside_identifier_passes :
  (forall sql,
     enforce_read_only sql = Raise (ValueError msg_forbidden) ->
     (exists w, In w FORBIDDEN_KEYWORDS /\ re_whole_word w sql)
     \/ glued ";" sql \/ glued "$$" sql)
  /\ enforce_read_only "SELECT create_date FROM events"
     = Return ("SELECT create_date FROM events LIMIT 100" : str).
Proof.
  split; [|vm_compute; reflexivity].
  intros sql H. apply gate_forbidden, forbidden_search in H.
  now apply forbidden_hit_cases.
Qed.

Lemma keyword_inside_identifier_passes_witness :
  (exists w, In w FORBIDDEN_KEYWORDS
             /\ re_whole_word w ("SELECT 1;SELECT 2" : str))
  \/ glued ";" ("SELECT 1;SELECT 2" : str)
  \/ glued "$$" ("SELECT 1;SELECT 2" : str).
Proof.
  apply (proj1 keyword_inside_identifier_passes "SELECT 1;SELECT 2").
  vm_compute. reflexivity.
Defined.

(** C6 (the claim as worded fails).  [ſelect 1], written with the long s,
    holds no forbidden keyword and does not begin with the word SELECT in
    any case of its letters; the gate accepts it and appends the row
    limit. *)
Lemma non_select_rejected_counterexample :
  enforce_read_only long_s_select_1
  = Return (long_s_select_1 ++ (" LIMIT 100" : str))
  /\ (forall w, In w FORBIDDEN_WORDS -> ~ whole_word w long_s_select_1)
  /\ ~ begins_with_select long_s_select_1.
Proof.
  split; [vm_compute; reflexivity|]. split.
  - intros w Hin H. apply in_map_iff in Hin as (k & <- & Hk).
    apply (whole_wordb_complete k _ (forbidden_keywords_letters k Hk)) in H.
    simpl in Hk.
    repeat (destruct Hk as [<-|Hk]; [vm_compute in H; discriminate|]).
    destruct Hk.
  - intros H. apply begins_with_selectb_complete in H.
    vm_compute in H. discriminate.
Qed.

(** C6, amended.  A text in which no forbidden keyword stands as a whole
    word and which does not begin, after leading whitespace, with the word
    SELECT, both in the folding of [re.IGNORECASE], is refused; unless one
    of the two other rules fires first, the message is the one of the
    SELECT rule. *)
Theorem non_select_rejected sql :
  (forall w, In w FORBIDDEN_KEYWORDS -> ~ re_whole_word w sql) ->
  ~ re_begins_with_select sql ->
  exists msg,
    enforce_read_only sql = Raise (ValueError msg)
    /\ (~ glued ";" sql -> ~ glued "$$" sql ->
        Str.count ";"%char sql <= 1 -> msg = msg_only_select).
Proof.
  intros Hk Hs. unfold enforce_read_only.
  destruct (found (search I FORBIDDEN_RE sql)) eqn:Hf.
  - exists msg_forbidden. split; auto. intros G1 G2 _. exfalso.
    apply forbidden_search, forbidden_hit_cases in Hf
      as [(w & Hin & Hw)|[G|G]]; auto. now apply (Hk w).
  - destruct (Nat.ltb 1 (Str.count ";"%char sql)) eqn:Hc.
    + exists msg_multiple. split; auto. intros _ _ Hle.
      apply Nat.ltb_lt in Hc. lia.
    + destruct (found (rmatch I SELECT_RE sql)) eqn:Hm.
      * exfalso. now apply Hs, select_match.
      * exists msg_only_select. auto.
Qed.

Lemma non_select_rejected_witness :
  exists msg,
    enforce_read_only "PRAGMA table_info(t);" = Raise (ValueError msg)
    /\ (~ glued ";" ("PRAGMA table_info(t);" : str) ->
        ~ glued "$$" ("PRAGMA table_info(t);" : str) ->
        Str.count ";"%char ("PRAGMA table_info(t);" : str) <= 1 ->
        msg = msg_only_select).
Proof.
  apply (non_select_rejected "PRAGMA table_info(t);").
  - intros w Hin Hw.
    apply (re_whole_word_search _ _ (forbidden_keywords_wordy _ Hin)) in Hw.
    simpl in Hin.
    repeat (destruct Hin as [<-|Hin]; [vm_compute in Hw; discriminate|]).
    destruct Hin.
  - intros Hs. apply select_match in Hs. vm_compute in Hs. discriminate.
Defined.

(** C7 (the claim as worded fails).  [```sqlite\nSELECT 1\n```] holds no
    fenced block tagged as SQL, so the claim asks for the whole text; the
    code returns [ite\nSELECT 1].  On the example of the claim the reading
    of its words gives [SELECT 1]. *)
Lemma extract_sql_total_counterexample :
  extract_sql fenced_sqlite
  = Return (("ite" : str) ++ nl ++ ("SELECT 1" : str))
  /\ first_tagged_block fenced_sqlite = None
  /\ extract_as_claimed fenced_sqlite = fenced_sqlite
  /\ extract_as_claimed fenced_select_1 = ("SELECT 1" : str).
Proof. vm_compute. repeat split. Qed.

(** C7, amended.  [extract_sql] returns on every text.  When the text
    holds the six characters of the opening mark [```sql], whatever
    follows them, and a closing mark [```] later, the result is what
    stands between the first such opening mark and the nearest closing
    mark, trimmed; otherwise it is the whole text, trimmed.  The output
    [```sql\nSELECT 1\n```] gives [SELECT 1]. *)
Theorem extract_sql_total :
  (forall text,
     (exists out, extract_sql text = Return out)
     /\ (has_marks text ->
         exists pre tag body post,
           first_marks text pre tag body post
           /\ extract_sql text = Return (Str.strip body))
     /\ (~ has_marks text -> extract_sql text = Return (Str.strip text)))
  /\ extract_sql fenced_select_1 = Return ("SELECT 1" : str).
Proof.
  split; [|vm_compute; reflexivity].
  intros text. unfold extract_sql, search.
  destruct (search_from I_S FENCE_RE [] text) as [m|] eqn:S.
  - apply search_from_some in S as (a & b & -> & R & Hn).
    rewrite app_nil_r in R.
    apply fence_run_some in R as (tag & body & post & g1 & -> & E & -> & Hg & Hc).
    split; [eauto|]. split.
    + intros _. exists a, tag, body, post. split; [|now rewrite Hg].
      repeat split; auto. intros a1 a2 -> Ha2 Hf.
      apply (fence_run_none (rev a1 ++ []) _ (Hn a1 a2 eq_refl Ha2)), Hf.
    + intros Hno. exfalso. apply Hno.
      exists a, (tag ++ body ++ ("```" : str) ++ post). split; auto.
      exists tag, body, post; auto.
  - split; [eauto|]. split; [|reflexivity].
    intros (pre & s & -> & Hf). exfalso.
    apply (fence_run_none (rev pre ++ []) s); auto.
    now apply (search_from_none _ _ _ _ S pre s).
Qed.

Lemma extract_sql_total_witness :
  (exists pre tag body post,
     first_marks fenced_select_1 pre tag body post
     /\ extract_sql fenced_select_1 = Return (Str.strip body))
  /\ extract_sql "  SELECT 1 " = Return (Str.strip "  SELECT 1 ").
Proof.
  split.
  - apply (proj1 (proj2 (proj1 extract_sql_total fenced_select_1))).
    exists [], fenced_select_1. split; [reflexivity|].
    exists ("```sql" : str), (nl ++ ("SELECT 1" : str) ++ nl), [].
    split; [reflexivity|]. now apply re_ci_self.
  - apply (proj2 (proj2 (proj1 extract_sql_total "  SELECT 1 "))).
    intros Hf. apply has_marks_search in Hf. vm_compute in Hf. discriminate.
Defined.

(** C9.  [is_select_only] holds exactly when the trimmed, lowercased query
    starts with the six characters [select] and no [;] comes after them;
    so [SELECT 1;] fails, and a text that merely starts with [select],
    such as [selection of rows], passes. *)
Theorem is_select_only_spec :
  (forall q,
     is_select_only q = true <->
     exists rest,
       Str.lower (Str.strip q) = ("select" : str) ++ rest
       /\ ~ In (N_of_ascii ";") rest)
  /\ is_select_only "SELECT 1;" = false
  /\ is_select_only "selection of rows" = true.
Proof.
  split; [|split; vm_compute; reflexivity].
  intros q. unfold is_select_only. cbv zeta.
  rewrite andb_true_iff, negb_true_iff, startswith_iff. split.
  - intros ((rest & E) & H). exists rest. split; auto.
    rewrite E in H. change (Str.slice_from 6 (("select" : str) ++ rest))
      with rest in H.
    intros Hin. apply contains_in in Hin. congruence.
  - intros (rest & E & H). split; [eauto|]. rewrite E.
    change (Str.slice_from 6 (("select" : str) ++ rest)) with rest.
    apply not_found_false. now rewrite contains_in.
Qed.

Lemma is_select_only_spec_witness :
  exists rest,
    Str.lower (Str.strip "  Select name FROM t ") = ("select" : str) ++ rest
    /\ ~ In (N_of_ascii ";") rest.
Proof.
  apply (proj1 (proj1 is_select_only_spec "  Select name FROM t ")).
  vm_compute. reflexivity.
Defined.

(** C10 (the claim as worded fails).  [SELECT 1 LİMİT], written with the
    dotted capital I, is returned by the gate as it is, and does not hold
    LIMIT in any case of its letters. *)
Lemma accepted_statement_invariant_counterexample :
  enforce_read_only select_1_dotted_limit = Return select_1_dotted_limit
  /\ ~ whole_word "LIMIT" select_1_dotted_limit.
Proof.
  split; [vm_compute; reflexivity|].
  intros H. apply (whole_wordb_complete "LIMIT" _ eq_refl) in H.
  vm_compute in H. discriminate.
Qed.

(** C10, amended.  What the gate returns begins, after leading whitespace,
    with the word SELECT and holds LIMIT as a whole word, both in the
    folding of [re.IGNORECASE]; it holds none of the forbidden keywords as
    a whole word, in that folding or in any case of their letters; and it
    holds at most one [;]. *)
Theorem accepted_statement_invariant sql out :
  enforce_read_only sql = Return out ->
  re_begins_with_select out
  /\ re_whole_word "LIMIT" out
  /\ (forall w, In w FORBIDDEN_KEYWORDS -> ~ re_whole_word w out)
  /\ (forall w, In w FORBIDDEN_WORDS -> ~ whole_word w out)
  /\ Str.count ";"%char out <= 1.
Proof.
  intros H. apply gate_output_checks in H as (H1 & H2 & H3 & H4).
  assert (K : forall w, In w FORBIDDEN_KEYWORDS -> ~ re_whole_word w out).
  { intros w Hin Hw. apply (keyword_hit w _ Hin), forbidden_search in Hw.
    congruence. }
  repeat split; auto.
  - now apply select_match.
  - now apply (re_whole_word_search "LIMIT" _ eq_refl).
  - intros w Hin Hw. apply in_map_iff in Hin as (k & <- & Hk).
    apply (K k Hk), whole_word_re; auto.
    now apply forbidden_keywords_letters.
Qed.

Lemma accepted_statement_invariant_witness :
  re_begins_with_select ("select id from t LIMIT 100" : str)
  /\ re_whole_word "LIMIT" ("select id from t LIMIT 100" : str)
  /\ (forall w, In w FORBIDDEN_KEYWORDS ->
        ~ re_whole_word w ("select id from t LIMIT 100" : str))
  /\ (forall w, In w FORBIDDEN_WORDS ->
        ~ whole_word w ("select id from t LIMIT 100" : str))
  /\ Str.count ";"%char ("select id from t LIMIT 100" : str) <= 1.
Proof.
  apply (accepted_statement_invariant "select id from t; ").
  vm_compute. reflexivity.
Defined.

(** ** Beyond the claims: the decision of the gate in full *)

Lemma re_ci_intro w x :
  ci_prefixb w x = true -> List.length x = String.length w -> re_ci w x.
Proof.
  intros H L. apply ci_prefixb_elim in H as (y & rest & E & R & F & _).
  rewrite <- L, firstn_all in F. now subst y.
Qed.

Lemma glued_hit (sep : string) s :
  ci_prefixb sep sep = true ->
  word_after sep = false -> word_before (rev (sep : str)) = false ->
  (sep : str) <> [] ->
  glued sep s -> hit [sep] s.
Proof.
  intros Hs H1 H2 Hne (pre & a & b & post & -> & Ha & Hb).
  exists (pre ++ [a]), (sep : str), (b :: post), sep. repeat split.
  - now rewrite <- app_assoc.
  - now left.
  - now apply re_ci_self.
  - unfold at_boundary. rewrite word_after_app, H1, rev_app_distr by assumption.
    simpl. now rewrite Ha.
  - unfold at_boundary.
    rewrite word_before_app, H2 by now apply rev_nonempty.
    simpl. now rewrite Hb.
Qed.

Lemma forbidden_rule_found sql :
  forbidden_rule sql <-> found (search I FORBIDDEN_RE sql) = true.
Proof.
  rewrite forbidden_search. split.
  - intros [(w & Hin & Hw)|[G|G]].
    + now apply (keyword_hit w).
    + apply (hit_mono [";"]).
      * intros w [<-|[]]. unfold FORBIDDEN_ALTS. apply in_or_app. right.
        simpl. auto.
      * apply glued_hit; auto; discriminate.
    + apply (hit_mono ["$$"]).
      * intros w [<-|[]]. unfold FORBIDDEN_ALTS. apply in_or_app. right.
        simpl. auto.
      * apply glued_hit; auto; discriminate.
  - apply forbidden_hit_cases.
Qed.

Lemma messages_distinct :
  msg_forbidden <> msg_multiple /\ msg_forbidden <> msg_only_select
  /\ msg_multiple <> msg_only_select.
Proof.
  repeat split; intros E; apply (f_equal (@List.length N)) in E;
    vm_compute in E; discriminate.
Qed.

(** X1.  The forbidden-keyword error is raised exactly when one of the
    eleven keywords stands in the text as a whole word, in the folding of
    [re.IGNORECASE], or a [;] or a [$$] is glued between two word
    characters. *)
Theorem forbidden_rule_exact sql :
  enforce_read_only sql = Raise (ValueError msg_forbidden)
  <-> forbidden_rule sql.
Proof.
  split.
  - intros H. apply gate_forbidden in H. now apply forbidden_rule_found.
  - intros H. apply gate_forbidden. now apply forbidden_rule_found.
Qed.

Lemma forbidden_rule_exact_witness :
  enforce_read_only "SELECT 1;SELECT 2" = Raise (ValueError msg_forbidden).
Proof.
  apply (proj2 (forbidden_rule_exact "SELECT 1;SELECT 2")).
  right. left.
  exists ("SELECT " : str), (N_of_ascii "1"), (N_of_ascii "S"), ("ELECT 2" : str).
  repeat split.
Defined.

(** X2.  The gate returns a statement exactly when the forbidden rule does
    not fire, the text holds at most one [;], and it begins, after leading
    whitespace, with the word SELECT in the folding of [re.IGNORECASE]. *)
Theorem gate_acceptance_criterion sql :
  (exists out, enforce_read_only sql = Return out)
  <-> (~ forbidden_rule sql /\ Str.count ";"%char sql <= 1
       /\ re_begins_with_select sql).
Proof.
  rewrite forbidden_rule_found, <- select_match. split.
  - intros (out & H). apply gate_return in H as (Hf & Hc & Hs & _).
    repeat split; auto. congruence.
  - intros (Hf & Hc & Hs). apply not_found_false in Hf.
    unfold enforce_read_only.
    rewrite Hf, Hs. apply Nat.ltb_ge in Hc. rewrite Hc. cbn [negb].
    destruct (found (search I LIMIT_RE sql)); cbn [negb]; eauto.
Qed.

Lemma gate_acceptance_criterion_witness :
  ~ forbidden_rule ("SELECT 1; SELECT 2" : str)
  /\ Str.count ";"%char ("SELECT 1; SELECT 2" : str) <= 1
  /\ re_begins_with_select ("SELECT 1; SELECT 2" : str).
Proof.
  apply (proj1 (gate_acceptance_criterion "SELECT 1; SELECT 2")).
  eexists. vm_compute. reflexivity.
Defined.

(** X3.  The two other refusals.  The multiple-statements message is
    raised exactly when the forbidden rule does not fire and the text
    holds more than one [;]; the only-SELECT message exactly when the
    forbidden rule does not fire, at most one [;] is there, and the text
    does not begin with the word SELECT in the folding of
    [re.IGNORECASE]. *)
Theorem rejection_messages sql :
  (enforce_read_only sql = Raise (ValueError msg_multiple)
   <-> (~ forbidden_rule sql /\ 1 < Str.count ";"%char sql))
  /\ (enforce_read_only sql = Raise (ValueError msg_only_select)
      <-> (~ forbidden_rule sql /\ Str.count ";"%char sql <= 1
           /\ ~ re_begins_with_select sql)).
Proof.
  destruct messages_distinct as (D1 & D2 & D3).
  rewrite forbidden_rule_found, <- select_match.
  unfold enforce_read_only.
  destruct (found (search I FORBIDDEN_RE sql)).
  { split; split; try (intros E; congruence); intros [H _]; congruence. }
  destruct (Nat.ltb 1 (Str.count ";"%char sql)) eqn:Hc.
  { apply Nat.ltb_lt in Hc. split; split.
    - intros _. split; [discriminate|exact Hc].
    - reflexivity.
    - intros E. congruence.
    - intros (_ & Hle & _). lia. }
  apply Nat.ltb_ge in Hc.
  destruct (found (rmatch I SELECT_RE sql)); cbn [negb].
  - split; split.
    + destruct (found (search I LIMIT_RE sql)); discriminate.
    + intros [_ H]. lia.
    + destruct (found (search I LIMIT_RE sql)); discriminate.
    + intros (_ & _ & H). congruence.
  - split; split.
    + intros E. congruence.
    + intros [_ H]. lia.
    + intros _. repeat split; auto; discriminate.
    + reflexivity.
Qed.

Lemma rejection_messages_witness :
  enforce_read_only "SELECT 1; SELECT 2; " = Raise (ValueError msg_multiple)
  /\ enforce_read_only "SHOW TABLES" = Raise (ValueError msg_only_select).
Proof.
  split.
  - apply (proj2 (proj1 (rejection_messages "SELECT 1; SELECT 2; "))).
    split; [|vm_compute; lia].
    intros H. apply forbidden_rule_found in H. vm_compute in H. discriminate.
  - apply (proj2 (proj2 (rejection_messages "SHOW TABLES"))).
    repeat split.
    + intros H. apply forbidden_rule_found in H. vm_compute in H. discriminate.
    + vm_compute. lia.
    + intros H. apply select_match in H. vm_compute in H. discriminate.
Defined.

Lemma count_zero_not_in c s : Str.count c s = 0 <-> ~ In c s.
Proof.
  induction s as [|x s IH]; simpl; [tauto|].
  destruct (N.eqb x c) eqn:E.
  - apply N.eqb_eq in E. split; [discriminate|intros H; exfalso; auto].
  - apply N.eqb_neq in E. simpl. rewrite IH. tauto.
Qed.

(** X4.  When the gate appends the row limit to a text whose last
    non-blank character is [;], the terminator is taken off before the
    limit goes on, and what is returned holds no [;] at all.  The gate
    appends the limit when [\bLIMIT\b] finds nothing. *)
Theorem terminator_removed sql out (p : str) :
  enforce_read_only sql = Return out ->
  ~ re_whole_word "LIMIT" sql ->
  Str.rstrip sql = p ++ (";" : str) ->
  out = p ++ (" LIMIT 100" : str) /\ ~ In (N_of_ascii ";") out.
Proof.
  intros H Hl Hp. apply gate_return in H as (_ & Hc & _ & Ho).
  change LIMIT_RE with (word_re "LIMIT") in Ho.
  destruct (found (search I (word_re "LIMIT") sql)) eqn:El.
  { exfalso. now apply Hl, (re_whole_word_search "LIMIT" _ eq_refl). }
  pose proof (count_rstrip_space_le sql) as Hr. rewrite Hp in Hr.
  rewrite count_app in Hr. change (Str.count ";"%char (";" : str)) with 1 in Hr.
  assert (Hz : Str.count ";"%char p = 0) by lia.
  rewrite rstrip_semi_chop in Ho
    by (rewrite Hp, count_app; change (Str.count ";"%char (";" : str)) with 1;
        lia).
  rewrite Hp in Ho. unfold chop_terminator in Ho.
  rewrite rev_app_distr in Ho. simpl in Ho. rewrite rev_involutive in Ho.
  split; [exact Ho|]. subst out. intros Hin.
  apply in_app_or in Hin as [Hin|Hin].
  - now apply count_zero_not_in in Hz.
  - vm_compute in Hin. intuition discriminate.
Qed.

Lemma terminator_removed_witness :
  ("SELECT * FROM t LIMIT 100" : str)
  = ("SELECT * FROM t" : str) ++ (" LIMIT 100" : str)
  /\ ~ In (N_of_ascii ";") ("SELECT * FROM t LIMIT 100" : str).
Proof.
  apply (terminator_removed "SELECT * FROM t;  "
           "SELECT * FROM t LIMIT 100" "SELECT * FROM t").
  - vm_compute. reflexivity.
  - intros H. apply (re_whole_word_search "LIMIT" _ eq_refl) in H.
    vm_compute in H. discriminate.
  - vm_compute. reflexivity.
Defined.

(** ** Beyond the claims: trimming *)

Lemma lstrip_of_head p s c r : Str.lstrip_of p s = c :: r -> p c = false.
Proof.
  induction s as [|x s IH]; simpl; [discriminate|].
  destruct (p x) eqn:Hx; auto. intros [= <- _]. exact Hx.
Qed.

Lemma lstrip_of_fix p s :
  (forall c r, s = c :: r -> p c = false) -> Str.lstrip_of p s = s.
Proof.
  destruct s as [|x s]; simpl; auto. intros H. now rewrite (H x s eq_refl).
Qed.

Lemma lstrip_of_app_cases p y : forall s,
  Str.lstrip_of p (s ++ y) =
  match Str.lstrip_of p s with
  | [] => Str.lstrip_of p y
  | _ :: _ => Str.lstrip_of p s ++ y
  end.
Proof.
  induction s as [|x s IH]; simpl; auto. destruct (p x); auto.
Qed.

Lemma rstrip_of_last p s r c : Str.rstrip_of p s = r ++ [c] -> p c = false.
Proof.
  unfold Str.rstrip_of. intros E. apply (f_equal (@rev N)) in E.
  rewrite rev_involutive, rev_app_distr in E. simpl in E.
  now apply lstrip_of_head in E.
Qed.

Lemma rstrip_of_fix p s :
  (forall r c, s = r ++ [c] -> p c = false) -> Str.rstrip_of p s = s.
Proof.
  intros H. unfold Str.rstrip_of. rewrite lstrip_of_fix.
  - apply rev_involutive.
  - intros c r E. apply (H (rev r) c).
    rewrite <- (rev_involutive s), E. reflexivity.
Qed.

(** [strip] cuts whitespace off both ends and nothing else. *)
Lemma strip_factor s :
  exists l r, s = l ++ Str.strip s ++ r /\ all_space l /\ all_space r.
Proof.
  destruct (lstrip_of_split Char.isspace s) as (l & E & Hl).
  destruct (rstrip_of_split Char.isspace (Str.lstrip_of Char.isspace s))
    as (r & Er & Hr).
  exists l, r. repeat split; [|now apply all_space_forallb..].
  unfold Str.strip, Str.rstrip. now rewrite <- Er.
Qed.

Lemma strip_trimmed s : trimmed (Str.strip s).
Proof.
  split.
  - intros c r E.
    destruct (rstrip_of_split Char.isspace (Str.lstrip_of Char.isspace s))
      as (t & Er & _).
    unfold Str.strip, Str.rstrip in E. rewrite E in Er. simpl in Er.
    now apply lstrip_of_head in Er.
  - intros r c E. now apply rstrip_of_last in E.
Qed.

Lemma trimmed_strip s : trimmed s -> Str.strip s = s.
Proof.
  intros [H1 H2]. unfold Str.strip, Str.rstrip.
  rewrite (lstrip_of_fix _ _ H1). now apply rstrip_of_fix.
Qed.

Lemma strip_all_space s : all_space s -> Str.strip s = [].
Proof.
  intros H. apply all_space_forallb in H. unfold Str.strip.
  rewrite <- (app_nil_r s), lstrip_of_app; auto.
Qed.

(** ** Beyond the claims: the extracted statement *)

Lemma marks_at_has_marks pre s : marks_at s -> has_marks (pre ++ s).
Proof. intros H. exists pre, s; auto. Qed.

(** The two cases of [extract_sql]. *)
Lemma extract_sql_cases text :
  (exists pre tag body post,
     first_marks text pre tag body post
     /\ extract_sql text = Return (Str.strip body))
  \/ (~ has_marks text /\ extract_sql text = Return (Str.strip text)).
Proof.
  unfold extract_sql, search.
  destruct (search_from I_S FENCE_RE [] text) as [m|] eqn:S.
  - left. apply search_from_some in S as (a & b & -> & R & Hn).
    rewrite app_nil_r in R.
    apply fence_run_some in R as (tag & body & post & g1 & -> & E & -> & Hg & Hc).
    exists a, tag, body, post. split; [|now rewrite Hg].
    repeat split; auto. intros a1 a2 -> Ha2 Hf.
    apply (fence_run_none (rev a1 ++ []) _ (Hn a1 a2 eq_refl Ha2)), Hf.
  - right. split; [|reflexivity].
    intros (pre & s & -> & Hf).
    apply (fence_run_none (rev pre ++ []) s); auto.
    now apply (search_from_none _ _ _ _ S pre s).
Qed.

Lemma first_marks_has_marks text pre tag body post :
  first_marks text pre tag body post -> has_marks text.
Proof.
  intros (-> & E & _). apply marks_at_has_marks. exists tag, body, post; auto.
Qed.

Lemma app_length_inj (A : Type) (a a' b b' : list A) :
  List.length a = List.length a' -> a ++ b = a' ++ b' -> a = a' /\ b = b'.
Proof.
  revert a'; induction a as [|x a IH]; intros [|y a'] L E;
    simpl in *; try discriminate; auto.
  injection E as -> E. injection L as L.
  destruct (IH _ L E) as [-> ->]. auto.
Qed.

(** A text has one first pair of marks at most. *)
Lemma first_marks_unique text pre tag body post pre' tag' body' post' :
  first_marks text pre tag body post ->
  first_marks text pre' tag' body' post' ->
  body = body'.
Proof.
  intros (E & Ht & Hp & Hb) (E' & Ht' & Hp' & Hb'). rewrite E in E'.
  assert (pre = pre'
          /\ tag ++ body ++ ("```" : str) ++ post
             = tag' ++ body' ++ ("```" : str) ++ post') as [-> E2].
  { destruct (app_eq_app_split _ _ _ _ _ E') as [l [[El Hl]|[El Hl]]];
      destruct l as [|c l].
    - rewrite app_nil_r in El. split; [exact El|]. symmetry. exact Hl.
    - exfalso. apply (Hp pre' (c :: l) El); [discriminate|].
      rewrite <- Hl. exists tag', body', post'; auto.
    - rewrite app_nil_r in El. split; [now symmetry|]. exact Hl.
    - exfalso. apply (Hp' pre (c :: l) El); [discriminate|].
      rewrite <- Hl. exists tag, body, post; auto. }
  apply app_length_inj in E2 as [-> E3];
    [|now rewrite (re_ci_length _ _ Ht), (re_ci_length _ _ Ht')].
  destruct (app_eq_app_split _ _ _ _ _ E3) as [l [[El Hl]|[El Hl]]];
    destruct l as [|c l].
  - now rewrite app_nil_r in El.
  - exfalso. specialize (Hb body' (c :: l) El). rewrite <- Hl in Hb.
    rewrite startswith_intro in Hb. discriminate Hb. discriminate.
  - now rewrite app_nil_r in El.
  - exfalso. specialize (Hb' body (c :: l) El). rewrite <- Hl in Hb'.
    rewrite startswith_intro in Hb'. discriminate Hb'. discriminate.
Qed.

Lemma first_marks_result text pre tag body post :
  first_marks text pre tag body post ->
  extract_sql text = Return (Str.strip body).
Proof.
  intros H. destruct (extract_sql_cases text)
    as [(pre' & tag' & body' & post' & H' & R)|[Hn _]].
  - now rewrite (first_marks_unique _ _ _ _ _ _ _ _ _ H H').
  - exfalso. apply Hn. eapply first_marks_has_marks; eauto.
Qed.

Lemma startswith_app_long p : forall x y,
  List.length p <= List.length x ->
  Str.startswith p (x ++ y) = Str.startswith p x.
Proof.
  induction p as [|a p IH]; intros [|c x] y L; simpl in *; auto; try lia.
  rewrite IH; auto. lia.
Qed.

Lemma nearest_close_any_post body post post' :
  nearest_close body post -> nearest_close body post'.
Proof.
  intros H a b E Hb. specialize (H a b E Hb).
  rewrite app_assoc in *.
  rewrite startswith_app_long in *; auto;
    rewrite length_app; destruct b; simpl; try congruence; lia.
Qed.

Lemma first_marks_any_post text pre tag body post post' :
  first_marks text pre tag body post ->
  first_marks (pre ++ tag ++ body ++ ("```" : str) ++ post')
    pre tag body post'.
Proof.
  intros (E & Ht & Hp & Hb). repeat split; auto.
  - intros a b Ea Hne (tag1 & body1 & post1 & E1 & Ht1).
    apply (Hp a b Ea Hne).
    rewrite app_assoc in E1.
    destruct (app_eq_app_split _ _ _ _ _ E1) as [l [[El Hl]|[El Hl]]].
    + exists tag1, (l ++ body), post. split; auto.
      rewrite app_assoc, El, <- !app_assoc. reflexivity.
    + exfalso. apply (f_equal (@List.length N)) in El.
      rewrite !length_app, (re_ci_length _ _ Ht), (re_ci_length _ _ Ht1) in El.
      destruct b; [congruence|simpl in El; lia].
  - now apply (nearest_close_any_post body post).
Qed.

Lemma nearest_close_no_mark body post a r :
  nearest_close body post -> body <> a ++ ("```" : str) ++ r.
Proof.
  intros H E. specialize (H a (("```" : str) ++ r) E).
  rewrite <- app_assoc, startswith_intro in H.
  discriminate H. discriminate.
Qed.

(** X5.  What stands around the first pair of marks is dropped: whatever
    comes before the opening mark [```sql] or after the nearest closing
    mark [```], the result is what stands between the two, trimmed;
    replacing what follows the closing mark changes nothing. *)
Theorem fence_tail_ignored (text pre tag body post post' : str) :
  first_marks text pre tag body post ->
  extract_sql text = Return (Str.strip body)
  /\ extract_sql (pre ++ tag ++ body ++ ("```" : str) ++ post')
     = Return (Str.strip body).
Proof.
  intros H. split.
  - now apply (first_marks_result _ _ _ _ _ H).
  - apply (first_marks_result _ pre tag body post').
    now apply (first_marks_any_post text pre tag body post).
Qed.

Lemma no_close_in_sound body post :
  no_close_in body post = true -> nearest_close body post.
Proof.
  induction body as [|c body IH]; intros H a b E Hne.
  - symmetry in E. apply app_eq_nil in E as [_ ->]. congruence.
  - simpl in H. apply andb_true_iff in H as [H1 H2].
    destruct a as [|x a]; simpl in E.
    + subst b. now apply negb_true_iff in H1.
    + injection E as _ E. now apply (IH H2 a b).
Qed.

Lemma no_marks_in_sound pre rest :
  no_marks_in pre rest = true ->
  forall a b, pre = a ++ b -> b <> [] -> ~ marks_at (b ++ rest).
Proof.
  induction pre as [|c pre IH]; intros H a b E Hne.
  - symmetry in E. apply app_eq_nil in E as [_ ->]. congruence.
  - cbn [no_marks_in] in H. apply andb_true_iff in H as [H1 H2].
    destruct a as [|x a]; simpl in E.
    + subst b. apply (fence_run_none []).
      apply negb_true_iff in H1.
      destruct (run I_S FENCE_RE accept [] ((c :: pre) ++ rest) None);
        [discriminate H1|reflexivity].
    + injection E as _ E. now apply (IH H2 a b).
Qed.

Lemma fence_tail_ignored_witness :
  extract_sql "Here: ```SQL select 1 ``` hope it helps"
  = Return (Str.strip " select 1 ")
  /\ extract_sql (("Here: " : str) ++ ("```SQL" : str) ++ (" select 1 " : str)
                  ++ ("```" : str) ++ ("```sql DROP TABLE t```" : str))
     = Return (Str.strip " select 1 ").
Proof.
  apply (fence_tail_ignored "Here: ```SQL select 1 ``` hope it helps"
           "Here: " "```SQL" " select 1 " " hope it helps"
           "```sql DROP TABLE t```").
  split; [reflexivity|]. split; [now apply re_ci_intro|]. split.
  - apply no_marks_in_sound. vm_compute. reflexivity.
  - apply no_close_in_sound. vm_compute. reflexivity.
Defined.

Lemma has_marks_widen l s r : has_marks s -> has_marks (l ++ s ++ r).
Proof.
  intros (pre & s0 & -> & tag & body & post & -> & E).
  exists (l ++ pre), (tag ++ body ++ ("```" : str) ++ post ++ r). split.
  - now rewrite <- !app_assoc.
  - exists tag, body, (post ++ r). auto.
Qed.

Lemma has_marks_mark s :
  has_marks s -> exists a r, s = a ++ ("```" : str) ++ r.
Proof.
  intros (pre & s0 & -> & tag & body & post & -> & E).
  exists (pre ++ tag ++ body), post. now rewrite <- !app_assoc.
Qed.

Lemma strip_no_mark body post :
  nearest_close body post ->
  forall a r, Str.strip body <> a ++ ("```" : str) ++ r.
Proof.
  intros Hc a r E. destruct (strip_factor body) as (l & r0 & Eb & _).
  rewrite E in Eb.
  apply (nearest_close_no_mark body post (l ++ a) (r ++ r0) Hc).
  rewrite Eb, <- !app_assoc. reflexivity.
Qed.

Lemma strip_no_marks text : ~ has_marks text -> ~ has_marks (Str.strip text).
Proof.
  intros Hn Hf. apply Hn. destruct (strip_factor text) as (l & r & E & _).
  rewrite E. now apply has_marks_widen.
Qed.

Lemma extract_sql_trimmed text out :
  extract_sql text = Return out -> trimmed out /\ ~ has_marks out.
Proof.
  intros H.
  destruct (extract_sql_cases text)
    as [(pre & tag & body & post & (_ & _ & _ & Hc) & R)|[Hn R]];
    rewrite R in H; injection H as <-; (split; [apply strip_trimmed|]).
  - intros Hf. apply has_marks_mark in Hf as (a & r & E).
    now apply (strip_no_mark body post Hc a r).
  - now apply strip_no_marks.
Qed.

(** X6.  What [extract_sql] returns has no whitespace at either end and
    holds no opening mark [```sql] with a closing mark after it; when it
    was cut out from between two marks it holds no [```] at all. *)
Theorem extract_sql_result_clean text out :
  extract_sql text = Return out ->
  trimmed out /\ ~ has_marks out
  /\ (has_marks text -> forall a r, out <> a ++ ("```" : str) ++ r).
Proof.
  intros H.
  destruct (extract_sql_cases text)
    as [(pre & tag & body & post & (_ & _ & _ & Hc) & R)|[Hn R]];
    rewrite R in H; injection H as <-.
  - pose proof (strip_no_mark body post Hc) as Hm.
    split; [apply strip_trimmed|]. split; auto.
    intros Hf. apply has_marks_mark in Hf as (a & r & E). now apply (Hm a r).
  - split; [apply strip_trimmed|]. split; [|contradiction].
    now apply strip_no_marks.
Qed.

Lemma extract_sql_result_clean_witness :
  trimmed ("SELECT 1" : str) /\ ~ has_marks ("SELECT 1" : str)
  /\ (has_marks fenced_select_1 ->
      forall a r, ("SELECT 1" : str) <> a ++ ("```" : str) ++ r).
Proof.
  apply (extract_sql_result_clean fenced_select_1 "SELECT 1").
  vm_compute. reflexivity.
Defined.

(** X7.  [extract_sql] is idempotent: run on its own result, it returns
    it unchanged. *)
Theorem extract_sql_idempotent text out :
  extract_sql text = Return out -> extract_sql out = Return out.
Proof.
  intros H. apply extract_sql_trimmed in H as (Ht & Hn).
  destruct (extract_sql_cases out) as [(p & t & b & q & Hb & _)|[_ R]].
  - exfalso. apply Hn. eapply first_marks_has_marks; eauto.
  - now rewrite R, trimmed_strip.
Qed.

Lemma extract_sql_idempotent_witness :
  extract_sql "SELECT 1" = Return ("SELECT 1" : str).
Proof.
  apply (extract_sql_idempotent fenced_select_1). vm_compute. reflexivity.
Defined.

(** ** Beyond the claims: the lower-case form, piece by piece *)

Lemma lower_table_facts :
  forallb (fun p => negb (N.eqb (snd p) (N_of_ascii ";"))
                    && negb (Char.isspace (snd p))
                    && negb (N.eqb (snd p) Char.capital_sigma)
                    && negb (N.eqb (snd p) Char.capital_i_dot)
                    && N.eqb (Char.tolower (snd p)) (snd p))
    Char.lower_pairs = true.
Proof. vm_compute. reflexivity. Qed.

(** What the lower-case mapping puts for another character is no [;], no
    whitespace, and is left alone by [str.lower]. *)
Lemma lower_pair_facts c d :
  In (c, d) Char.lower_pairs ->
  d <> N_of_ascii ";" /\ Char.isspace d = false /\ plain_lower d = Some d.
Proof.
  intros H. pose proof lower_table_facts as T. rewrite forallb_forall in T.
  specialize (T _ H). cbn [snd] in T.
  apply andb_true_iff in T as [T H5]. apply andb_true_iff in T as [T H4].
  apply andb_true_iff in T as [T H3]. apply andb_true_iff in T as [H1 H2].
  apply negb_true_iff in H1, H2, H3, H4. apply N.eqb_neq in H1.
  apply N.eqb_eq in H5. repeat split; auto.
  unfold plain_lower. now rewrite H3, H4, H5.
Qed.

Lemma lower_piece_cases pre c rest :
  Str.lower_piece pre c rest = [Char.final_sigma]
  \/ Str.lower_piece pre c rest = [Char.small_sigma]
  \/ Str.lower_piece pre c rest = [105%N; Char.combining_dot]
  \/ (plain_lower c = Some (Char.tolower c)
      /\ Str.lower_piece pre c rest = [Char.tolower c]).
Proof.
  unfold Str.lower_piece, plain_lower.
  destruct (N.eqb c Char.capital_sigma).
  { destruct (Str.cased_before pre && Str.uncased_after rest); auto. }
  destruct (N.eqb c Char.capital_i_dot); auto 6.
Qed.

Lemma piece_semi pre c rest :
  In (N_of_ascii ";") (Str.lower_piece pre c rest) <-> c = N_of_ascii ";".
Proof.
  split.
  - destruct (lower_piece_cases pre c rest) as [E|[E|[E|[_ E]]]]; rewrite E;
      try (intros H; vm_compute in H; intuition discriminate).
    intros [H|[]]. destruct (tolower_cases c) as [T|T]; [congruence|].
    apply lower_pair_facts in T as [T _]. congruence.
  - intros ->. now left.
Qed.

Lemma in_lower_semi s : forall pre,
  In (N_of_ascii ";") (Str.lower_from pre s) <-> In (N_of_ascii ";") s.
Proof.
  induction s as [|c s IH]; intros pre; simpl; [tauto|].
  rewrite in_app_iff, piece_semi, IH. intuition.
Qed.

(** The lower-case form is made of characters that [str.lower] leaves
    alone. *)
Lemma piece_stable pre c rest :
  Forall (fun y => plain_lower y = Some y) (Str.lower_piece pre c rest).
Proof.
  destruct (lower_piece_cases pre c rest) as [E|[E|[E|[P E]]]]; rewrite E;
    try (repeat constructor).
  destruct (tolower_cases c) as [T|T].
  - now rewrite T in *.
  - now apply lower_pair_facts in T.
Qed.

Lemma lower_from_stable s : forall pre,
  Forall (fun y => plain_lower y = Some y) (Str.lower_from pre s).
Proof.
  induction s as [|c s IH]; intros pre; simpl; [constructor|].
  apply Forall_app. split; [apply piece_stable|apply IH].
Qed.

Lemma lower_from_fixed t :
  Forall (fun y => plain_lower y = Some y) t ->
  forall pre, Str.lower_from pre t = t.
Proof.
  induction 1 as [|y t Hy _ IH]; intros pre; simpl; [reflexivity|].
  rewrite (plain_lower_piece _ _ _ _ Hy). simpl. now rewrite IH.
Qed.

Lemma str_lower_idem s : Str.lower (Str.lower s) = Str.lower s.
Proof. apply lower_from_fixed, lower_from_stable. Qed.

(** Whitespace is left alone, and does not count in the test of the final
    sigma. *)
Lemma space_plain c : Char.isspace c = true -> plain_lower c = Some c.
Proof.
  intros H. apply space_facts in H as (_ & _ & _ & T & S & D & _).
  unfold plain_lower. apply N.eqb_neq in S, D. now rewrite S, D, T.
Qed.

Lemma cased_before_space pre ws :
  all_space ws -> Str.cased_before (pre ++ ws) = Str.cased_before pre.
Proof.
  intros H. induction pre as [|c pre IH]; simpl.
  - destruct H as [|c ws Hc _]; [reflexivity|]. simpl.
    apply space_facts in Hc as (_ & -> & -> & _). reflexivity.
  - now rewrite IH.
Qed.

Lemma uncased_after_space rest ws :
  all_space ws -> Str.uncased_after (rest ++ ws) = Str.uncased_after rest.
Proof.
  intros H. induction rest as [|c rest IH]; simpl.
  - destruct H as [|c ws Hc _]; [reflexivity|]. simpl.
    apply space_facts in Hc as (_ & -> & -> & _). reflexivity.
  - now rewrite IH.
Qed.

Lemma lower_from_space ws :
  all_space ws -> forall pre, Str.lower_from pre ws = ws.
Proof.
  intros H. apply lower_from_fixed. unfold all_space in H.
  rewrite Forall_forall in *. intros c Hc. now apply space_plain, H.
Qed.

Lemma lower_from_far ws : all_space ws -> forall s pre,
  Str.lower_from (pre ++ ws) s = Str.lower_from pre s.
Proof.
  intros H. induction s as [|c s IH]; intros pre; simpl; [reflexivity|].
  change (c :: pre ++ ws) with ((c :: pre) ++ ws). rewrite IH. f_equal.
  unfold Str.lower_piece. now rewrite cased_before_space.
Qed.

Lemma lower_from_tail ws : all_space ws -> forall s pre,
  Str.lower_from pre (s ++ ws) = Str.lower_from pre s ++ ws.
Proof.
  intros H. induction s as [|c s IH]; intros pre; simpl.
  - now apply lower_from_space.
  - rewrite IH, <- app_assoc. f_equal.
    unfold Str.lower_piece. now rewrite uncased_after_space.
Qed.

Lemma lower_pad l t r :
  all_space l -> all_space r ->
  Str.lower (l ++ t ++ r) = l ++ Str.lower t ++ r.
Proof.
  intros Hl Hr. unfold Str.lower.
  rewrite (plain_lower_app l l).
  - f_equal. rewrite app_nil_r.
    rewrite <- (app_nil_l (rev l)), lower_from_far by now apply Forall_rev.
    now apply lower_from_tail.
  - unfold all_space in Hl. induction Hl; constructor; auto.
    now apply space_plain.
Qed.

Lemma piece_not_space pre c rest :
  Char.isspace c = false ->
  Forall (fun y => Char.isspace y = false) (Str.lower_piece pre c rest).
Proof.
  intros H.
  destruct (lower_piece_cases pre c rest) as [E|[E|[E|[_ E]]]]; rewrite E;
    try (repeat constructor).
  destruct (tolower_cases c) as [T|T]; [congruence|].
  now apply lower_pair_facts in T.
Qed.

Lemma piece_nonempty pre c rest : Str.lower_piece pre c rest <> [].
Proof.
  destruct (lower_piece_cases pre c rest) as [E|[E|[E|[_ E]]]]; rewrite E;
    discriminate.
Qed.

Lemma lower_from_last a c : forall pre,
  exists S,
    Str.lower_from pre (a ++ [c])
    = S ++ Str.lower_piece (rev a ++ pre) c [].
Proof.
  induction a as [|x a IH]; intros pre; simpl.
  - exists []. now rewrite app_nil_r.
  - destruct (IH (x :: pre)) as (S & E). rewrite E.
    exists (Str.lower_piece pre x (a ++ [c]) ++ S).
    now rewrite <- !app_assoc.
Qed.

Lemma trimmed_lower t : trimmed t -> trimmed (Str.lower t).
Proof.
  intros [H1 H2]. split.
  - intros c' r' E. destruct t as [|c t]; [discriminate|].
    unfold Str.lower in E. simpl in E.
    pose proof (piece_not_space [] c t (H1 c t eq_refl)) as F.
    pose proof (piece_nonempty [] c t) as Hn.
    destruct (Str.lower_piece [] c t) as [|h p]; [congruence|].
    injection E as <- _. now inversion F.
  - intros r' c' E.
    destruct (exists_last (l := t)) as (a & c & ->).
    { intros ->. destruct r'; discriminate. }
    unfold Str.lower in E. destruct (lower_from_last a c []) as (S & L).
    rewrite L in E.
    pose proof (piece_not_space (rev a ++ []) c [] (H2 a c eq_refl)) as F.
    destruct (exists_last (piece_nonempty (rev a ++ []) c [])) as (P & z & Ez).
    rewrite Ez in E, F. rewrite app_assoc in E.
    apply app_inj_tail in E as [_ <-].
    apply Forall_app in F as [_ F]. now inversion F.
Qed.

Lemma rstrip_of_app_strip p s r :
  forallb p r = true -> Str.rstrip_of p (s ++ r) = Str.rstrip_of p s.
Proof.
  intros H. unfold Str.rstrip_of. rewrite rev_app_distr, lstrip_of_app; auto.
  rewrite forallb_forall in *. intros c Hc. apply H. now apply in_rev.
Qed.

Lemma strip_pad l q r :
  all_space l -> all_space r -> Str.strip (l ++ q ++ r) = Str.strip q.
Proof.
  intros Hl Hr. apply all_space_forallb in Hl, Hr. unfold Str.strip.
  rewrite lstrip_of_app by assumption. rewrite lstrip_of_app_cases.
  destruct (Str.lstrip_of Char.isspace q) as [|c q'] eqn:E.
  - rewrite <- (app_nil_r r), lstrip_of_app; auto.
  - unfold Str.rstrip. now apply rstrip_of_app_strip.
Qed.

(** Trimming and lower-casing commute. *)
Lemma strip_lower s : Str.strip (Str.lower s) = Str.lower (Str.strip s).
Proof.
  destruct (strip_factor s) as (l & r & E & Hl & Hr).
  rewrite E at 1. rewrite lower_pad, strip_pad by assumption.
  apply trimmed_strip, trimmed_lower, strip_trimmed.
Qed.

(** ** Beyond the claims: the light guardrail *)

Lemma all_space_no_semi ws : all_space ws -> ~ In (N_of_ascii ";") ws.
Proof.
  unfold all_space. rewrite Forall_forall. intros H Hin.
  specialize (H _ Hin). discriminate H.
Qed.

Lemma guard_no_separator q :
  is_select_only q = true -> ~ In (N_of_ascii ";") q.
Proof.
  unfold is_select_only. cbv zeta. intros H Hin.
  apply andb_true_iff in H as [Hs Hc]. apply negb_true_iff in Hc.
  apply startswith_elim in Hs as (rest & E). rewrite E in Hc.
  change (Str.slice_from 6 (("select" : str) ++ rest)) with rest in Hc.
  destruct (strip_factor q) as (l & r & Eq & Hl & Hr). rewrite Eq in Hin.
  apply in_app_or in Hin as [Hin|Hin]; [now apply (all_space_no_semi l)|].
  apply in_app_or in Hin as [Hin|Hin]; [|now apply (all_space_no_semi r)].
  apply (in_lower_semi _ []) in Hin. fold (Str.lower (Str.strip q)) in Hin.
  rewrite E in Hin. apply in_app_or in Hin as [Hin|Hin].
  - vm_compute in Hin. intuition discriminate.
  - apply contains_in in Hin. congruence.
Qed.

Lemma wordy_ends_not_space x :
  wordy x ->
  (forall c r, x = c :: r -> Char.isspace c = false)
  /\ (forall r c, x = r ++ [c] -> Char.isspace c = false).
Proof.
  intros [H1 H2]. split.
  - intros c r ->. simpl in H1. destruct (Char.isspace c) eqn:E; auto.
    apply space_not_word in E. congruence.
  - intros r c ->. rewrite rev_app_distr in H2. simpl in H2.
    destruct (Char.isspace c) eqn:E; auto.
    apply space_not_word in E. congruence.
Qed.

(** On a text that begins with the word SELECT, the trimmed text begins
    with that word too. *)
Lemma strip_begins_with_select s ws x rest :
  s = ws ++ x ++ rest -> all_space ws -> re_ci "SELECT" x ->
  exists l, Str.strip s = x ++ l /\ exists t, rest = l ++ t.
Proof.
  intros -> Hws Hci.
  pose proof (re_ci_wordy "SELECT" x eq_refl Hci) as Hx.
  destruct (wordy_ends_not_space x Hx) as [Hh Hl].
  pose proof (wordy_nonempty _ Hx) as Hne.
  unfold Str.strip. rewrite lstrip_of_app by now apply all_space_forallb.
  rewrite lstrip_of_fix.
  2:{ intros c r E. destruct x as [|c0 x]; [congruence|].
      injection E as <- _. now apply (Hh c0 x). }
  destruct (rstrip_of_split Char.isspace (x ++ rest)) as (t & E & Ht).
  fold (Str.rstrip (x ++ rest)) in E.
  destruct (app_eq_app_split _ _ _ _ _ E) as [l [[El Et]|[El Et]]].
  - destruct (rev l) as [|c l0] eqn:Er.
    + apply (f_equal (@rev N)) in Er. rewrite rev_involutive in Er.
      simpl in Er. subst l. rewrite app_nil_r in El. simpl in Et.
      exists []. rewrite app_nil_r. split; [now symmetry|].
      exists t. now subst.
    + exfalso. apply (f_equal (@rev N)) in Er.
      rewrite rev_involutive in Er. simpl in Er. subst l.
      rewrite forallb_forall in Ht.
      assert (Hc : Char.isspace c = true).
      { apply Ht. rewrite Et. apply in_or_app. left.
        apply in_or_app. right. now left. }
      rewrite app_assoc in El. rewrite (Hl _ _ El) in Hc. discriminate.
  - exists l. split; [exact El|]. exists t. exact Et.
Qed.

Lemma guard_on_select s :
  begins_with_select s -> ~ In (N_of_ascii ";") s -> is_select_only s = true.
Proof.
  intros (ws & x & rest & E & Hws & Hci & _) Hno.
  pose proof (ci_eq_plain "SELECT" x eq_refl Hci) as P.
  change (Str.lower ("SELECT" : str)) with ("select" : str) in P.
  destruct (strip_begins_with_select s ws x rest E Hws
              (ci_eq_re_ci "SELECT" x eq_refl Hci)) as (l & Es & t & Et).
  unfold is_select_only. cbv zeta. rewrite Es. unfold Str.lower.
  rewrite (plain_lower_app _ _ P), startswith_intro.
  change (Str.slice_from 6 (("select" : str) ++ Str.lower_from (rev x ++ []) l))
    with (Str.lower_from (rev x ++ []) l).
  apply negb_true_iff, not_found_false. rewrite contains_in, in_lower_semi.
  intros Hin. apply Hno. rewrite E, Et.
  apply in_or_app. right. apply in_or_app. right.
  apply in_or_app. now left.
Qed.

(** X8.  The light guardrail lets no [;] through, wherever it stands in
    the query; and on a text that begins, after leading whitespace, with
    the word SELECT it accepts exactly the texts without [;]. *)
Theorem guard_accepts_no_separator q :
  (is_select_only q = true -> ~ In (N_of_ascii ";") q)
  /\ (begins_with_select q ->
      (is_select_only q = true <-> ~ In (N_of_ascii ";") q)).
Proof.
  split; [apply guard_no_separator|].
  intros H. split; [apply guard_no_separator|now apply guard_on_select].
Qed.

Lemma guard_accepts_no_separator_witness :
  ~ In (N_of_ascii ";") ("  Select name FROM t " : str)
  /\ is_select_only "select 1 -- no terminator" = true.
Proof.
  split.
  - apply (proj1 (guard_accepts_no_separator "  Select name FROM t ")).
    vm_compute. reflexivity.
  - apply (proj2 (guard_accepts_no_separator "select 1 -- no terminator")).
    + exists [], ("select" : str), (" 1 -- no terminator" : str).
      split; [reflexivity|]. split; [constructor|]. split; [reflexivity|].
      intros c q [= <- _]. reflexivity.
    + intros H. vm_compute in H. intuition discriminate.
Defined.

(** ** Beyond the claims: the helpers and the callers *)

(** X10.  The preview statement that [sample_rows] sends to the database
    ends in [;], so the guardrail of the same module refuses it, whatever
    the table and the limit. *)
Theorem sample_rows_refused_by_guard table limit :
  is_select_only (sample_rows_sql table limit) = false.
Proof.
  set (T := (" * FROM " : str) ++ table ++ (" LIMIT " : str)
            ++ str_of_int limit).
  assert (E : sample_rows_sql table limit
              = ("SELECT" : str) ++ T ++ [N_of_ascii ";"]).
  { unfold sample_rows_sql, T. now rewrite <- !app_assoc. }
  unfold is_select_only. cbv zeta. rewrite trimmed_strip.
  - rewrite E. unfold Str.lower.
    rewrite (plain_lower_app ("select" : str) ("SELECT" : str))
      by (repeat constructor).
    rewrite startswith_intro.
    set (L := Str.lower_from _ _).
    change (Str.slice_from 6 (("select" : str) ++ L)) with L. subst L.
    apply negb_false_iff, contains_in, in_lower_semi, in_or_app.
    right. now left.
  - rewrite E. split.
    + intros c r [= <- _]. reflexivity.
    + intros r c Er. rewrite app_assoc in Er.
      apply app_inj_tail in Er as [_ <-]. reflexivity.
Qed.

Lemma split_pieces sep : forall s, Str.split sep s <> [].
Proof.
  induction s as [|c s IH]; simpl; [discriminate|].
  destruct (N.eqb c sep); [discriminate|].
  destruct (Str.split sep s); [contradiction|discriminate].
Qed.

Lemma split_no_sep sep : forall s piece,
  In piece (Str.split sep s) -> ~ In sep piece.
Proof.
  induction s as [|c s IH]; intros piece Hin; simpl in Hin.
  - destruct Hin as [<-|[]]. auto.
  - destruct (N.eqb c sep) eqn:Ec.
    + destruct Hin as [<-|Hin]; auto.
    + apply N.eqb_neq in Ec.
      destruct (Str.split sep s) as [|p ps] eqn:Es.
      * destruct Hin as [<-|[]]. intros [->|[]]. congruence.
      * destruct Hin as [<-|Hin].
        -- intros [->|Hp]; [congruence|]. apply (IH p); simpl; auto.
        -- apply IH. simpl. auto.
Qed.

Lemma truthy_strip_not_blank q : Str.truthy (Str.strip q) = true -> not_blank q.
Proof.
  intros H. destruct (Str.strip q) as [|c r] eqn:E; [discriminate|].
  exists c. split.
  - destruct (strip_factor q) as (l & r0 & Eq & _). rewrite Eq, E.
    apply in_or_app. right. now left.
  - pose proof (strip_trimmed q) as [Ht _]. rewrite E in Ht.
    now apply (Ht c r).
Qed.

(** X11.  Every query that [suggest_queries] returns holds a non-blank
    character and no newline; a reply of the model made of whitespace
    only gives no suggestion. *)
Theorem suggest_queries_lines
        (co_generate : str -> str -> nat -> Decimal.decimal -> str)
        (schema_text : str) :
  (forall q, In q (suggest_queries co_generate schema_text) ->
             not_blank q /\ ~ In Char.newline q)
  /\ ((forall model prompt n t, all_space (co_generate model prompt n t)) ->
      suggest_queries co_generate schema_text = []).
Proof.
  unfold suggest_queries. cbv zeta. split.
  - intros q Hin. apply filter_In in Hin as [Hin Hq]. split.
    + now apply truthy_strip_not_blank.
    + now apply (split_no_sep _ _ _ Hin).
  - intros H. rewrite strip_all_space by apply H. reflexivity.
Qed.

Lemma suggest_queries_lines_witness :
  let reply : str :=
    ("  SELECT a FROM t" : str) ++ nl ++ (" " : str) ++ nl
    ++ ("SELECT b FROM t " : str) ++ nl in
  (not_blank ("SELECT b FROM t" : str)
   /\ ~ In Char.newline ("SELECT b FROM t" : str))
  /\ suggest_queries (fun _ _ _ _ => (" " : str) ++ nl) "t: a (INT)" = [].
Proof.
  intros reply. split.
  - apply (proj1 (suggest_queries_lines (fun _ _ _ _ => reply) "t: a (INT)")).
    vm_compute. auto.
  - apply (proj2 (suggest_queries_lines (fun _ _ _ _ => (" " : str) ++ nl)
                    "t: a (INT)")).
    intros _ _ _ _. repeat constructor.
Defined.

Lemma gate_output_head sql out :
  trimmed sql -> enforce_read_only sql = Return out ->
  exists x rest, out = x ++ rest /\ re_ci "SELECT" x.
Proof.
  intros [Hh _] H.
  pose proof (gate_output_checks _ _ H) as (_ & _ & Ho & _).
  apply select_match in Ho as (ws & x & rest & E & Hws & Hci & _).
  assert (Hw : ws = []).
  { destruct ws as [|c ws]; auto. exfalso.
    inversion Hws as [|? ? Hc _]; subst.
    apply gate_return in H as (_ & _ & Hs & Hl).
    destruct (found (search I LIMIT_RE sql)).
    - rewrite <- Hl in Hh. simpl in Hh.
      rewrite (Hh c _ eq_refl) in Hc. discriminate.
    - destruct (gate_tail sql) as (t & Et & Ht).
      destruct (Str.rstrip_chars ";" (Str.rstrip sql)) as [|d p] eqn:Ep.
      + apply select_match in Hs as (ws' & x' & rest' & E' & _ & Hci' & _).
        simpl in Et. subst t.
        pose proof (re_ci_wordy "SELECT" _ eq_refl Hci') as Hx'.
        destruct (rev x') as [|e x0] eqn:Er;
          [now apply (rev_nonempty _ _ (wordy_nonempty _ Hx'))|].
        destruct Hx' as [_ Hx']. rewrite Er in Hx'. simpl in Hx'.
        apply (f_equal (@rev N)) in Er. rewrite rev_involutive in Er.
        simpl in Er. subst x'. rewrite Forall_forall in Ht.
        rewrite Ht in Hx'; [discriminate|]. rewrite E'.
        apply in_or_app. right. apply in_or_app. left.
        apply in_or_app. right. now left.
      + simpl in Hl, Et. injection Hl as <- _.
        rewrite (Hh c _ Et) in Hc. discriminate. }
  subst ws. simpl in E. eauto.
Qed.

Lemma gate_errors sql e :
  enforce_read_only sql = Raise e ->
  e = ValueError msg_forbidden \/ e = ValueError msg_multiple
  \/ e = ValueError msg_only_select.
Proof.
  unfold enforce_read_only.
  destruct (found (search I FORBIDDEN_RE sql)); [intros [= <-]; auto|].
  destruct (Nat.ltb 1 (Str.count ";"%char sql)); [intros [= <-]; auto|].
  destruct (found (rmatch I SELECT_RE sql)); cbn [negb];
    [|intros [= <-]; auto].
  destruct (found (search I LIMIT_RE sql)); discriminate.
Qed.

Lemma gate_output_clean sql out :
  enforce_read_only sql = Return out ->
  re_whole_word "LIMIT" out
  /\ (forall w, In w FORBIDDEN_KEYWORDS -> ~ re_whole_word w out)
  /\ (forall w, In w FORBIDDEN_WORDS -> ~ whole_word w out)
  /\ Str.count ";"%char out <= 1.
Proof.
  intros H. apply gate_output_checks in H as (H1 & H2 & H3 & H4).
  assert (K : forall w, In w FORBIDDEN_KEYWORDS -> ~ re_whole_word w out).
  { intros w Hin Hw. apply (keyword_hit w _ Hin), forbidden_search in Hw.
    congruence. }
  repeat split; auto.
  - now apply (re_whole_word_search "LIMIT" _ eq_refl).
  - intros w Hin Hw. apply in_map_iff in Hin as (k & <- & Hk).
    apply (K k Hk), whole_word_re; auto.
    now apply forbidden_keywords_letters.
Qed.

(** X12.  The Ask Questions page, whatever the model replies: either one
    of the three refusals of the gate is raised, or the statement handed
    to the executor starts, with no whitespace before them, with six
    characters that [re.IGNORECASE] takes for SELECT, holds LIMIT as a
    whole word in that folding, holds no forbidden keyword as a whole
    word and holds at most one [;]. *)
Theorem checked_sql_safe
        (co_generate : str -> str -> nat -> Decimal.decimal -> str)
        (question schema_text : str) :
  match checked_sql co_generate question schema_text with
  | Return sql =>
      (exists x rest, sql = x ++ rest /\ re_ci "SELECT" x)
      /\ re_whole_word "LIMIT" sql
      /\ (forall w, In w FORBIDDEN_KEYWORDS -> ~ re_whole_word w sql)
      /\ (forall w, In w FORBIDDEN_WORDS -> ~ whole_word w sql)
      /\ Str.count ";"%char sql <= 1
  | Raise e =>
      e = ValueError msg_forbidden \/ e = ValueError msg_multiple
      \/ e = ValueError msg_only_select
  end.
Proof.
  unfold checked_sql, generate_sql_cohere. cbv zeta.
  set (reply := co_generate _ _ _ _).
  destruct (extract_sql reply) as [s|e] eqn:Ex.
  2:{ exfalso. destruct (extract_sql_cases reply)
        as [(? & ? & ? & ? & _ & R)|[_ R]]; congruence. }
  apply extract_sql_trimmed in Ex as (Ht & _). cbn [bind].
  destruct (enforce_read_only s) as [out|e] eqn:Eg.
  - split; [now apply (gate_output_head s)|].
    now apply (gate_output_clean s).
  - now apply (gate_errors s).
Qed.

(** ** Beyond the claims: case and surrounding whitespace *)

(** X13.  The light guardrail looks at neither the case of the letters
    nor the whitespace around the query. *)
Theorem guard_ignores_case_and_padding q :
  is_select_only (Str.lower q) = is_select_only q
  /\ (forall l r, all_space l -> all_space r ->
        is_select_only (l ++ q ++ r) = is_select_only q).
Proof.
  unfold is_select_only. cbv zeta. split.
  - now rewrite strip_lower, str_lower_idem.
  - intros l r Hl Hr. now rewrite strip_pad.
Qed.

Lemma guard_ignores_case_and_padding_witness :
  is_select_only ((" " : str) ++ ("Select 1" : str) ++ nl)
  = is_select_only "Select 1".
Proof.
  apply (proj2 (guard_ignores_case_and_padding "Select 1") " " nl);
    repeat constructor.
Defined.

(** ** Beyond the claims: texts written in ASCII *)

Lemma below_128 y : (y < 128)%N -> In y (map N.of_nat (seq 0 128)).
Proof.
  intros H. apply in_map_iff. exists (N.to_nat y). split.
  - apply N2Nat.id.
  - apply in_seq. lia.
Qed.

Lemma every_ascii c : In c (map ascii_of_nat (seq 0 256)).
Proof.
  apply in_map_iff. exists (nat_of_ascii c). split.
  - apply ascii_nat_embedding.
  - apply in_seq. pose proof (nat_ascii_bounded c). lia.
Qed.

Lemma ascii_fold_table :
  forallb (fun c =>
             negb (Char.iscased c)
             || forallb (fun y =>
                           negb (lit_ok true c y)
                           || match plain_lower y with
                              | Some d => N.eqb d (Char.tolower c)
                              | None => false
                              end)
                  (map N.of_nat (seq 0 128)))
    (map ascii_of_nat (seq 0 256)) = true.
Proof. vm_compute. reflexivity. Qed.

(** On a character of ASCII, a letter of a pattern accepts exactly its two
    cases. *)
Lemma lit_ok_ascii c y :
  Char.iscased c = true -> (y < 128)%N -> lit_ok true c y = true ->
  plain_lower y = Some (Char.tolower c).
Proof.
  intros Hc Hy H. pose proof ascii_fold_table as T.
  rewrite forallb_forall in T. specialize (T c (every_ascii c)).
  rewrite Hc in T. cbn [negb orb] in T. rewrite forallb_forall in T.
  specialize (T y (below_128 y Hy)). rewrite H in T. cbn [negb orb] in T.
  destruct (plain_lower y) as [d|]; [|discriminate].
  apply N.eqb_eq in T. now subst d.
Qed.

Lemma re_ci_plain cs : forallb Char.iscased cs = true -> forall x,
  Forall (fun c => (c < 128)%N) x ->
  Forall2 (fun c y => lit_ok true c y = true) cs x ->
  Forall2 (fun a y => plain_lower y = Some a)
    (map Char.tolower (map N_of_ascii cs)) x.
Proof.
  induction cs as [|c cs IH]; intros H x A F; inversion F; subst; simpl.
  - constructor.
  - simpl in H. apply andb_true_iff in H as [Hc H].
    inversion A; subst. constructor; auto. now apply lit_ok_ascii.
Qed.

Lemma re_ci_ci_eq (w : string) x :
  forallb Char.iscased (list_ascii_of_string w) = true ->
  Forall (fun c => (c < 128)%N) x -> re_ci w x -> ci_eq w x.
Proof.
  intros Hw A R. pose proof (re_ci_plain _ Hw x A R) as P.
  destruct (lower_letters _ Hw []) as [L _].
  unfold ci_eq, Str.lower, str_of_string. rewrite L.
  rewrite <- (app_nil_r x) at 1. rewrite (plain_lower_app _ _ P).
  apply app_nil_r.
Qed.

Lemma ascii_middle (a x b : str) :
  Forall (fun c => (c < 128)%N) (a ++ x ++ b) ->
  Forall (fun c => (c < 128)%N) x.
Proof.
  intros H. apply Forall_app in H as [_ H]. now apply Forall_app in H.
Qed.

Lemma ascii_whole_word (w : string) (s : str) :
  forallb Char.iscased (list_ascii_of_string w) = true ->
  Forall (fun c => (c < 128)%N) s ->
  re_whole_word w s -> whole_word w s.
Proof.
  intros Hw A (pre & x & post & E & R & H). exists pre, x, post.
  split; auto. split; auto. apply re_ci_ci_eq; auto.
  rewrite E in A. now apply ascii_middle in A.
Qed.

Lemma ascii_begins_with_select (s : str) :
  Forall (fun c => (c < 128)%N) s ->
  re_begins_with_select s -> begins_with_select s.
Proof.
  intros A (ws & x & rest & E & Hws & R & H). exists ws, x, rest.
  repeat split; auto. apply (re_ci_ci_eq "SELECT"); auto.
  rewrite E in A. now apply ascii_middle in A.
Qed.

(** X15.  On a text written in ASCII the case folding of [re.IGNORECASE]
    is the one of [str.lower]: a word of letters stands in the text as a
    whole word for the one exactly when it does for the other, and the
    same holds for the leading SELECT. *)
Theorem ascii_folding_agrees (w : string) (s : str) :
  forallb Char.iscased (list_ascii_of_string w) = true ->
  Forall (fun c => (c < 128)%N) s ->
  (re_whole_word w s <-> whole_word w s)
  /\ (re_begins_with_select s <-> begins_with_select s).
Proof.
  intros Hw A. split; split.
  - now apply ascii_whole_word.
  - now apply whole_word_re.
  - now apply ascii_begins_with_select.
  - apply begins_with_select_re.
Qed.

Lemma ascii_folding_agrees_witness :
  (re_whole_word "LIMIT" ("select 1 Limit 5" : str)
   <-> whole_word "LIMIT" ("select 1 Limit 5" : str))
  /\ (re_begins_with_select ("select 1 Limit 5" : str)
      <-> begins_with_select ("select 1 Limit 5" : str)).
Proof.
  apply (ascii_folding_agrees "LIMIT" "select 1 Limit 5").
  - reflexivity.
  - repeat constructor.
Defined.

Lemma gate_output_ascii sql out :
  Forall (fun c => (c < 128)%N) sql -> enforce_read_only sql = Return out ->
  Forall (fun c => (c < 128)%N) out.
Proof.
  intros A H. apply gate_return in H as (_ & _ & _ & Hl).
  destruct (found (search I LIMIT_RE sql)); subst out; auto.
  destruct (gate_tail sql) as (t & E & _). rewrite E in A.
  apply Forall_app in A as [A _]. apply Forall_app. split; auto.
  repeat constructor.
Qed.

(** X16.  On a text written in ASCII the gate does what the words say:
    what it returns is written in ASCII, begins, after leading whitespace,
    with the word SELECT in any case of its letters and holds LIMIT as a
    whole word in any case of its letters; it is the input itself when
    LIMIT already stood in it so, and otherwise the input without its
    trailing whitespace and terminator, followed by [ LIMIT 100]. *)
Theorem ascii_gate_output (sql out : str) :
  Forall (fun c => (c < 128)%N) sql ->
  enforce_read_only sql = Return out ->
  Forall (fun c => (c < 128)%N) out
  /\ begins_with_select out
  /\ whole_word "LIMIT" out
  /\ ((whole_word "LIMIT" sql /\ out = sql)
      \/ (~ whole_word "LIMIT" sql
          /\ out = chop_terminator (Str.rstrip sql) ++ (" LIMIT 100" : str))).
Proof.
  intros A H. pose proof (gate_output_ascii _ _ A H) as Ao.
  pose proof (gate_output_checks _ _ H) as (_ & _ & Hs & Hl).
  split; auto. split; [|split].
  - apply ascii_begins_with_select; auto. now apply select_match.
  - apply (ascii_whole_word "LIMIT" out eq_refl Ao).
    now apply (re_whole_word_search "LIMIT" _ eq_refl).
  - apply gate_return in H as (_ & Hc & _ & Ho).
    change LIMIT_RE with (word_re "LIMIT") in Ho.
    destruct (found (search I (word_re "LIMIT") sql)) eqn:El.
    + left. split; auto.
      apply (ascii_whole_word "LIMIT" sql eq_refl A).
      now apply (re_whole_word_search "LIMIT" _ eq_refl).
    + right. split.
      * intros Hw. apply (whole_word_re "LIMIT" sql eq_refl) in Hw.
        apply (re_whole_word_search "LIMIT" _ eq_refl) in Hw. congruence.
      * rewrite Ho. f_equal. apply rstrip_semi_chop.
        pose proof (count_rstrip_space_le sql). lia.
Qed.

Lemma ascii_gate_output_witness :
  Forall (fun c => (c < 128)%N) ("select id from t LIMIT 100" : str)
  /\ begins_with_select ("select id from t LIMIT 100" : str)
  /\ whole_word "LIMIT" ("select id from t LIMIT 100" : str)
  /\ ((whole_word "LIMIT" ("select id from t;" : str)
       /\ ("select id from t LIMIT 100" : str) = ("select id from t;" : str))
      \/ (~ whole_word "LIMIT" ("select id from t;" : str)
          /\ ("select id from t LIMIT 100" : str)
             = chop_terminator (Str.rstrip "select id from t;")
               ++ (" LIMIT 100" : str))).
Proof.
  apply (ascii_gate_output "select id from t;" "select id from t LIMIT 100").
  - repeat constructor.
  - vm_compute. reflexivity.
Defined.
